(** * EM-Zilla: the serial device session of [src/js/usb-detector.js]

    A shallow embedding of the two classes of [usb-detector.js],
    [USBDetector] and [USBStatusMonitor]: board identification, the
    sketch envelope, the chunked upload, disconnection and the observer
    dispatch.

    - JavaScript strings are sequences of UTF-16 code units. Commands,
      responses, labels and messages are taken over the code units below
      256, as [list ascii]. The source handed to [uploadCode] is any
      sequence of code units ([Utf16.string16]), and what goes to the port
      is the bytes that [TextEncoder] makes of a string ([Utf16.encode]).
    - An [async] method is a computation in the monad [M]: it threads the
      fields of the detector object together with the history of what was
      done on the serial port, and ends in a value, a thrown exception (a
      rejected promise) or a promise that never settles.
    - Everything the hardware and the observers decide (does [open]
      resolve, what arrives on the readable stream, does a callback throw)
      is read from a [Device], a function of the history so far. A call
      on the port or on a stream succeeds or fails; a promise of the port
      that never settles is not modelled. A method stays pending only
      where a read gets nothing more, which the timer of [sendCommand]
      turns into a rejection, or where a loop does not end.
    - An observer is a function of the caller: calling it is one step of
      the history, and what it does in turn is not in the history.
    - One method runs at a time: no second method starts while one is
      suspended at an [await]. Console output is left out. *)

From Stdlib Require Import Ascii String.
From Stdlib Require Import List ZArith Lia Bool Arith.
Import ListNotations.
Open Scope list_scope.

(** ** JavaScript strings *)

Module JS.

Definition jsstring := list ascii.

(** A string literal of the source. *)
Definition str (s : string) : jsstring := list_ascii_of_string s.

(** The line feed inside the template literal and in ['\r\n']. *)
Definition LF : ascii := ascii_of_nat 10.
Definition CR : ascii := ascii_of_nat 13.
Definition nl : jsstring := [LF].
Definition crlf : jsstring := [CR; LF].

(** [s.startsWith(t)] *)
Fixpoint startsWith (s t : jsstring) {struct t} : bool :=
  match t, s with
  | [], _ => true
  | _ :: _, [] => false
  | c :: t', d :: s' => Ascii.eqb c d && startsWith s' t'
  end.

(** [s.includes(t)]: [t] starts at some position of [s]. *)
Fixpoint includes (s t : jsstring) : bool :=
  startsWith s t ||
  match s with
  | [] => false
  | _ :: s' => includes s' t
  end.

(** [s.substring(a, b)] for non-negative integer arguments: both are
    clamped to the length and swapped when [a > b]. *)
Definition substring {A} (s : list A) (a b : nat) : list A :=
  let lo := Nat.min (Nat.min a b) (length s) in
  let hi := Nat.min (Nat.max a b) (length s) in
  firstn (hi - lo) (skipn lo s).

(** White space of ECMAScript among the code units below 256: TAB, LF, VT,
    FF, CR, SPACE and NBSP. *)
Definition isWhiteSpace (c : ascii) : bool :=
  let n := nat_of_ascii c in
  ((9 <=? n) && (n <=? 13)) || (n =? 32) || (n =? 160).

Fixpoint trimStart (s : jsstring) : jsstring :=
  match s with
  | [] => []
  | c :: s' => if isWhiteSpace c then trimStart s' else s
  end.

Definition trimEnd (s : jsstring) : jsstring := rev (trimStart (rev s)).

(** [s.trim()] *)
Definition trim (s : jsstring) : jsstring := trimEnd (trimStart s).

(** The lower-case mapping on the code units below 256: A-Z, and the
    Latin-1 capitals U+00C0..U+00DE without the multiplication sign. *)
Definition lowerUnit (c : ascii) : ascii :=
  let n := nat_of_ascii c in
  if ((65 <=? n) && (n <=? 90)) ||
     ((192 <=? n) && (n <=? 222) && negb (n =? 215))
  then ascii_of_nat (n + 32) else c.

(** [s.toLowerCase()] *)
Definition toLowerCase (s : jsstring) : jsstring := map lowerUnit s.

(** Truthiness of a string: only the empty string is falsy. *)
Definition truthy (s : jsstring) : bool :=
  match s with [] => false | _ :: _ => true end.

(** Truthiness of a number that may be [undefined]. *)
Definition truthyNum (n : option Z) : bool :=
  match n with
  | Some z => negb (z =? 0)%Z
  | None => false
  end.

(** [a === b] between a possibly undefined number and a number. *)
Definition strictEqNum (a : option Z) (b : Z) : bool :=
  match a with
  | Some z => (z =? b)%Z
  | None => false
  end.

End JS.
Import JS.

(** ** The sketch envelope and the chunking ([wrapCodeForUpload],
       [chunkString]) *)

(** The [options] argument of [uploadCode]: only [options.libraries] is
    read; [None] is [undefined]. *)
Record UploadOptions := { libraries : option jsstring }.

(** [{}] *)
Definition noOptions : UploadOptions := {| libraries := None |}.

Definition setupMarker : jsstring := str "void setup()".
Definition loopMarker : jsstring := str "void loop()".

(** [options.libraries || ''] *)
Definition librariesOrEmpty (options : UploadOptions) : jsstring :=
  match libraries options with
  | Some l => if truthy l then l else []
  | None => []
  end.

(** The part of the template literal before [${code}]. *)
Definition envelopeHead (options : UploadOptions) : jsstring :=
  str "// Uploaded by VitaCoder Pro" ++ nl ++
  librariesOrEmpty options ++ nl ++
  nl ++
  str "void setup() {" ++ nl ++
  str "    Serial.begin(9600);" ++ nl ++
  str "    ".

(** The part of the template literal after [${code}]. *)
Definition envelopeTail : jsstring :=
  nl ++
  str "}" ++ nl ++
  nl ++
  str "void loop() {" ++ nl ++
  str "    // Your code runs here" ++ nl ++
  str "}".

Definition wrapCodeForUpload (code : jsstring) (options : UploadOptions)
  : jsstring :=
  if includes code setupMarker && includes code loopMarker
  then code
  else envelopeHead options ++ code ++ envelopeTail.

(** The loop of [chunkString]: [for (let i = 0; i < str.length; i +=
    chunkSize) chunks.push(str.substring(i, i + chunkSize))]. The loop
    does not end when [chunkSize] is 0 and [str] is not empty: the fuel
    bounds the number of iterations and [None] is a loop cut short. *)
Fixpoint chunkLoop {A} (fuel : nat) (s : list A) (chunkSize i : nat)
  (chunks : list (list A)) : option (list (list A)) :=
  if i <? length s then
    match fuel with
    | O => None
    | S fuel' =>
        chunkLoop fuel' s chunkSize (i + chunkSize)
          (chunks ++ [substring s i (i + chunkSize)])
    end
  else Some chunks.

(** One iteration moves [i] by [chunkSize >= 1], so [str.length]
    iterations are enough whenever the loop ends at all. *)
Definition chunkString {A} (s : list A) (chunkSize : nat)
  : option (list (list A)) :=
  chunkLoop (length s) s chunkSize 0 [].

(** ** Code units, [TextEncoder] and the envelope of any source *)

(** The content of a [Uint8Array], each byte an [ascii]. *)
Definition bytes := list ascii.

Module Utf16.

(** A JavaScript string in full: its UTF-16 code units, each from 0 to
    0xFFFF. The functions below are defined on every list of integers;
    what they give outside that range is of no use. *)
Definition string16 := list Z.

(** The code units of a string over the code units below 256. *)
Definition units (s : jsstring) : string16 :=
  map (fun c => Z.of_N (N_of_ascii c)) s.

(** [s.startsWith(t)] *)
Fixpoint startsWith (s t : string16) {struct t} : bool :=
  match t, s with
  | [], _ => true
  | _ :: _, [] => false
  | c :: t', d :: s' => (c =? d)%Z && startsWith s' t'
  end.

(** [s.includes(t)] *)
Fixpoint includes (s t : string16) : bool :=
  startsWith s t ||
  match s with
  | [] => false
  | _ :: s' => includes s' t
  end.

Definition isHighSurrogate (u : Z) : bool :=
  ((0xD800 <=? u) && (u <=? 0xDBFF))%Z.

Definition isLowSurrogate (u : Z) : bool :=
  ((0xDC00 <=? u) && (u <=? 0xDFFF))%Z.

Definition byte (z : Z) : ascii := ascii_of_N (Z.to_N z).

(** UTF-8 of one scalar value. *)
Definition utf8 (scalar : Z) : bytes :=
  if (scalar <? 0x80)%Z then [byte scalar]
  else if (scalar <? 0x800)%Z then
    [byte (Z.lor 0xC0 (Z.shiftr scalar 6));
     byte (Z.lor 0x80 (Z.land scalar 0x3F))]
  else if (scalar <? 0x10000)%Z then
    [byte (Z.lor 0xE0 (Z.shiftr scalar 12));
     byte (Z.lor 0x80 (Z.land (Z.shiftr scalar 6) 0x3F));
     byte (Z.lor 0x80 (Z.land scalar 0x3F))]
  else
    [byte (Z.lor 0xF0 (Z.shiftr scalar 18));
     byte (Z.lor 0x80 (Z.land (Z.shiftr scalar 12) 0x3F));
     byte (Z.lor 0x80 (Z.land (Z.shiftr scalar 6) 0x3F));
     byte (Z.lor 0x80 (Z.land scalar 0x3F))].

(** U+FFFD, which stands for a surrogate without its partner. *)
Definition replacement : Z := 0xFFFD.

(** [new TextEncoder().encode(s)]: a high surrogate followed by a low
    one is the scalar value of the pair, a surrogate on its own is
    U+FFFD, and every scalar value goes out in UTF-8. *)
Fixpoint encode (s : string16) : bytes :=
  match s with
  | [] => []
  | u :: rest =>
      if isHighSurrogate u then
        match rest with
        | v :: rest' =>
            if isLowSurrogate v
            then utf8 (0x10000 + Z.shiftl (u - 0xD800) 10 + (v - 0xDC00))
                   ++ encode rest'
            else utf8 replacement ++ encode rest
        | [] => utf8 replacement
        end
      else if isLowSurrogate u then utf8 replacement ++ encode rest
      else utf8 u ++ encode rest
  end.

(** A string without surrogates: every code unit is a scalar value. *)
Definition plain (s : string16) : bool :=
  forallb (fun u => negb (isHighSurrogate u || isLowSurrogate u)) s.

(** The cut between [a] and [b] separates a surrogate pair: [a] ends
    in a high surrogate and [b] starts with a low one. *)
Definition cutsPair (a b : string16) : bool :=
  match rev a, b with
  | u :: _, v :: _ => isHighSurrogate u && isLowSurrogate v
  | _, _ => false
  end.

(** No cut between one chunk and what follows it separates a pair. *)
Fixpoint pairsKept (chunks : list string16) : bool :=
  match chunks with
  | [] => true
  | chunk :: rest => negb (cutsPair chunk (concat rest)) && pairsKept rest
  end.

(** The [options] of [uploadCode] with any string as [libraries]. *)
Record UploadOptions := { libraries : option string16 }.

(** [{}] *)
Definition noOptions : UploadOptions := {| libraries := None |}.

(** [options.libraries || ''] *)
Definition librariesOrEmpty (options : UploadOptions) : string16 :=
  match libraries options with
  | Some [] => []
  | Some l => l
  | None => []
  end.

(** The part of the template literal before [${code}]. *)
Definition envelopeHead (options : UploadOptions) : string16 :=
  units (str "// Uploaded by VitaCoder Pro" ++ nl) ++
  librariesOrEmpty options ++
  units (nl ++
         nl ++
         str "void setup() {" ++ nl ++
         str "    Serial.begin(9600);" ++ nl ++
         str "    ").

(** The part of the template literal after [${code}]. *)
Definition envelopeTail : string16 :=
  units (nl ++
         str "}" ++ nl ++
         nl ++
         str "void loop() {" ++ nl ++
         str "    // Your code runs here" ++ nl ++
         str "}").

(** [wrapCodeForUpload(code, options)] on any source. *)
Definition wrapCodeForUpload (code : string16) (options : UploadOptions)
  : string16 :=
  if includes code (units (str "void setup()")) &&
     includes code (units (str "void loop()"))
  then code
  else envelopeHead options ++ code ++ envelopeTail.

End Utf16.

(** The options over the code units below 256, as options of any
    upload. *)
Definition anyOptions (options : UploadOptions) : Utf16.UploadOptions :=
  {| Utf16.libraries := option_map Utf16.units (libraries options) |}.

(** ** The world of the detector: ports, observers, history *)

(** What [port.getInfo()] returns; an identifier that the port does not
    report is [undefined], here [None]. *)
Record PortInfo := {
  usbVendorId : option Z;
  usbProductId : option Z
}.

(** A [SerialPort] object, as far as the detector looks into it. *)
Record SerialPort := { getInfo : PortInfo }.

(** A callback is known by the identity of its function object. *)
Definition Callback := nat.

(** The [status] objects given to the status observers: the snapshot of
    [getStatus()] and the connection events of the monitor (time stamp and
    message left out). *)
Inductive Status :=
| StatusSnapshot (connected scanning supported : bool)
    (portInfo : option PortInfo)
| StatusEvent (event : jsstring) (model : option jsstring)
    (portInfo : option PortInfo).

(** The arguments of a callback. *)
Inductive Payload :=
| OnConnect (model : jsstring) (port : option SerialPort)
| OnDisconnect
| OnStatus (status : Status).

(** What the detector does to the outside, in the order it does it. *)
Inductive Event :=
| EvRequestPort                  (* navigator.serial.requestPort *)
| EvOpen (baudRate : Z)          (* port.open({baudRate, 8N1}) *)
| EvClose                        (* port.close() *)
| EvGetWriter                    (* port.writable.getWriter() *)
| EvWrite (data : bytes)         (* writer.write(data) *)
| EvReleaseWriter                (* writer.releaseLock() *)
| EvGetReader                    (* port.readable.getReader() *)
| EvCancelReader                 (* reader.cancel(), not awaited *)
| EvReleaseReader                (* reader.releaseLock() *)
| EvStartTimer (ms : Z)          (* setTimeout(reject, ms) of sendCommand *)
| EvDelay (ms : Z)               (* await this.delay(ms) *)
| EvCall (callback : Callback) (args : Payload).

(** How the reads of one [readResponse] go: the decoded chunks that
    [reader.read()] delivers before the timer of [sendCommand] fires, and
    what follows them. *)
Inductive StreamEnd :=
| StreamDone      (* read() resolves with done = true *)
| StreamStalls    (* nothing more arrives in time *)
| StreamFails.    (* read() rejects *)

Record ReadScript := {
  chunksRead : list jsstring;
  streamEnd : StreamEnd
}.

(** The environment: the browser, the board and the observers. Each
    answer may depend on everything done so far. *)
Record Device := {
  serialSupported : bool;                        (* 'serial' in navigator *)
  grantedPort : list Event -> option SerialPort; (* the user's choice *)
  resolves : list Event -> Event -> bool;        (* does this call succeed *)
  incoming : list Event -> ReadScript
}.

(** Exceptions and rejections. *)
Inductive JsError :=
| Error (message : string)      (* new Error(message) *)
| TypeError (reading : string)  (* thrown at the property [reading]: read
                                   on null, or a lock asked of a stream
                                   that is closed or locked *)
| Rejected (operation : Event)  (* the rejection of the call [operation] *)
| StreamError.                  (* the rejection of reader.read() *)

(** A reader or writer object, named by the length of the history when it
    was acquired. *)
Definition Handle := nat.

(** The fields of [USBDetector], the observer set of [USBStatusMonitor],
    and the history. A JavaScript [Set] of functions is the list of its
    elements in insertion order. *)
Record State := {
  port : option SerialPort;
  reader : option Handle;
  writer : option Handle;
  isConnected : bool;
  isScanning : bool;
  connectionCallbacks : list Callback;
  disconnectionCallbacks : list Callback;
  statusCallbacks : list Callback;
  history : list Event
}.

(** A new [USBDetector] (constructor, lines 2-33), together with the
    empty [statusCallbacks] that the constructor of a [USBStatusMonitor]
    starts from. That constructor goes on to register two listeners of its
    own with [onConnection] and [onDisconnection]: they come into the
    sets as every observer does, by the two methods below. *)
Definition initial : State := {|
  port := None; reader := None; writer := None;
  isConnected := false; isScanning := false;
  connectionCallbacks := []; disconnectionCallbacks := [];
  statusCallbacks := []; history := []
|}.

Definition setPort (v : option SerialPort) (st : State) : State :=
  {| port := v; reader := reader st; writer := writer st;
     isConnected := isConnected st; isScanning := isScanning st;
     connectionCallbacks := connectionCallbacks st;
     disconnectionCallbacks := disconnectionCallbacks st;
     statusCallbacks := statusCallbacks st; history := history st |}.

Definition setReader (v : option Handle) (st : State) : State :=
  {| port := port st; reader := v; writer := writer st;
     isConnected := isConnected st; isScanning := isScanning st;
     connectionCallbacks := connectionCallbacks st;
     disconnectionCallbacks := disconnectionCallbacks st;
     statusCallbacks := statusCallbacks st; history := history st |}.

Definition setWriter (v : option Handle) (st : State) : State :=
  {| port := port st; reader := reader st; writer := v;
     isConnected := isConnected st; isScanning := isScanning st;
     connectionCallbacks := connectionCallbacks st;
     disconnectionCallbacks := disconnectionCallbacks st;
     statusCallbacks := statusCallbacks st; history := history st |}.

Definition setIsConnected (v : bool) (st : State) : State :=
  {| port := port st; reader := reader st; writer := writer st;
     isConnected := v; isScanning := isScanning st;
     connectionCallbacks := connectionCallbacks st;
     disconnectionCallbacks := disconnectionCallbacks st;
     statusCallbacks := statusCallbacks st; history := history st |}.

Definition setConnectionCallbacks (v : list Callback) (st : State) : State :=
  {| port := port st; reader := reader st; writer := writer st;
     isConnected := isConnected st; isScanning := isScanning st;
     connectionCallbacks := v;
     disconnectionCallbacks := disconnectionCallbacks st;
     statusCallbacks := statusCallbacks st; history := history st |}.

Definition setDisconnectionCallbacks (v : list Callback) (st : State)
  : State :=
  {| port := port st; reader := reader st; writer := writer st;
     isConnected := isConnected st; isScanning := isScanning st;
     connectionCallbacks := connectionCallbacks st;
     disconnectionCallbacks := v;
     statusCallbacks := statusCallbacks st; history := history st |}.

Definition setStatusCallbacks (v : list Callback) (st : State) : State :=
  {| port := port st; reader := reader st; writer := writer st;
     isConnected := isConnected st; isScanning := isScanning st;
     connectionCallbacks := connectionCallbacks st;
     disconnectionCallbacks := disconnectionCallbacks st;
     statusCallbacks := v; history := history st |}.

Definition record (ev : Event) (st : State) : State :=
  {| port := port st; reader := reader st; writer := writer st;
     isConnected := isConnected st; isScanning := isScanning st;
     connectionCallbacks := connectionCallbacks st;
     disconnectionCallbacks := disconnectionCallbacks st;
     statusCallbacks := statusCallbacks st; history := history st ++ [ev] |}.

(** ** The monad of methods *)

Inductive Outcome (A : Type) :=
| Returns (a : A)
| Throws (e : JsError)
| Pending.    (* the promise never settles / the loop never ends *)
Arguments Returns {A} a.
Arguments Throws {A} e.
Arguments Pending {A}.

Definition M (A : Type) := State -> Outcome A * State.

Definition ret {A} (a : A) : M A := fun st => (Returns a, st).

Definition throw {A} (e : JsError) : M A := fun st => (Throws e, st).

Definition bind {A B} (m : M A) (k : A -> M B) : M B :=
  fun st =>
    match m st with
    | (Returns a, st') => k a st'
    | (Throws e, st') => (Throws e, st')
    | (Pending, st') => (Pending, st')
    end.

Declare Scope js_scope.
Delimit Scope js_scope with js.
Notation "x <- m ;; k" := (bind m (fun x => k))
  (at level 61, m at next level, right associativity) : js_scope.
Notation "m ;; k" := (bind m (fun _ => k))
  (at level 61, right associativity) : js_scope.
Open Scope js_scope.

(** [try { body } catch (error) { handler }] *)
Definition tryCatch {A} (body : M A) (handler : JsError -> M A) : M A :=
  fun st =>
    match body st with
    | (Throws e, st') => handler e st'
    | r => r
    end.

(** [try { body } finally { cleanup }] *)
Definition tryFinally {A} (body : M A) (cleanup : M unit) : M A :=
  fun st =>
    match body st with
    | (Returns a, st') => (_ <- cleanup ;; ret a) st'
    | (Throws e, st') => (_ <- cleanup ;; throw e) st'
    | (Pending, st') => (Pending, st')
    end.

Definition get : M State := fun st => (Returns st, st).
Definition modify (f : State -> State) : M unit :=
  fun st => (Returns tt, f st).

(** A call that cannot fail. *)
Definition emit (ev : Event) : M unit := modify (record ev).

(** [new Promise((resolve, reject) => { setTimeout(() => reject(new
    Error('Command timeout')), timeout); body.then(resolve).catch(reject)
    })]: a body that has not settled when the timer fires is a rejection.
    The read that is still pending then goes on behind the method; what
    it does to later calls is in the answers of the [Device]. *)
Definition beforeTimer {A} (body : M A) : M A :=
  fun st =>
    match body st with
    | (Pending, st') => (Throws (Error "Command timeout"), st')
    | r => r
    end.

(** The method settles: it returns or throws. *)
Definition settles {A} (m : M A) : Prop :=
  forall st, fst (m st) <> Pending.

(** The method leaves [this.port] as it is. *)
Definition keepsPort {A} (m : M A) : Prop :=
  forall st, port (snd (m st)) = port st.

(** A loop that ends gives its value. *)
Definition terminating {A} (r : option A) : M A :=
  match r with
  | Some a => ret a
  | None => fun st => (Pending, st)
  end.

(** ** [USBDetector] *)

(** One entry of [arduinoSignatures.products]; [product = None] is the
    [null] wildcard. *)
Record Signature := {
  vendor : Z;
  product : option Z;
  name : jsstring
}.

(** [Object.entries(this.arduinoSignatures.products)]: keys that are not
    integers come in insertion order. *)
Definition arduinoSignatures : list (jsstring * Signature) := [
  (str "UNO",
    {| vendor := 0x2341; product := Some 0x0043; name := str "Arduino Uno" |});
  (str "UNO_R3",
    {| vendor := 0x2341; product := Some 0x0043;
       name := str "Arduino Uno R3" |});
  (str "NANO",
    {| vendor := 0x2341; product := Some 0x0010;
       name := str "Arduino Nano" |});
  (str "NANO_CLONE",
    {| vendor := 0x1A86; product := Some 0x7523;
       name := str "Arduino Nano (CH340)" |});
  (str "MEGA",
    {| vendor := 0x2341; product := Some 0x0010;
       name := str "Arduino Mega" |});
  (str "MEGA2560",
    {| vendor := 0x2341; product := Some 0x0042;
       name := str "Arduino Mega 2560" |});
  (str "LEONARDO",
    {| vendor := 0x2341; product := Some 0x0036;
       name := str "Arduino Leonardo" |});
  (str "ESP32",
    {| vendor := 0x10C4; product := Some 0xEA60;
       name := str "ESP32 Dev Module" |});
  (str "GENERIC",
    {| vendor := 0x2341; product := None; name := str "Generic Arduino" |})
]%Z.

(** The test of both descriptor loops: [info.usbVendorId ===
    signature.vendor && (signature.product === null || info.usbProductId
    === signature.product)]. *)
Definition matchesSignature (info : PortInfo) (signature : Signature)
  : bool :=
  strictEqNum (usbVendorId info) (vendor signature) &&
  match product signature with
  | None => true
  | Some p => strictEqNum (usbProductId info) p
  end.

(** The [for (const [key, signature] of ...)] loop with its [return]. *)
Fixpoint firstMatch (info : PortInfo) (entries : list (jsstring * Signature))
  : option (jsstring * Signature) :=
  match entries with
  | [] => None
  | (key, signature) :: rest =>
      if matchesSignature info signature then Some (key, signature)
      else firstMatch info rest
  end.

(** What [quickIdentifyPort] returns; [id] is the template
    [`${info.usbVendorId}-${info.usbProductId}`], kept as the pair it is
    printed from. *)
Record DeviceInfo := {
  id : option Z * option Z;
  model : jsstring;
  deviceName : jsstring;
  vendorId : option Z;
  productId : option Z;
  connected : bool
}.

(** [quickIdentifyPort(port)]: no guard on the identifiers. *)
Definition quickIdentifyPort (p : SerialPort) : option DeviceInfo :=
  let info := getInfo p in
  match firstMatch info arduinoSignatures with
  | Some (key, signature) =>
      Some {| id := (usbVendorId info, usbProductId info);
              model := toLowerCase key;
              deviceName := name signature;
              vendorId := usbVendorId info;
              productId := usbProductId info;
              connected := false |}
  | None => None
  end.

(** [behavioralGuess()] on the info of the port. *)
Definition guessFromInfo (info : PortInfo) : jsstring :=
  if strictEqNum (usbVendorId info) 0x2341 &&
     strictEqNum (usbProductId info) 0x0043 then str "uno"
  else if strictEqNum (usbVendorId info) 0x2341 &&
     strictEqNum (usbProductId info) 0x0042 then str "mega2560"
  else if strictEqNum (usbVendorId info) 0x2341 &&
     strictEqNum (usbProductId info) 0x0036 then str "leonardo"
  else if strictEqNum (usbVendorId info) 0x1A86 then str "nano"
  else if strictEqNum (usbVendorId info) 0x10C4 then str "esp32"
  else str "generic".

(** [mapResponseToModel(response)] *)
Definition mapResponseToModel (response : jsstring) : jsstring :=
  let lowerResponse := toLowerCase response in
  if includes lowerResponse (str "esp32") then str "esp32"
  else if includes lowerResponse (str "uno") then str "uno"
  else if includes lowerResponse (str "nano") then str "nano"
  else if includes lowerResponse (str "mega") then str "mega"
  else if includes lowerResponse (str "leonardo") then str "leonardo"
  else str "generic".

(** The [while (true)] loop of [readResponse] over the chunks that
    arrive: [Some response] when the loop is left by a [break], [None]
    when the chunks are used up with the loop still running. *)
Fixpoint readLoop (response : jsstring) (chunks : list jsstring)
  : option jsstring * jsstring :=
  match chunks with
  | [] => (None, response)
  | value :: rest =>
      let response' := response ++ value in
      if includes response' nl || (1024 <? length response')
      then (Some response', response')
      else readLoop response' rest
  end.

(** The candidate rates of [detectBaudRate]. *)
Definition commonBaudRates : list Z :=
  [9600; 115200; 57600; 38400; 19200; 14400]%Z.

(** The probes of [identifyByCommandResponse]: command, expected
    substring, timeout. *)
Definition commands : list (jsstring * jsstring * Z) := [
  (str "AT+GMR" ++ crlf, str "ESP32", 1000%Z);
  (str "ATI" ++ crlf, str "Arduino", 1000%Z);
  (crlf, str "ready", 500%Z)
].

Section Detector.

Variable dev : Device.

(** How a call that does not succeed fails. [port.writable.getWriter()]
    and [port.readable.getReader()] throw a [TypeError]: the stream is
    [null] while the port is not open, and a stream that is locked gives
    no second lock. The promise of any other call rejects. *)
Definition failure (ev : Event) : JsError :=
  match ev with
  | EvGetWriter => TypeError "getWriter"
  | EvGetReader => TypeError "getReader"
  | _ => Rejected ev
  end.

(** A call whose success the environment decides. An awaited call
    settles: a promise of the port that never resolves nor rejects is not
    in the model. *)
Definition io (ev : Event) : M unit :=
  fun st =>
    if resolves dev (history st) ev
    then (Returns tt, record ev st)
    else (Throws (failure ev), record ev st).

(** [this.port], or the [TypeError] of reading a property of [null]. *)
Definition thisPort (reading : string) : M SerialPort :=
  st <- get ;;
  match port st with
  | Some p => ret p
  | None => throw (TypeError reading)
  end.

(** [isSupported()] *)
Definition isSupported : bool := serialSupported dev.

(** [openPort(baudRate)] *)
Definition openPort (baudRate : Z) : M unit :=
  st <- get ;;
  match port st with
  | None => throw (Error "No port selected")
  | Some _ => io (EvOpen baudRate)
  end.

(** [readResponse()] *)
Definition readResponse : M jsstring :=
  st <- get ;;
  match port st with
  | None => throw (Error "Port not open")
  | Some _ =>
      io EvGetReader ;;
      h <- get ;;
      modify (setReader (Some (length (history h)))) ;;
      response <-
        tryFinally
          (fun st' =>
             let script := incoming dev (history st') in
             match readLoop [] (chunksRead script) with
             | (Some response, _) => (Returns response, st')
             | (None, response) =>
                 match streamEnd script with
                 | StreamDone => (Returns response, st')
                 | StreamStalls => (Pending, st')
                 | StreamFails => (Throws StreamError, st')
                 end
             end)
          (emit EvReleaseReader) ;;
      ret (trim response)
  end.

(** [sendCommand(command, timeout)]: the promise settles with whichever
    comes first, the response or the timer. *)
Definition sendCommand (command : jsstring) (timeout : Z) : M jsstring :=
  st <- get ;;
  match port st with
  | None => throw (Error "Port not open")
  | Some _ =>
      io EvGetWriter ;;
      h <- get ;;
      modify (setWriter (Some (length (history h)))) ;;
      io (EvWrite (Utf16.encode (Utf16.units command))) ;;
      emit EvReleaseWriter ;;
      emit (EvStartTimer timeout) ;;
      beforeTimer readResponse
  end.

(** [identifyByUSBInfo()] *)
Definition identifyByUSBInfo : M (option jsstring) :=
  p <- thisPort "getInfo" ;;
  let info := getInfo p in
  if truthyNum (usbVendorId info) && truthyNum (usbProductId info) then
    match firstMatch info arduinoSignatures with
    | Some (key, _) => ret (Some (toLowerCase key))
    | None => ret None
    end
  else ret None.

(** The loop of [identifyByCommandResponse]. *)
Fixpoint probeCommands (cmds : list (jsstring * jsstring * Z))
  : M (option jsstring) :=
  match cmds with
  | [] => ret None
  | (command, expected, timeout) :: rest =>
      found <-
        tryCatch
          (response <- sendCommand command timeout ;;
           if truthy response && includes response expected
           then ret (Some (mapResponseToModel response))
           else ret None)
          (fun _ => ret None) ;;
      match found with
      | Some m => ret (Some m)
      | None => probeCommands rest
      end
  end.

(** [identifyByCommandResponse()] *)
Definition identifyByCommandResponse : M (option jsstring) :=
  probeCommands commands.

(** The body of the [try] in [detectBaudRate] before its [return]: close
    the port, open it again at [baudRate], send a line terminator. *)
Definition probeBaudRate (baudRate : Z) : M jsstring :=
  thisPort "close" ;;
  io EvClose ;;
  openPort baudRate ;;
  sendCommand crlf 500.

(** The loop of [detectBaudRate]. *)
Fixpoint tryBaudRates (rates : list Z) : M (option Z) :=
  match rates with
  | [] => ret None
  | baudRate :: rest =>
      found <-
        tryCatch
          (probeBaudRate baudRate ;;
           ret (Some baudRate))
          (fun _ => ret None) ;;
      match found with
      | Some b => ret (Some b)
      | None => tryBaudRates rest
      end
  end.

(** [detectBaudRate()] *)
Definition detectBaudRate : M (option Z) := tryBaudRates commonBaudRates.

(** [behavioralGuess()] *)
Definition behavioralGuess : M jsstring :=
  p <- thisPort "getInfo" ;;
  ret (guessFromInfo (getInfo p)).

(** [identifyByBehavior()] *)
Definition identifyByBehavior : M (option jsstring) :=
  sendCommand crlf 500 ;;
  _ <- detectBaudRate ;;
  guess <- behavioralGuess ;;
  ret (Some guess).

(** [fallbackIdentification()] *)
Definition fallbackIdentification : M jsstring :=
  p <- thisPort "getInfo" ;;
  let info := getInfo p in
  if strictEqNum (usbVendorId info) 0x2341 then ret (str "uno")
  else if strictEqNum (usbVendorId info) 0x1A86 then ret (str "nano")
  else if strictEqNum (usbVendorId info) 0x10C4 then ret (str "esp32")
  else ret (str "generic").

(** The [for (const method of methods)] loop of [identifyModel]: a
    method that throws is skipped, a truthy model is returned. *)
Fixpoint tryMethods (methods : list (M (option jsstring)))
  : M (option jsstring) :=
  match methods with
  | [] => ret None
  | method :: rest =>
      found <- tryCatch method (fun _ => ret None) ;;
      match found with
      | Some m => if truthy m then ret (Some m) else tryMethods rest
      | None => tryMethods rest
      end
  end.

(** [identifyModel()] *)
Definition identifyModel : M jsstring :=
  st <- get ;;
  match port st with
  | None => throw (Error "Port not open")
  | Some _ =>
      tryCatch
        (found <- tryMethods
           [identifyByUSBInfo; identifyByCommandResponse;
            identifyByBehavior] ;;
         match found with
         | Some m => ret m
         | None => fallbackIdentification
         end)
        (fun _ => ret (str "unknown"))
  end.

(** [Set.prototype.add]: an element already present stays where it is. *)
Definition setAdd (callback : Callback) (set : list Callback)
  : list Callback :=
  if existsb (Nat.eqb callback) set then set else set ++ [callback].

(** [onConnection(callback)] *)
Definition onConnection (callback : Callback) : M unit :=
  modify (fun st =>
    setConnectionCallbacks (setAdd callback (connectionCallbacks st)) st).

(** [onDisconnection(callback)] *)
Definition onDisconnection (callback : Callback) : M unit :=
  modify (fun st =>
    setDisconnectionCallbacks
      (setAdd callback (disconnectionCallbacks st)) st).

(** [set.forEach(callback => { try { callback(...args) } catch (error) {
    console.error(...) } })] *)
Fixpoint forEachCallback (set : list Callback) (args : Payload) : M unit :=
  match set with
  | [] => ret tt
  | callback :: rest =>
      tryCatch (io (EvCall callback args)) (fun _ => ret tt) ;;
      forEachCallback rest args
  end.

(** [notifyConnection(model)] *)
Definition notifyConnection (model : jsstring) : M unit :=
  st <- get ;;
  forEachCallback (connectionCallbacks st) (OnConnect model (port st)).

(** [notifyDisconnection()] *)
Definition notifyDisconnection : M unit :=
  st <- get ;;
  forEachCallback (disconnectionCallbacks st) OnDisconnect.

(** [detectArduino()] *)
Definition detectArduino : M jsstring :=
  if negb isSupported then
    throw (Error
      "Web Serial API not supported in this browser. Use Chrome, Edge, or Opera.")
  else
    tryCatch
      (st <- get ;;
       emit EvRequestPort ;;
       match grantedPort dev (history st) with
       | None => throw (Rejected EvRequestPort)
       | Some p =>
           modify (setPort (Some p)) ;;
           openPort 9600 ;;
           model <- identifyModel ;;
           modify (setIsConnected true) ;;
           notifyConnection model ;;
           ret model
       end)
      (fun error => modify (setIsConnected false) ;; throw error).

(** The [for (const chunk of chunks)] loop of [sendCodeChunked]: each
    chunk is encoded on its own. *)
Fixpoint writeChunks (chunks : list Utf16.string16) : M unit :=
  match chunks with
  | [] => ret tt
  | chunk :: rest =>
      io (EvWrite (Utf16.encode chunk)) ;;
      emit (EvDelay 10) ;;
      writeChunks rest
  end.

(** [sendCodeChunked(code)] *)
Definition sendCodeChunked (code : Utf16.string16) : M unit :=
  chunks <- terminating (chunkString code 64) ;;
  thisPort "writable" ;;
  io EvGetWriter ;;
  h <- get ;;
  modify (setWriter (Some (length (history h)))) ;;
  tryFinally (writeChunks chunks) (emit EvReleaseWriter).

(** [uploadCode(code, options)] *)
Definition uploadCode (code : Utf16.string16)
  (options : Utf16.UploadOptions) : M bool :=
  st <- get ;;
  if negb (isConnected st) then throw (Error "No Arduino connected")
  else
    tryCatch
      (let fullCode := Utf16.wrapCodeForUpload code options in
       sendCodeChunked fullCode ;;
       ret true)
      (fun error => throw error).

(** [disconnect()]. [reader.cancel()] answers with a promise that is not
    awaited, and releasing a lock that is already released does nothing:
    only [port.close()] can make [disconnect] fail. *)
Definition disconnect : M unit :=
  st <- get ;;
  match reader st with
  | Some _ =>
      emit EvCancelReader ;;
      emit EvReleaseReader ;;
      modify (setReader None)
  | None => ret tt
  end ;;
  st <- get ;;
  match writer st with
  | Some _ => emit EvReleaseWriter ;; modify (setWriter None)
  | None => ret tt
  end ;;
  st <- get ;;
  match port st with
  | Some _ => io EvClose ;; modify (setPort None)
  | None => ret tt
  end ;;
  modify (setIsConnected false) ;;
  notifyDisconnection.

(** ** [USBStatusMonitor] *)

(** [onStatusChange(callback)] *)
Definition onStatusChange (callback : Callback) : M unit :=
  modify (fun st =>
    setStatusCallbacks (setAdd callback (statusCallbacks st)) st).

(** [notifyStatus(status)] *)
Definition notifyStatus (status : Status) : M unit :=
  st <- get ;;
  forEachCallback (statusCallbacks st) (OnStatus status).

End Detector.

(** ** Reading a history *)

(** What was written to the port, write by write. *)
Fixpoint written (events : list Event) : list bytes :=
  match events with
  | [] => []
  | EvWrite data :: rest => data :: written rest
  | _ :: rest => written rest
  end.

(** How often [callback] was invoked with [args]. *)
Fixpoint invocations (callback : Callback) (events : list Event) : nat :=
  match events with
  | [] => 0
  | EvCall c _ :: rest =>
      (if Nat.eqb c callback then 1 else 0) + invocations callback rest
  | _ :: rest => invocations callback rest
  end.

(** The vendors that [fallbackIdentification] knows. *)
Definition fallbackKnows (info : PortInfo) : bool :=
  strictEqNum (usbVendorId info) 0x2341 ||
  strictEqNum (usbVendorId info) 0x1A86 ||
  strictEqNum (usbVendorId info) 0x10C4.

(** The product ids that vendor 0x2341 has an entry of its own for. *)
Definition specificProduct (pid : option Z) : bool :=
  strictEqNum pid 0x0043 || strictEqNum pid 0x0010 ||
  strictEqNum pid 0x0042 || strictEqNum pid 0x0036.

(** A port with the given identifiers. *)
Definition portOf (vid pid : option Z) : SerialPort :=
  {| getInfo := {| usbVendorId := vid; usbProductId := pid |} |}.

(** The key that the descriptor loops end on, spelled out: the first
    entry of the table whose test holds. *)
Definition matchedKey (info : PortInfo) : option jsstring :=
  match firstMatch info arduinoSignatures with
  | Some (key, _) => Some (toLowerCase key)
  | None => None
  end.

(** The state with [events] added to its history. *)
Definition recordAll (events : list Event) (st : State) : State :=
  fold_left (fun s ev => record ev s) events st.

(** The calls of a dispatch of [args] to the observers in [set]. *)
Definition dispatch (set : list Callback) (args : Payload) : list Event :=
  map (fun callback => EvCall callback args) set.

(** The state in which [disconnect] reaches [if (this.port)]: the locks
    of a reader and of a writer at hand are released. *)
Definition locksReleased (st : State) : State :=
  let st1 :=
    match reader st with
    | Some _ =>
        setReader None (record EvReleaseReader (record EvCancelReader st))
    | None => st
    end in
  match writer st1 with
  | Some _ => setWriter None (record EvReleaseWriter st1)
  | None => st1
  end.

(** The events of [st'] that [st] did not have yet. *)
Definition since (st st' : State) : list Event :=
  skipn (length (history st)) (history st').

(** The history at the moment [disconnect] reaches [port.close()]. *)
Definition beforeClose (st : State) : list Event :=
  history st ++
  (match reader st with
   | Some _ => [EvCancelReader; EvReleaseReader]
   | None => []
   end) ++
  (match writer st with
   | Some _ => [EvReleaseWriter]
   | None => []
   end).

(** The observer sets are sets: no callback twice. *)
Definition wellFormed (st : State) : Prop :=
  NoDup (connectionCallbacks st) /\
  NoDup (disconnectionCallbacks st) /\
  NoDup (statusCallbacks st).

(** [detectBaudRate] as probing in order: the candidates are probed one
    after the other, each probe starting in the state the one before
    left, up to the first probe that does not throw. *)
Inductive Probed (dev : Device)
  : list Z -> State -> option Z -> State -> Prop :=
| ProbedNone (st : State) : Probed dev [] st None st
| ProbedHit (baudRate : Z) (rest : list Z) (st st' : State)
    (response : jsstring) :
    probeBaudRate dev baudRate st = (Returns response, st') ->
    Probed dev (baudRate :: rest) st (Some baudRate) st'
| ProbedMiss (baudRate : Z) (rest : list Z) (st st1 st' : State)
    (e : JsError) (found : option Z) :
    probeBaudRate dev baudRate st = (Throws e, st1) ->
    Probed dev rest st1 found st' ->
    Probed dev (baudRate :: rest) st found st'.

(** [detectBaudRate] in the words of the specification: the first rate
    that produces a non-empty response within its timeout. *)
Fixpoint tryBaudRates_claimed (dev : Device) (rates : list Z)
  : M (option Z) :=
  match rates with
  | [] => ret None
  | baudRate :: rest =>
      found <-
        tryCatch
          (response <- probeBaudRate dev baudRate ;;
           if truthy response then ret (Some baudRate) else ret None)
          (fun _ => ret None) ;;
      match found with
      | Some b => ret (Some b)
      | None => tryBaudRates_claimed dev rest
      end
  end.

Definition detectBaudRate_claimed (dev : Device) : M (option Z) :=
  tryBaudRates_claimed dev commonBaudRates.

(** ** Boards to run the detector on *)

(** The rate of the last [port.open]. *)
Definition lastBaudRate (events : list Event) : option Z :=
  fold_left
    (fun rate ev => match ev with EvOpen b => Some b | _ => rate end)
    events None.

(** Nothing ever arrives. *)
Definition silence : ReadScript :=
  {| chunksRead := []; streamEnd := StreamStalls |}.

(** One chunk arrives. *)
Definition answer (text : jsstring) : ReadScript :=
  {| chunksRead := [text]; streamEnd := StreamStalls |}.

(** An Arduino Uno on which every call succeeds and that never sends
    anything. *)
Definition silentUno : Device := {|
  serialSupported := true;
  grantedPort := fun _ => Some (portOf (Some 0x2341%Z) (Some 0x0043%Z));
  resolves := fun _ _ => true;
  incoming := fun _ => silence
|}.

(** A board of an unknown vendor that answers an empty line while the
    port is open at 9600 baud and [ok] at every other rate. *)
Definition emptyLineBoard : Device := {|
  serialSupported := true;
  grantedPort := fun _ => Some (portOf (Some 0x1234%Z) (Some 0x0001%Z));
  resolves := fun _ _ => true;
  incoming := fun events =>
    match lastBaudRate events with
    | Some 9600%Z => answer crlf
    | _ => answer (str "ok" ++ crlf)
    end
|}.

(** A board of an unknown vendor whose stream ends without a byte while
    the port is open at 9600 baud and that answers [ok] at every other
    rate. *)
Definition muteAt9600 : Device := {|
  serialSupported := true;
  grantedPort := fun _ => Some (portOf (Some 0x1234%Z) (Some 0x0001%Z));
  resolves := fun _ _ => true;
  incoming := fun events =>
    match lastBaudRate events with
    | Some 9600%Z => {| chunksRead := []; streamEnd := StreamDone |}
    | _ => answer (str "ok" ++ crlf)
    end
|}.

(** A port that another program holds: [open] and [close] reject, and
    observer 2 throws. *)
Definition busyPort : Device := {|
  serialSupported := true;
  grantedPort := fun _ => Some (portOf (Some 0x2341%Z) (Some 0x0043%Z));
  resolves := fun _ ev =>
    match ev with
    | EvOpen _ | EvClose => false
    | EvCall 2 _ => false
    | _ => true
    end;
  incoming := fun _ => silence
|}.

(** A detector on which the observers 1, 2 and 3 registered for every
    kind of event. *)
Definition threeObservers : State :=
  snd ((onConnection 1 ;; onConnection 2 ;; onConnection 3 ;;
        onDisconnection 1 ;; onDisconnection 2 ;; onDisconnection 3 ;;
        onStatusChange 1 ;; onStatusChange 2 ;; onStatusChange 3) initial).

(** The detector after observer 7 registered for disconnection and
    [detectArduino] failed on the busy port: [open] was rejected, the
    port chosen by the user is still in [this.port]. *)
Definition afterFailedOpen : State :=
  snd (detectArduino busyPort (snd (onDisconnection 7 initial))).

(** A detector that holds [p], not yet connected. *)
Definition holding (p : SerialPort) : State := setPort (Some p) initial.

(** ** The rest of [USBDetector] *)

(** [getArduinoFilters()]: the [usbVendorId] of each filter. *)
Definition getArduinoFilters : list Z :=
  [0x2341; 0x2A03; 0x1B4F; 0x1A86; 0x10C4; 0x0403]%Z.

(** [this.isScanning = v] *)
Definition setIsScanning (v : bool) (st : State) : State :=
  {| port := port st; reader := reader st; writer := writer st;
     isConnected := isConnected st; isScanning := v;
     connectionCallbacks := connectionCallbacks st;
     disconnectionCallbacks := disconnectionCallbacks st;
     statusCallbacks := statusCallbacks st; history := history st |}.

(** The key of [detectedDevices]: the [id] of a device. *)
Definition DeviceId := (option Z * option Z)%type.

Definition sameId (a b : DeviceId) : bool :=
  match fst a, fst b with
  | Some x, Some y => (x =? y)%Z
  | None, None => true
  | _, _ => false
  end &&
  match snd a, snd b with
  | Some x, Some y => (x =? y)%Z
  | None, None => true
  | _, _ => false
  end.

(** A [Map] from ids to devices, as its entries in insertion order. *)
Definition DeviceMap := list (DeviceId * DeviceInfo).

(** [map.set(key, value)]: a key already present keeps its place and gets
    the new value, a new key goes to the end. *)
Fixpoint mapSet (key : DeviceId) (value : DeviceInfo) (m : DeviceMap)
  : DeviceMap :=
  match m with
  | [] => [(key, value)]
  | (k, v) :: rest =>
      if sameId k key then (k, value) :: rest
      else (k, v) :: mapSet key value rest
  end.

(** [map.get(key)] *)
Fixpoint mapGet (key : DeviceId) (m : DeviceMap) : option DeviceInfo :=
  match m with
  | [] => None
  | (k, v) :: rest => if sameId k key then Some v else mapGet key rest
  end.

(** [devices.forEach(device => map.set(device.id, device))] *)
Definition setAll (devices : list DeviceInfo) (m : DeviceMap) : DeviceMap :=
  fold_left (fun acc device => mapSet (id device) device acc) devices m.

(** The whole [USBDetector] object: the fields above and the
    [detectedDevices] map. *)
Record Detector := {
  core : State;
  detectedDevices : DeviceMap
}.

(** The detector after its constructor. *)
Definition newDetector : Detector :=
  {| core := initial; detectedDevices := [] |}.

Definition onCore (f : State -> State) (d : Detector) : Detector :=
  {| core := f (core d); detectedDevices := detectedDevices d |}.

Definition setDetectedDevices (m : DeviceMap) (d : Detector) : Detector :=
  {| core := core d; detectedDevices := m |}.

(** Methods over the whole detector. *)
Definition D (A : Type) := Detector -> Outcome A * Detector.

Definition retD {A} (a : A) : D A := fun d => (Returns a, d).

Definition throwD {A} (e : JsError) : D A := fun d => (Throws e, d).

Definition bindD {A B} (m : D A) (k : A -> D B) : D B :=
  fun d =>
    match m d with
    | (Returns a, d') => k a d'
    | (Throws e, d') => (Throws e, d')
    | (Pending, d') => (Pending, d')
    end.

(** [try { body } finally { cleanup }] with a cleanup that only assigns
    fields. *)
Definition finallyD {A} (body : D A) (cleanup : Detector -> Detector)
  : D A :=
  fun d =>
    match body d with
    | (Pending, d') => (Pending, d')
    | (r, d') => (r, cleanup d')
    end.

(** A method of the fields above, run on the whole detector. *)
Definition liftD {A} (m : M A) : D A :=
  fun d =>
    let (r, st') := m (core d) in
    (r, {| core := st'; detectedDevices := detectedDevices d |}).

(** The browser around the board: [navigator.serial.getPorts()] resolves
    with the ports granted before, or rejects. *)
Record Navigator := {
  device : Device;
  getPorts : list Event -> list SerialPort + JsError
}.

(** The loop of [scanForDevices]: [quickIdentifyPort] of each port, the
    devices found pushed in order. *)
Fixpoint identifyPorts (ports : list SerialPort) (devices : list DeviceInfo)
  : list DeviceInfo :=
  match ports with
  | [] => devices
  | p :: rest =>
      match quickIdentifyPort p with
      | Some deviceInfo => identifyPorts rest (devices ++ [deviceInfo])
      | None => identifyPorts rest devices
      end
  end.

(** [scanForDevices()] *)
Definition scanForDevices (nav : Navigator) : D (list DeviceInfo) :=
  if negb (isSupported (device nav)) then
    throwD (Error "Web Serial API not supported")
  else
    bindD (fun d => (Returns tt, onCore (setIsScanning true) d)) (fun _ =>
    finallyD
      (fun d =>
         match getPorts nav (history (core d)) with
         | inr e => (Throws e, d)
         | inl ports =>
             let devices := identifyPorts ports [] in
             (Returns devices, setDetectedDevices (setAll devices []) d)
         end)
      (onCore (setIsScanning false))).

(** What [getStatus()] returns. *)
Record StatusReport := {
  reportConnected : bool;
  reportScanning : bool;
  reportSupported : bool;
  reportPort : option PortInfo;
  reportDevices : list DeviceInfo
}.

(** [getStatus()] *)
Definition getStatus (dev : Device) (d : Detector) : StatusReport :=
  {| reportConnected := isConnected (core d);
     reportScanning := isScanning (core d);
     reportSupported := isSupported dev;
     reportPort := option_map getInfo (port (core d));
     reportDevices := map snd (detectedDevices d) |}.

(** [reset()] *)
Definition reset (dev : Device) : D unit :=
  bindD (liftD (disconnect dev)) (fun _ => fun d =>
    (Returns tt,
     onCore (setDisconnectionCallbacks [])
       (onCore (setConnectionCallbacks [])
          (setDetectedDevices [] d)))).

(** ** The rest of [USBStatusMonitor] *)

(** What [checkDeviceHealth()] returns (the time stamp left out);
    [healthError] is the error whose message the report carries. *)
Record HealthReport := {
  healthStatus : jsstring;
  health : jsstring;
  healthResponse : option jsstring;
  healthError : option JsError
}.

(** [checkDeviceHealth()] *)
Definition checkDeviceHealth (dev : Device) : M HealthReport :=
  st <- get ;;
  if negb (isConnected st) then
    ret {| healthStatus := str "disconnected"; health := str "unknown";
           healthResponse := None; healthError := None |}
  else
    tryCatch
      (response <- sendCommand dev (str "AT" ++ crlf) 1000 ;;
       ret {| healthStatus := str "connected"; health := str "good";
              healthResponse := Some response; healthError := None |})
      (fun error =>
         ret {| healthStatus := str "connected";
                health := str "unresponsive";
                healthResponse := None; healthError := Some error |}).

(** The [capabilities] object of [getDeviceCapabilities]. *)
Definition capabilities : list (jsstring * list jsstring) := [
  (str "uno",
    [str "digital_io"; str "analog_input"; str "pwm"; str "serial"]);
  (str "nano",
    [str "digital_io"; str "analog_input"; str "pwm"; str "serial";
     str "compact"]);
  (str "mega",
    [str "digital_io"; str "analog_input"; str "pwm"; str "serial";
     str "multiple_serial"; str "more_memory"]);
  (str "leonardo",
    [str "digital_io"; str "analog_input"; str "pwm"; str "serial";
     str "usb_hid"]);
  (str "esp32",
    [str "wifi"; str "bluetooth"; str "digital_io"; str "analog_input";
     str "pwm"; str "more_memory"])
].

(** The names that every object literal inherits from
    [Object.prototype]. *)
Definition objectPrototypeKeys : list jsstring := [
  str "constructor"; str "hasOwnProperty"; str "isPrototypeOf";
  str "propertyIsEnumerable"; str "toLocaleString"; str "toString";
  str "valueOf"; str "__proto__"; str "__defineGetter__";
  str "__defineSetter__"; str "__lookupGetter__"; str "__lookupSetter__"
].

(** Equality of strings. *)
Fixpoint sameString (a b : jsstring) : bool :=
  match a, b with
  | [], [] => true
  | c :: a', d :: b' => Ascii.eqb c d && sameString a' b'
  | _, _ => false
  end.

Fixpoint ownProperty {V} (key : jsstring) (entries : list (jsstring * V))
  : option V :=
  match entries with
  | [] => None
  | (k, v) :: rest =>
      if sameString k key then Some v else ownProperty key rest
  end.

(** What [capabilities[model] || ['basic_arduino']] evaluates to: a list
    of the object, a member inherited from [Object.prototype] (truthy as
    well), or the default. *)
Inductive Member :=
| Listed (items : list jsstring)
| Inherited (key : jsstring).

Definition capabilitiesOf (label : jsstring) : Member :=
  match ownProperty label capabilities with
  | Some items => Listed items
  | None =>
      if existsb (sameString label) objectPrototypeKeys
      then Inherited label
      else Listed [str "basic_arduino"]
  end.

(** [getDeviceCapabilities()] *)
Definition getDeviceCapabilities (dev : Device) : M Member :=
  st <- get ;;
  if negb (isConnected st) then ret (Listed [])
  else
    label <- identifyModel dev ;;
    ret (capabilitiesOf label).

(** One entry of [getConnectionRecommendations]. *)
Record Recommendation := {
  recType : jsstring;
  recMessage : jsstring;
  recPriority : jsstring
}.

(** [status.supported], [status.connected] and [status.port] of a status
    object; a connection event has no [supported] and no [connected]. *)
Definition statusSupported (status : Status) : bool :=
  match status with
  | StatusSnapshot _ _ supported _ => supported
  | StatusEvent _ _ _ => false
  end.

Definition statusConnected (status : Status) : bool :=
  match status with
  | StatusSnapshot connected _ _ _ => connected
  | StatusEvent _ _ _ => false
  end.

Definition statusHasPort (status : Status) : bool :=
  match status with
  | StatusSnapshot _ _ _ (Some _) => true
  | StatusEvent _ _ (Some _) => true
  | _ => false
  end.

(** [getConnectionRecommendations(status)] *)
Definition getConnectionRecommendations (status : Status)
  : list Recommendation :=
  let recommendations := [] in
  let recommendations :=
    if negb (statusSupported status) then
      recommendations ++
      [{| recType := str "browser";
          recMessage := str "Use Chrome, Edge, or Opera for USB support";
          recPriority := str "high" |}]
    else recommendations in
  if statusConnected status && statusHasPort status then
    recommendations ++
    [{| recType := str "connection";
        recMessage := str "Connection stable";
        recPriority := str "low" |}]
  else
    recommendations ++
    [{| recType := str "connection";
        recMessage := str "Connect an Arduino device";
        recPriority := str "high" |}].

(** The status object that [getDeviceReport()] hands from
    [getCurrentStatus()], which is [getStatus()] of the detector, to
    [getConnectionRecommendations]: the fields that are read there. *)
Definition currentStatus (dev : Device) (d : Detector) : Status :=
  let status := getStatus dev d in
  StatusSnapshot (reportConnected status) (reportScanning status)
    (reportSupported status) (reportPort status).

Definition browserAdvice : Recommendation :=
  {| recType := str "browser";
     recMessage := str "Use Chrome, Edge, or Opera for USB support";
     recPriority := str "high" |}.

Definition connectionAdvice (stable : bool) : Recommendation :=
  if stable
  then {| recType := str "connection";
          recMessage := str "Connection stable";
          recPriority := str "low" |}
  else {| recType := str "connection";
          recMessage := str "Connect an Arduino device";
          recPriority := str "high" |}.

(** ** Reading a run *)

(** The labels of board models. *)
Definition modelLabels : list jsstring := [
  str "uno"; str "nano"; str "nano_clone"; str "mega"; str "mega2560";
  str "leonardo"; str "esp32"; str "generic"
].

(** A response that ends the loop of [readResponse]: it holds a line
    feed or is longer than 1024. *)
Definition complete (response : jsstring) : bool :=
  includes response nl || (1024 <? length response).

(** The time given to the timers that were started, in ms. *)
Fixpoint waited (events : list Event) : Z :=
  match events with
  | [] => 0
  | EvStartTimer ms :: rest => ms + waited rest
  | _ :: rest => waited rest
  end.

(** A detector that is connected has a port. *)
Definition connectedHasPort (st : State) : Prop :=
  isConnected st = true -> port st <> None.

(** Chunks of [size] units each, the last one of 1 to [size] units. *)
Fixpoint fullButLast {A} (size : nat) (chunks : list (list A)) : Prop :=
  match chunks with
  | [] => True
  | [chunk] => 0 < length chunk <= size
  | chunk :: rest => length chunk = size /\ fullButLast size rest
  end.

(** The calls of a paced transmission: each chunk encoded and written,
    then 10 ms of delay. *)
Definition paced (chunks : list Utf16.string16) : list Event :=
  flat_map (fun chunk => [EvWrite (Utf16.encode chunk); EvDelay 10]) chunks.

(** A string without white space at either end. *)
Definition trimmed (s : jsstring) : Prop :=
  match s with
  | [] => True
  | c :: _ => isWhiteSpace c = false /\ isWhiteSpace (last s c) = false
  end.

(** What talking to the port leaves alone: the port held, the flags and
    the observer sets. *)
Definition sameSession (st st' : State) : Prop :=
  port st' = port st /\
  isConnected st' = isConnected st /\
  isScanning st' = isScanning st /\
  connectionCallbacks st' = connectionCallbacks st /\
  disconnectionCallbacks st' = disconnectionCallbacks st /\
  statusCallbacks st' = statusCallbacks st.

(** The method relates the state it starts in to the state it leaves. *)
Definition keeps (R : State -> State -> Prop) {A} (m : M A) : Prop :=
  forall st, R st (snd (m st)).

(** Whatever the method returns satisfies [P]. *)
Definition yields {A} (m : M A) (P : A -> Prop) : Prop :=
  forall st a st', m st = (Returns a, st') -> P a.

(** The method only adds to the history, and the timers it starts add up
    to [budget] ms at most. *)
Definition costs {A} (m : M A) (budget : Z) : Prop :=
  forall st, exists events,
    history (snd (m st)) = history st ++ events /\
    (0 <= waited events <= budget)%Z.

(** A model found is one of the labels. *)
Definition labelled (found : option jsstring) : Prop :=
  forall label, found = Some label -> In label modelLabels.

(** An ESP32 behind an FTDI adapter (vendor 0x0403, which the filters
    admit and no signature lists): every call succeeds and every command
    is answered with the firmware line. *)
Definition esp32Adapter : Device := {|
  serialSupported := true;
  grantedPort := fun _ => Some (portOf (Some 0x0403%Z) (Some 0x6001%Z));
  resolves := fun _ _ => true;
  incoming := fun _ => answer (str "AT version:1.7.4 (ESP32)" ++ crlf)
|}.

(** From [st] to [st'] the history only grew, and no observer was
    called. *)
Definition quiet (st st' : State) : Prop :=
  exists events,
    history st' = history st ++ events /\
    forall c, invocations c events = 0.

(** The observer sets are the same in both states. *)
Definition sameObservers (st st' : State) : Prop :=
  connectionCallbacks st' = connectionCallbacks st /\
  disconnectionCallbacks st' = disconnectionCallbacks st /\
  statusCallbacks st' = statusCallbacks st.

(** A call of a method of the detector or of the monitor. *)
Inductive Call :=
| CallDetectArduino
| CallDisconnect
| CallUploadCode (code : Utf16.string16) (options : Utf16.UploadOptions)
| CallIdentifyModel
| CallSendCommand (command : jsstring) (timeout : Z)
| CallOnConnection (callback : Callback)
| CallOnDisconnection (callback : Callback)
| CallOnStatusChange (callback : Callback)
| CallNotifyStatus (status : Status)
| CallCheckDeviceHealth
| CallGetDeviceCapabilities.

(** The state that a call leaves, whether it returns or throws. *)
Definition after (dev : Device) (call : Call) (st : State) : State :=
  match call with
  | CallDetectArduino => snd (detectArduino dev st)
  | CallDisconnect => snd (disconnect dev st)
  | CallUploadCode code options => snd (uploadCode dev code options st)
  | CallIdentifyModel => snd (identifyModel dev st)
  | CallSendCommand command timeout =>
      snd (sendCommand dev command timeout st)
  | CallOnConnection callback => snd (onConnection callback st)
  | CallOnDisconnection callback => snd (onDisconnection callback st)
  | CallOnStatusChange callback => snd (onStatusChange callback st)
  | CallNotifyStatus status => snd (notifyStatus dev status st)
  | CallCheckDeviceHealth => snd (checkDeviceHealth dev st)
  | CallGetDeviceCapabilities => snd (getDeviceCapabilities dev st)
  end.

(** The states that calls, one after the other, lead to from a new
    detector. *)
Inductive Reachable (dev : Device) : State -> Prop :=
| ReachableNew : Reachable dev initial
| ReachableCall (st : State) (call : Call) :
    Reachable dev st -> Reachable dev (after dev call st).

(** A detector connected to a silent Uno, with observer 1 registered. *)
Definition connectedUno : State :=
  after silentUno CallDetectArduino
    (after silentUno (CallOnConnection 1) initial).

(** A source of one line whose comment ends in U+00B5, U+4E2D and
    U+6587: no surrogates, and UTF-8 of two and of three bytes. *)
Definition plainSketch : Utf16.string16 :=
  Utf16.units (str "delay(250); // ") ++ [0x00B5; 0x4E2D; 0x6587]%Z.

(** A source of one line with U+1F600 in its comment, after 11 code
    units: in the envelope the pair takes the places 85 and 86, inside
    the second chunk. *)
Definition smileySketch : Utf16.string16 :=
  Utf16.units (str "delay(250);") ++ [0xD83D; 0xDE00]%Z.

(** A source of one line whose comment ends in U+1F600, the surrogate
    pair 0xD83D 0xDE00, after 53 code units. In the envelope, whose head
    has 74 code units, the pair takes the places 127 and 128. *)
Definition emojiSketch : Utf16.string16 :=
  Utf16.units
    (str "digitalWrite(13, HIGH); delay(250); // and it is on: ") ++
  [0xD83D; 0xDE00]%Z.

(** The devices that one port adds to a scan. *)
Definition recognised (p : SerialPort) : list DeviceInfo :=
  match quickIdentifyPort p with
  | Some deviceInfo => [deviceInfo]
  | None => []
  end.

(** A browser with the serial API in which [getPorts] resolves with
    [ports]. *)
Definition browserWith (ports : list SerialPort) : Navigator :=
  {| device := silentUno; getPorts := fun _ => inl ports |}.

(** Two Unos, an FTDI adapter and a CH340 Nano clone. *)
Definition benchPorts : list SerialPort := [
  portOf (Some 0x2341%Z) (Some 0x0043%Z);
  portOf (Some 0x0403%Z) (Some 0x6001%Z);
  portOf (Some 0x2341%Z) (Some 0x0043%Z);
  portOf (Some 0x1A86%Z) (Some 0x7523%Z)
].

(** The calls of one [sendCommand] that resolves, in order. *)
Definition exchange (command : jsstring) (timeout : Z) : list Event :=
  [EvGetWriter; EvWrite (Utf16.encode (Utf16.units command));
   EvReleaseWriter; EvStartTimer timeout; EvGetReader; EvReleaseReader].

(** The calls on the port, its streams and the timers: every call of
    the history that is not the call of an observer. *)
Definition portCalls (events : list Event) : list Event :=
  filter (fun ev => match ev with EvCall _ _ => false | _ => true end)
    events.

(** The observers that were told of a disconnection, in the order they
    were told. *)
Fixpoint toldOfDisconnection (events : list Event) : list Callback :=
  match events with
  | [] => []
  | EvCall callback OnDisconnect :: rest =>
      callback :: toldOfDisconnection rest
  | _ :: rest => toldOfDisconnection rest
  end.

(** Whether the readable stream is locked after [events]: a reader was
    asked for and its lock not released since. *)
Definition readerLocked (events : list Event) : bool :=
  fold_left
    (fun locked ev =>
       match ev with
       | EvGetReader => true
       | EvReleaseReader => false
       | _ => locked
       end)
    events false.

(** A silent Uno in a browser that gives no reader while the readable
    stream is locked. *)
Definition strictUno : Device := {|
  serialSupported := true;
  grantedPort := fun _ => Some (portOf (Some 0x2341%Z) (Some 0x0043%Z));
  resolves := fun events ev =>
    match ev with
    | EvGetReader => negb (readerLocked events)
    | _ => true
    end;
  incoming := fun _ => silence
|}.

(** * Properties *)

(** ** Strings *)

Lemma startsWith_app (t rest : jsstring) : startsWith (t ++ rest) t = true.
Proof.
  induction t as [|c t IH]; simpl.
  - reflexivity.
  - rewrite Ascii.eqb_refl. exact IH.
Qed.

Lemma includes_here (s t : jsstring) :
  startsWith s t = true -> includes s t = true.
Proof.
  intros H. destruct s; simpl in *; rewrite H; reflexivity.
Qed.

Lemma includes_app_r (s1 s2 t : jsstring) :
  includes s2 t = true -> includes (s1 ++ s2) t = true.
Proof.
  intros H. induction s1 as [|c s1 IH]; simpl.
  - exact H.
  - rewrite IH. apply orb_true_r.
Qed.


Lemma includes_middle (a t b : jsstring) : includes (a ++ t ++ b) t = true.
Proof.
  apply includes_app_r, includes_here, startsWith_app.
Qed.

(** ** The envelope *)





Lemma wrap_unmarked (code : jsstring) (options : UploadOptions) :
  includes code setupMarker && includes code loopMarker = false ->
  wrapCodeForUpload code options =
  envelopeHead options ++ code ++ envelopeTail.
Proof.
  intros H. unfold wrapCodeForUpload. rewrite H. reflexivity.
Qed.

(** C7. The envelope of a source without the markers, on the one-line
    source [digitalWrite(13, HIGH);] with [options = {}]: the baud rate is
    declared in [setup()], and the source follows it there, inside
    [setup()]; the body of [loop()] is the fixed comment
    [// Your code runs here] and nothing of the source. *)
Theorem wrapCodeForUpload_source_in_setup :
  wrapCodeForUpload (str "digitalWrite(13, HIGH);") noOptions =
  str "// Uploaded by VitaCoder Pro" ++ nl ++
  nl ++
  nl ++
  str "void setup() {" ++ nl ++
  str "    Serial.begin(9600);" ++ nl ++
  str "    digitalWrite(13, HIGH);" ++ nl ++
  str "}" ++ nl ++
  nl ++
  str "void loop() {" ++ nl ++
  str "    // Your code runs here" ++ nl ++
  str "}".
Proof. reflexivity. Qed.

(** ** Chunking *)

Lemma substring_step {A} (s : list A) (i c : nat) :
  i < length s ->
  substring s i (i + c) = firstn c (skipn i s).
Proof.
  intros Hi. unfold substring.
  replace (Nat.min (Nat.min i (i + c)) (length s)) with i by lia.
  replace (Nat.max i (i + c)) with (i + c) by lia.
  destruct (Nat.le_gt_cases (i + c) (length s)) as [Hle|Hgt].
  - replace (Nat.min (i + c) (length s) - i) with c by lia. reflexivity.
  - replace (Nat.min (i + c) (length s) - i) with (length (skipn i s))
      by (rewrite length_skipn; lia).
    rewrite firstn_all. symmetry. apply firstn_all2.
    rewrite length_skipn. lia.
Qed.

(** With a chunk size of at least 1 the loop ends within the fuel, and
    the chunks it adds are the rest of the string from [i] on. *)
Lemma chunkLoop_spec {A} (fuel : nat) :
  forall (s : list A) (c i : nat) (acc : list (list A)),
    0 < c -> length s - i <= fuel ->
    exists chunks,
      chunkLoop fuel s c i acc = Some (acc ++ chunks) /\
      concat chunks = skipn i s /\
      Forall (fun chunk => 0 < length chunk <= c) chunks.
Proof.
  induction fuel as [|fuel IH]; intros s c i acc Hc Hfuel; simpl.
  - destruct (i <? length s) eqn:Hi.
    + apply Nat.ltb_lt in Hi. lia.
    + apply Nat.ltb_ge in Hi. exists []. rewrite app_nil_r.
      repeat split; auto. simpl. symmetry. apply skipn_all2. exact Hi.
  - destruct (i <? length s) eqn:Hi.
    + apply Nat.ltb_lt in Hi.
      destruct (IH s c (i + c) (acc ++ [substring s i (i + c)]) Hc)
        as (chunks & Hrun & Hcat & Hlen); [lia|].
      exists (substring s i (i + c) :: chunks).
      rewrite Hrun, <- app_assoc. simpl. repeat split; auto.
      * rewrite Hcat, substring_step by exact Hi.
        rewrite Nat.add_comm, <- skipn_skipn. apply firstn_skipn.
      * constructor; [|exact Hlen].
        rewrite substring_step by exact Hi.
        rewrite length_firstn, length_skipn. lia.
    + apply Nat.ltb_ge in Hi. exists []. rewrite app_nil_r.
      repeat split; auto. simpl. symmetry. apply skipn_all2. exact Hi.
Qed.

Lemma chunkString_spec {A} (s : list A) (c : nat) :
  0 < c ->
  exists chunks,
    chunkString s c = Some chunks /\
    concat chunks = s /\
    Forall (fun chunk => 0 < length chunk <= c) chunks.
Proof.
  intros Hc. unfold chunkString.
  destruct (chunkLoop_spec (length s) s c 0 [] Hc) as (chunks & H1 & H2 & H3);
    [lia|].
  exists chunks. simpl in H1, H2. auto.
Qed.

(** ** Descriptor match *)

Lemma matchedKey_cases (info : PortInfo) :
  matchedKey info =
  if strictEqNum (usbVendorId info) 0x2341 then
    if strictEqNum (usbProductId info) 0x0043 then Some (str "uno")
    else if strictEqNum (usbProductId info) 0x0010 then Some (str "nano")
    else if strictEqNum (usbProductId info) 0x0042 then Some (str "mega2560")
    else if strictEqNum (usbProductId info) 0x0036 then Some (str "leonardo")
    else Some (str "generic")
  else if strictEqNum (usbVendorId info) 0x1A86 then
    if strictEqNum (usbProductId info) 0x7523 then Some (str "nano_clone")
    else None
  else if strictEqNum (usbVendorId info) 0x10C4 then
    if strictEqNum (usbProductId info) 0xEA60 then Some (str "esp32")
    else None
  else None.
Proof.
  unfold matchedKey, arduinoSignatures, firstMatch, matchesSignature.
  cbn [vendor product name].
  destruct (usbVendorId info) as [v|], (usbProductId info) as [p|];
    unfold strictEqNum.
  all: repeat match goal with
       | |- context [(?a =? ?b)%Z] =>
           destruct (Z.eqb_spec a b); try lia; subst;
           cbn [andb orb]; try reflexivity
       end.
  all: try reflexivity.
Qed.

(** ** Histories *)

Lemma history_recordAll (events : list Event) :
  forall st, history (recordAll events st) = history st ++ events.
Proof.
  induction events as [|ev rest IH]; intros st; simpl.
  - symmetry. apply app_nil_r.
  - unfold recordAll in IH. rewrite IH. simpl. rewrite <- app_assoc.
    reflexivity.
Qed.

Lemma since_app (st st' : State) (events : list Event) :
  history st' = history st ++ events -> since st st' = events.
Proof.
  intros H. unfold since. rewrite H, skipn_app, skipn_all, Nat.sub_diag.
  reflexivity.
Qed.

Lemma invocations_app (c : Callback) (e1 e2 : list Event) :
  invocations c (e1 ++ e2) = invocations c e1 + invocations c e2.
Proof.
  induction e1 as [|ev e1 IH]; simpl; [reflexivity|].
  destruct ev; auto. rewrite IH. lia.
Qed.

Lemma invocations_dispatch_absent (c : Callback) (args : Payload)
  (set : list Callback) :
  ~ In c set -> invocations c (dispatch set args) = 0.
Proof.
  induction set as [|d set IH]; simpl; intros H; [reflexivity|].
  destruct (Nat.eqb_spec d c) as [->|Hne].
  - exfalso. apply H. left. reflexivity.
  - simpl. apply IH. intros Hin. apply H. right. exact Hin.
Qed.

(** In a dispatch to a set, each member is called exactly once. *)
Lemma invocations_dispatch_once (c : Callback) (args : Payload)
  (set : list Callback) :
  NoDup set -> In c set -> invocations c (dispatch set args) = 1.
Proof.
  induction 1 as [|d set Hnotin Hnodup IH]; simpl; intros Hin; [easy|].
  destruct (Nat.eqb_spec d c) as [->|Hne].
  - rewrite invocations_dispatch_absent by exact Hnotin. reflexivity.
  - destruct Hin as [->|Hin]; [contradiction|]. simpl. apply IH. exact Hin.
Qed.

Lemma written_app (e1 e2 : list Event) :
  written (e1 ++ e2) = written e1 ++ written e2.
Proof.
  induction e1 as [|ev e1 IH]; simpl; [reflexivity|].
  destruct ev; auto. rewrite IH. reflexivity.
Qed.

(** ** Methods that settle and keep the port *)

Lemma settles_ret {A} (a : A) : settles (ret a).
Proof. intros st. discriminate. Qed.

Lemma settles_throw {A} (e : JsError) : settles (@throw A e).
Proof. intros st. discriminate. Qed.

Lemma settles_get : settles get.
Proof. intros st. discriminate. Qed.

Lemma settles_modify (f : State -> State) : settles (modify f).
Proof. intros st. discriminate. Qed.

Lemma settles_emit (ev : Event) : settles (emit ev).
Proof. intros st. discriminate. Qed.

Lemma settles_io (dev : Device) (ev : Event) : settles (io dev ev).
Proof.
  intros st. unfold io. destruct (resolves dev (history st) ev); discriminate.
Qed.

Lemma settles_bind {A B} (m : M A) (k : A -> M B) :
  settles m -> (forall a, settles (k a)) -> settles (bind m k).
Proof.
  intros Hm Hk st. unfold bind. specialize (Hm st).
  destruct (m st) as [[a|e|] st']; simpl in *.
  - apply Hk.
  - discriminate.
  - congruence.
Qed.

Lemma settles_tryCatch {A} (m : M A) (h : JsError -> M A) :
  settles m -> (forall e, settles (h e)) -> settles (tryCatch m h).
Proof.
  intros Hm Hh st. unfold tryCatch. specialize (Hm st).
  destruct (m st) as [[a|e|] st']; simpl in *.
  - discriminate.
  - apply Hh.
  - congruence.
Qed.

Lemma settles_beforeTimer {A} (m : M A) : settles (beforeTimer m).
Proof.
  intros st. unfold beforeTimer.
  destruct (m st) as [[a|e|] st']; discriminate.
Qed.

Lemma keepsPort_ret {A} (a : A) : keepsPort (ret a).
Proof. intros st. reflexivity. Qed.

Lemma keepsPort_throw {A} (e : JsError) : keepsPort (@throw A e).
Proof. intros st. reflexivity. Qed.

Lemma keepsPort_get : keepsPort get.
Proof. intros st. reflexivity. Qed.

Lemma keepsPort_emit (ev : Event) : keepsPort (emit ev).
Proof. intros st. reflexivity. Qed.

Lemma keepsPort_setReader (v : option Handle) :
  keepsPort (modify (setReader v)).
Proof. intros st. reflexivity. Qed.

Lemma keepsPort_setWriter (v : option Handle) :
  keepsPort (modify (setWriter v)).
Proof. intros st. reflexivity. Qed.

Lemma keepsPort_io (dev : Device) (ev : Event) : keepsPort (io dev ev).
Proof.
  intros st. unfold io. destruct (resolves dev (history st) ev); reflexivity.
Qed.

Lemma keepsPort_bind {A B} (m : M A) (k : A -> M B) :
  keepsPort m -> (forall a, keepsPort (k a)) -> keepsPort (bind m k).
Proof.
  intros Hm Hk st. unfold bind. specialize (Hm st).
  destruct (m st) as [[a|e|] st']; simpl in *; try assumption.
  rewrite Hk. exact Hm.
Qed.

Lemma keepsPort_tryCatch {A} (m : M A) (h : JsError -> M A) :
  keepsPort m -> (forall e, keepsPort (h e)) -> keepsPort (tryCatch m h).
Proof.
  intros Hm Hh st. unfold tryCatch. specialize (Hm st).
  destruct (m st) as [[a|e|] st']; simpl in *; try assumption.
  rewrite Hh. exact Hm.
Qed.

Lemma keepsPort_tryFinally {A} (m : M A) (cleanup : M unit) :
  keepsPort m -> keepsPort cleanup -> keepsPort (tryFinally m cleanup).
Proof.
  intros Hm Hc st. unfold tryFinally. specialize (Hm st).
  destruct (m st) as [[a|e|] st']; simpl in *; try assumption.
  - rewrite keepsPort_bind; auto using keepsPort_ret.
  - rewrite keepsPort_bind; auto using keepsPort_throw.
Qed.

Lemma keepsPort_beforeTimer {A} (m : M A) :
  keepsPort m -> keepsPort (beforeTimer m).
Proof.
  intros Hm st. unfold beforeTimer. specialize (Hm st).
  destruct (m st) as [[a|e|] st']; exact Hm.
Qed.

Create HintDb js.
#[local] Hint Resolve settles_ret settles_throw settles_get settles_modify
  settles_emit settles_io settles_beforeTimer
  keepsPort_ret keepsPort_throw keepsPort_get keepsPort_emit
  keepsPort_setReader keepsPort_setWriter keepsPort_io : js.

(** Splits a method along its binds, handlers and case distinctions. *)
Ltac step_method :=
  repeat first
    [ match goal with |- forall _, _ => intro end
    | solve [auto with js]
    | apply settles_bind | apply settles_tryCatch
    | apply keepsPort_bind | apply keepsPort_tryCatch
    | apply keepsPort_tryFinally | apply keepsPort_beforeTimer
    | match goal with
      | |- settles (match ?x with _ => _ end) => destruct x
      | |- keepsPort (match ?x with _ => _ end) => destruct x
      | |- settles (if ?x then _ else _) => destruct x
      | |- keepsPort (if ?x then _ else _) => destruct x
      end ].

Lemma keepsPort_readResponse (dev : Device) : keepsPort (readResponse dev).
Proof.
  unfold readResponse. step_method.
  intros st. destruct (readLoop [] _) as [[r|] r'];
    [|destruct (streamEnd _)]; reflexivity.
Qed.

#[local] Hint Resolve keepsPort_readResponse : js.

Lemma keepsPort_sendCommand (dev : Device) (command : jsstring) (t : Z) :
  keepsPort (sendCommand dev command t).
Proof. unfold sendCommand. step_method. Qed.

Lemma settles_sendCommand (dev : Device) (command : jsstring) (t : Z) :
  settles (sendCommand dev command t).
Proof. unfold sendCommand. step_method. Qed.

#[local] Hint Resolve keepsPort_sendCommand settles_sendCommand : js.

Lemma bind_returns_inv {A B} (m : M A) (k : A -> M B) (st st' : State)
  (b : B) :
  bind m k st = (Returns b, st') ->
  exists a st1, m st = (Returns a, st1) /\ k a st1 = (Returns b, st').
Proof.
  unfold bind. destruct (m st) as [[a|e|] st1]; intros H; try discriminate.
  exists a, st1. auto.
Qed.

(** [try { ... } catch { }] around a method that settles: the loop goes
    on with a value. *)
Lemma tryCatch_default {A} (m : M A) (d : A) (st : State) :
  fst (m st) <> Pending ->
  exists a,
    tryCatch m (fun _ => ret d) st = (Returns a, snd (m st)) /\
    (fst (m st) = Returns a \/ (a = d /\ exists e, fst (m st) = Throws e)).
Proof.
  unfold tryCatch. destruct (m st) as [[a|e|] st']; simpl; intros H.
  - exists a. auto.
  - exists d. split; [reflexivity|]. right. eauto.
  - congruence.
Qed.

(** ** Identification *)

Lemma identifyByUSBInfo_run (st : State) (p : SerialPort) :
  port st = Some p ->
  identifyByUSBInfo st =
  (Returns (if truthyNum (usbVendorId (getInfo p)) &&
               truthyNum (usbProductId (getInfo p))
            then matchedKey (getInfo p) else None), st).
Proof.
  intros Hp. unfold identifyByUSBInfo, thisPort, bind, get. rewrite Hp.
  unfold ret, matchedKey.
  destruct (truthyNum _ && truthyNum _); [|reflexivity].
  destruct (firstMatch _ _) as [[key sig]|]; reflexivity.
Qed.

Lemma settles_identifyByUSBInfo : settles identifyByUSBInfo.
Proof. unfold identifyByUSBInfo, thisPort. step_method. Qed.

Lemma keepsPort_identifyByUSBInfo : keepsPort identifyByUSBInfo.
Proof. unfold identifyByUSBInfo, thisPort. step_method. Qed.

Lemma settles_probeCommands (dev : Device) cmds :
  settles (probeCommands dev cmds).
Proof.
  induction cmds as [|[[command expected] timeout] rest IH]; simpl;
    step_method.
Qed.

Lemma keepsPort_probeCommands (dev : Device) cmds :
  keepsPort (probeCommands dev cmds).
Proof.
  induction cmds as [|[[command expected] timeout] rest IH]; simpl;
    step_method.
Qed.

Lemma settles_probeBaudRate (dev : Device) (baudRate : Z) :
  settles (probeBaudRate dev baudRate).
Proof. unfold probeBaudRate, thisPort, openPort. step_method. Qed.

Lemma keepsPort_probeBaudRate (dev : Device) (baudRate : Z) :
  keepsPort (probeBaudRate dev baudRate).
Proof. unfold probeBaudRate, thisPort, openPort. step_method. Qed.

#[local] Hint Resolve settles_probeBaudRate keepsPort_probeBaudRate : js.

Lemma settles_tryBaudRates (dev : Device) (rates : list Z) :
  settles (tryBaudRates dev rates).
Proof. induction rates as [|b rest IH]; simpl; step_method. Qed.

Lemma keepsPort_tryBaudRates (dev : Device) (rates : list Z) :
  keepsPort (tryBaudRates dev rates).
Proof. induction rates as [|b rest IH]; simpl; step_method. Qed.

#[local] Hint Resolve settles_tryBaudRates keepsPort_tryBaudRates : js.

Lemma settles_identifyByBehavior (dev : Device) :
  settles (identifyByBehavior dev).
Proof.
  unfold identifyByBehavior, detectBaudRate, behavioralGuess, thisPort.
  step_method.
Qed.

Lemma keepsPort_identifyByBehavior (dev : Device) :
  keepsPort (identifyByBehavior dev).
Proof.
  unfold identifyByBehavior, detectBaudRate, behavioralGuess, thisPort.
  step_method.
Qed.

(** What the behavioural strategy returns, when it returns, is the guess
    from the identifiers of the port. *)
Lemma identifyByBehavior_result (dev : Device) (st st' : State)
  (p : SerialPort) (found : option jsstring) :
  port st = Some p ->
  identifyByBehavior dev st = (Returns found, st') ->
  found = Some (guessFromInfo (getInfo p)).
Proof.
  intros Hp H. unfold identifyByBehavior in H.
  apply bind_returns_inv in H. destruct H as (r1 & st1 & H1 & H).
  apply bind_returns_inv in H. destruct H as (r2 & st2 & H2 & H).
  apply bind_returns_inv in H. destruct H as (guess & st3 & H3 & H).
  assert (Hp1 : port st1 = Some p).
  { rewrite <- Hp. change st1 with (snd (Returns r1, st1)). rewrite <- H1.
    apply keepsPort_sendCommand. }
  assert (Hp2 : port st2 = Some p).
  { rewrite <- Hp1. change st2 with (snd (Returns r2, st2)). rewrite <- H2.
    apply keepsPort_tryBaudRates. }
  unfold behavioralGuess, thisPort, bind, get in H3. rewrite Hp2 in H3.
  unfold ret in *. congruence.
Qed.

Lemma tryMethods_returns (methods : list (M (option jsstring))) :
  Forall (fun m => settles m /\ keepsPort m) methods ->
  forall st, exists found st',
    tryMethods methods st = (Returns found, st') /\ port st' = port st.
Proof.
  induction 1 as [|m rest [Hs Hk] _ IH]; intros st; simpl.
  - exists None, st. auto.
  - destruct (tryCatch_default m None st (Hs st)) as (a & Hrun & _).
    unfold bind at 1. rewrite Hrun.
    destruct (IH (snd (m st))) as (found & st' & Hrest & Hport).
    rewrite Hk in Hport.
    destruct a as [x|]; [destruct (truthy x)|]; eauto.
    exists (Some x), (snd (m st)). split; [reflexivity|apply Hk].
Qed.

Lemma strategies_steady (dev : Device) :
  Forall (fun m => settles m /\ keepsPort m)
    [identifyByUSBInfo; identifyByCommandResponse dev;
     identifyByBehavior dev].
Proof.
  repeat constructor;
    auto using settles_identifyByUSBInfo, keepsPort_identifyByUSBInfo,
      settles_identifyByBehavior, keepsPort_identifyByBehavior;
    unfold identifyByCommandResponse;
    auto using settles_probeCommands, keepsPort_probeCommands.
Qed.

Lemma fallbackIdentification_run (st : State) (p : SerialPort) :
  port st = Some p ->
  exists label,
    fallbackIdentification st = (Returns label, st) /\
    (fallbackKnows (getInfo p) = false -> label = str "generic").
Proof.
  intros Hp. unfold fallbackIdentification, thisPort, bind, get, fallbackKnows.
  rewrite Hp. unfold ret.
  destruct (strictEqNum (usbVendorId (getInfo p)) 9025);
    [eexists; split; [reflexivity|discriminate]|].
  destruct (strictEqNum (usbVendorId (getInfo p)) 6790);
    [eexists; split; [reflexivity|discriminate]|].
  destruct (strictEqNum (usbVendorId (getInfo p)) 4292);
    [eexists; split; [reflexivity|discriminate]|].
  eexists; split; reflexivity.
Qed.

Lemma unknown_vendor_guess (info : PortInfo) :
  fallbackKnows info = false ->
  guessFromInfo info = str "generic" /\ matchedKey info = None.
Proof.
  unfold fallbackKnows. intros H.
  apply orb_false_iff in H. destruct H as [H H3].
  apply orb_false_iff in H. destruct H as [H1 H2].
  split.
  - unfold guessFromInfo. rewrite H1, H2, H3. reflexivity.
  - rewrite matchedKey_cases, H1, H2, H3. reflexivity.
Qed.

Lemma bind_run {A B} (m : M A) (k : A -> M B) (st st1 : State) (a : A) :
  m st = (Returns a, st1) -> bind m k st = k a st1.
Proof. intros H. unfold bind. rewrite H. reflexivity. Qed.

Lemma bind_throws {A B} (m : M A) (k : A -> M B) (st st1 : State)
  (e : JsError) :
  m st = (Throws e, st1) -> bind m k st = (Throws e, st1).
Proof. intros H. unfold bind. rewrite H. reflexivity. Qed.

Lemma tryCatch_returns {A} (m : M A) (h : JsError -> M A) (st st1 : State)
  (a : A) :
  m st = (Returns a, st1) -> tryCatch m h st = (Returns a, st1).
Proof. intros H. unfold tryCatch. rewrite H. reflexivity. Qed.

Lemma tryCatch_throws {A} (m : M A) (h : JsError -> M A) (st st1 : State)
  (e : JsError) :
  m st = (Throws e, st1) -> tryCatch m h st = h e st1.
Proof. intros H. unfold tryCatch. rewrite H. reflexivity. Qed.

(** With a vendor that no table knows and no probe answered as expected,
    the loop over the strategies ends with nothing or with the
    behavioural guess, which is then [generic]. *)
Lemma tryMethods_unknown_vendor (dev : Device) (st st' : State)
  (p : SerialPort) (found : option jsstring) :
  port st = Some p ->
  fallbackKnows (getInfo p) = false ->
  fst (identifyByCommandResponse dev st) = Returns None ->
  tryMethods
    [identifyByUSBInfo; identifyByCommandResponse dev;
     identifyByBehavior dev] st = (Returns found, st') ->
  found = None \/ found = Some (str "generic").
Proof.
  intros Hp Hunk Hcmd H.
  destruct (unknown_vendor_guess _ Hunk) as [Hguess Hkey].
  cbn [tryMethods] in H.
  rewrite (bind_run _ _ st st None) in H.
  2:{ apply tryCatch_returns. rewrite (identifyByUSBInfo_run st p Hp), Hkey.
      destruct (_ && _); reflexivity. }
  destruct (identifyByCommandResponse dev st) as [r st2] eqn:E2.
  simpl in Hcmd. subst r.
  rewrite (bind_run _ _ st st2 None) in H
    by (apply tryCatch_returns; exact E2).
  assert (Hp2 : port st2 = Some p).
  { rewrite <- Hp. change st2 with (snd (@Returns (option jsstring) None, st2)).
    rewrite <- E2. apply keepsPort_probeCommands. }
  destruct (identifyByBehavior dev st2) as [[r|e|] st3] eqn:E3.
  - rewrite (identifyByBehavior_result dev st2 st3 p r Hp2 E3), Hguess in E3.
    rewrite (bind_run _ _ st2 st3 (Some (str "generic"))) in H
      by (apply tryCatch_returns; exact E3).
    cbn in H. unfold ret in H. right. injection H as <- _. reflexivity.
  - rewrite (bind_run _ _ st2 st3 None) in H
      by (rewrite (tryCatch_throws _ _ st2 st3 e E3); reflexivity).
    cbn in H. unfold ret in H. left. congruence.
  - unfold bind, tryCatch in H. rewrite E3 in H. discriminate.
Qed.

(** C1, for a detector that holds a port. Then [identifyModel]
    returns a string and never throws, whatever the board does
    (malformed answers, timeouts, rejected calls) at whatever strategy;
    and when the vendor id is one the fallback does not know and no
    command probe matched, that string is [generic]. *)
Theorem identifyModel_returns (dev : Device) (st : State) (p : SerialPort) :
  port st = Some p ->
  exists label st',
    identifyModel dev st = (Returns label, st') /\
    (fallbackKnows (getInfo p) = false ->
     fst (identifyByCommandResponse dev st) = Returns None ->
     label = str "generic").
Proof.
  intros Hp. unfold identifyModel.
  rewrite (bind_run _ _ st st st) by reflexivity. rewrite Hp.
  destruct (tryMethods_returns _ (strategies_steady dev) st)
    as (found & st1 & Hrun & Hport).
  destruct found as [m|].
  - exists m, st1. split.
    + apply tryCatch_returns. rewrite (bind_run _ _ _ _ _ Hrun). reflexivity.
    + intros Hunk Hcmd.
      destruct (tryMethods_unknown_vendor dev st st1 p _ Hp Hunk Hcmd Hrun);
        congruence.
  - destruct (fallbackIdentification_run st1 p) as (label & Hfb & Hgen);
      [congruence|].
    exists label, st1. split.
    + apply tryCatch_returns. rewrite (bind_run _ _ _ _ _ Hrun). exact Hfb.
    + intros Hunk _. auto.
Qed.

(** [identifyModel] on a board of an unknown vendor that answers no probe
    as expected. *)
Lemma identifyModel_returns_witness :
  exists label st',
    identifyModel emptyLineBoard
      (holding (portOf (Some 0x1234%Z) (Some 1%Z))) = (Returns label, st') /\
    (fallbackKnows (getInfo (portOf (Some 0x1234%Z) (Some 1%Z))) = false ->
     fst (identifyByCommandResponse emptyLineBoard
            (holding (portOf (Some 0x1234%Z) (Some 1%Z)))) = Returns None ->
     label = str "generic").
Proof.
  apply (identifyModel_returns emptyLineBoard
           (holding (portOf (Some 0x1234%Z) (Some 1%Z)))
           (portOf (Some 0x1234%Z) (Some 1%Z))).
  reflexivity.
Defined.

Example identifyModel_unknown_vendor :
  fst (identifyModel emptyLineBoard
         (holding (portOf (Some 0x1234%Z) (Some 1%Z)))) =
    Returns (str "generic") /\
  fst (identifyModel silentUno
         (holding (portOf (Some 0x2341%Z) (Some 0%Z)))) =
    Returns (str "uno").
Proof. split; reflexivity. Qed.

(** C1 does not hold on a detector that holds no port: the guard at
    the head of [identifyModel] throws. *)
Lemma identifyModel_throws_without_port :
  identifyModel silentUno initial = (Throws (Error "Port not open"), initial).
Proof. reflexivity. Qed.

(** ** Descriptor match: the strategy and the scan *)

Lemma quickIdentifyPort_model (p : SerialPort) :
  option_map model (quickIdentifyPort p) = matchedKey (getInfo p).
Proof.
  unfold quickIdentifyPort, matchedKey.
  destruct (firstMatch _ _) as [[key sig]|]; reflexivity.
Qed.

Lemma matchedKey_never_mega (info : PortInfo) :
  matchedKey info <> Some (str "mega").
Proof.
  rewrite matchedKey_cases.
  repeat match goal with
         | |- context [if ?b then _ else _] => destruct b
         end; discriminate.
Qed.

(** C5. A port that reports vendor 0x2341 and product 0x0043 is
    identified as [uno] by the descriptor match alone: [identifyByUSBInfo]
    returns it and leaves the detector, its history included, as it was,
    so nothing was read from or written to the port; and [identifyModel]
    returns [uno] from this first strategy, on every board, with the
    history as it was. *)
Theorem identifyByUSBInfo_uno (st : State) (p : SerialPort) :
  port st = Some p ->
  usbVendorId (getInfo p) = Some 0x2341%Z ->
  usbProductId (getInfo p) = Some 0x0043%Z ->
  identifyByUSBInfo st = (Returns (Some (str "uno")), st) /\
  since st (snd (identifyByUSBInfo st)) = [] /\
  forall dev, identifyModel dev st = (Returns (str "uno"), st).
Proof.
  intros Hp Hv Hpid.
  assert (Hrun : identifyByUSBInfo st = (Returns (Some (str "uno")), st)).
  { rewrite (identifyByUSBInfo_run st p Hp).
    rewrite matchedKey_cases, Hv, Hpid. reflexivity. }
  rewrite Hrun. split; [reflexivity|]. split.
  - apply since_app. simpl. symmetry. apply app_nil_r.
  - intros dev. unfold identifyModel.
    rewrite (bind_run _ _ st st st) by reflexivity. rewrite Hp.
    apply tryCatch_returns.
    rewrite (bind_run _ _ st st (Some (str "uno"))); [reflexivity|].
    cbn [tryMethods].
    rewrite (bind_run _ _ st st (Some (str "uno"))); [reflexivity|].
    apply tryCatch_returns. exact Hrun.
Qed.

Lemma identifyByUSBInfo_uno_witness :
  identifyByUSBInfo (holding (portOf (Some 0x2341%Z) (Some 0x0043%Z))) =
  (Returns (Some (str "uno")),
   holding (portOf (Some 0x2341%Z) (Some 0x0043%Z))) /\
  since (holding (portOf (Some 0x2341%Z) (Some 0x0043%Z)))
    (snd (identifyByUSBInfo
            (holding (portOf (Some 0x2341%Z) (Some 0x0043%Z))))) = [] /\
  forall dev,
    identifyModel dev (holding (portOf (Some 0x2341%Z) (Some 0x0043%Z))) =
    (Returns (str "uno"), holding (portOf (Some 0x2341%Z) (Some 0x0043%Z))).
Proof.
  apply (identifyByUSBInfo_uno
           (holding (portOf (Some 0x2341%Z) (Some 0x0043%Z)))
           (portOf (Some 0x2341%Z) (Some 0x0043%Z)));
    reflexivity.
Defined.

(** C9, with the guard of [identifyByUSBInfo]. The entries [NANO] and
    [MEGA] carry the same pair 0x2341 / 0x0010; a port that reports it is
    identified as [nano] by both descriptor loops, which never answer
    [mega]; and a port of vendor 0x2341 whose product id has no entry of
    its own reaches the wildcard [GENERIC] in [quickIdentifyPort] always,
    in [identifyByUSBInfo] when its product id is truthy: behind the
    guard [info.usbVendorId && info.usbProductId] a product id of 0, or
    none, gives [null]. *)
Theorem descriptor_match_nano_shadows_mega (st : State) :
  (exists nano mega,
     In (str "NANO", nano) arduinoSignatures /\
     In (str "MEGA", mega) arduinoSignatures /\
     vendor nano = 0x2341%Z /\ product nano = Some 0x0010%Z /\
     vendor mega = 0x2341%Z /\ product mega = Some 0x0010%Z) /\
  (forall p,
     usbVendorId (getInfo p) = Some 0x2341%Z ->
     usbProductId (getInfo p) = Some 0x0010%Z ->
     identifyByUSBInfo (setPort (Some p) st) =
       (Returns (Some (str "nano")), setPort (Some p) st) /\
     option_map model (quickIdentifyPort p) = Some (str "nano")) /\
  (forall p,
     fst (identifyByUSBInfo (setPort (Some p) st)) <>
       Returns (Some (str "mega")) /\
     option_map model (quickIdentifyPort p) <> Some (str "mega")) /\
  (forall p,
     usbVendorId (getInfo p) = Some 0x2341%Z ->
     specificProduct (usbProductId (getInfo p)) = false ->
     option_map model (quickIdentifyPort p) = Some (str "generic") /\
     identifyByUSBInfo (setPort (Some p) st) =
       (Returns (if truthyNum (usbProductId (getInfo p))
                 then Some (str "generic") else None),
        setPort (Some p) st)).
Proof.
  split; [|split; [|split]].
  - do 2 eexists. split; [|split].
    + unfold arduinoSignatures. do 2 right. left. reflexivity.
    + unfold arduinoSignatures. do 4 right. left. reflexivity.
    + repeat split.
  - intros p Hv Hp. split.
    + rewrite (identifyByUSBInfo_run _ p) by reflexivity.
      rewrite matchedKey_cases, Hv, Hp. reflexivity.
    + rewrite quickIdentifyPort_model, matchedKey_cases, Hv, Hp. reflexivity.
  - intros p. split.
    + rewrite (identifyByUSBInfo_run _ p) by reflexivity. simpl.
      destruct (_ && _); [|discriminate].
      intros H. injection H as H. revert H. apply matchedKey_never_mega.
    + rewrite quickIdentifyPort_model. apply matchedKey_never_mega.
  - intros p Hv Hspec.
    assert (Hkey : matchedKey (getInfo p) = Some (str "generic")).
    { rewrite matchedKey_cases, Hv. unfold specificProduct in Hspec.
      apply orb_false_iff in Hspec. destruct Hspec as [Hspec H4].
      apply orb_false_iff in Hspec. destruct Hspec as [Hspec H3].
      apply orb_false_iff in Hspec. destruct Hspec as [H1 H2].
      rewrite H1, H2, H3, H4. reflexivity. }
    split.
    + rewrite quickIdentifyPort_model. exact Hkey.
    + rewrite (identifyByUSBInfo_run _ p) by reflexivity.
      rewrite Hkey, Hv. reflexivity.
Qed.

(** C9 does not hold for [identifyByUSBInfo] on a port of vendor 0x2341
    with product id 0: no entry of its own, and yet not [generic] but
    [null], while [quickIdentifyPort] answers [generic]. *)
Lemma identifyByUSBInfo_product_zero_not_generic :
  specificProduct (Some 0%Z) = false /\
  identifyByUSBInfo (holding (portOf (Some 0x2341%Z) (Some 0%Z))) =
    (Returns None, holding (portOf (Some 0x2341%Z) (Some 0%Z))) /\
  option_map model (quickIdentifyPort (portOf (Some 0x2341%Z) (Some 0%Z))) =
    Some (str "generic").
Proof. repeat split. Qed.

(** ** Observers *)

(** A dispatch calls the observers one after the other, whether they
    throw or not, and returns. *)
Lemma forEachCallback_run (dev : Device) (args : Payload)
  (set : list Callback) :
  forall st,
    forEachCallback dev set args st =
    (Returns tt, recordAll (dispatch set args) st).
Proof.
  induction set as [|c set IH]; intros st; simpl.
  - reflexivity.
  - rewrite (bind_run _ _ st (record (EvCall c args) st) tt).
    + apply IH.
    + unfold tryCatch, io.
      destruct (resolves dev (history st) (EvCall c args)); reflexivity.
Qed.

Lemma dispatched_once (dev : Device) (args : Payload) (set : list Callback)
  (st : State) (c : Callback) :
  NoDup set -> In c set ->
  invocations c (since st (snd (forEachCallback dev set args st))) = 1.
Proof.
  intros Hnd Hin. rewrite forEachCallback_run. simpl.
  rewrite (since_app _ _ (dispatch set args)) by apply history_recordAll.
  apply invocations_dispatch_once; assumption.
Qed.

(** C8. In every dispatch (connection, disconnection, status change),
    whichever observers throw, the dispatch returns and every registered
    observer is called exactly once, in the order of registration. *)
Theorem observers_isolated (dev : Device) (st : State) :
  wellFormed st ->
  (forall label,
     notifyConnection dev label st =
       (Returns tt,
        recordAll
          (dispatch (connectionCallbacks st) (OnConnect label (port st))) st)
     /\
     forall c, In c (connectionCallbacks st) ->
       invocations c (since st (snd (notifyConnection dev label st))) = 1) /\
  (notifyDisconnection dev st =
     (Returns tt,
      recordAll (dispatch (disconnectionCallbacks st) OnDisconnect) st) /\
   forall c, In c (disconnectionCallbacks st) ->
     invocations c (since st (snd (notifyDisconnection dev st))) = 1) /\
  (forall status,
     notifyStatus dev status st =
       (Returns tt,
        recordAll (dispatch (statusCallbacks st) (OnStatus status)) st) /\
     forall c, In c (statusCallbacks st) ->
       invocations c (since st (snd (notifyStatus dev status st))) = 1).
Proof.
  intros (Hc & Hd & Hs). repeat split; intros.
  - unfold notifyConnection. rewrite (bind_run _ _ st st st) by reflexivity.
    apply forEachCallback_run.
  - unfold notifyConnection. rewrite (bind_run _ _ st st st) by reflexivity.
    apply dispatched_once; assumption.
  - unfold notifyDisconnection.
    rewrite (bind_run _ _ st st st) by reflexivity.
    apply forEachCallback_run.
  - unfold notifyDisconnection.
    rewrite (bind_run _ _ st st st) by reflexivity.
    apply dispatched_once; assumption.
  - unfold notifyStatus. rewrite (bind_run _ _ st st st) by reflexivity.
    apply forEachCallback_run.
  - unfold notifyStatus. rewrite (bind_run _ _ st st st) by reflexivity.
    apply dispatched_once; assumption.
Qed.

Lemma threeObservers_wellFormed : wellFormed threeObservers.
Proof.
  repeat split; simpl; repeat constructor; simpl; intuition discriminate.
Qed.

(** A dispatch in which observer 2 throws: 1 and 3 are called all the
    same. *)
Lemma observers_isolated_witness :
  (forall label,
     notifyConnection busyPort label threeObservers =
       (Returns tt,
        recordAll
          (dispatch (connectionCallbacks threeObservers)
             (OnConnect label (port threeObservers))) threeObservers)
     /\
     forall c, In c (connectionCallbacks threeObservers) ->
       invocations c
         (since threeObservers
            (snd (notifyConnection busyPort label threeObservers))) = 1) /\
  (notifyDisconnection busyPort threeObservers =
     (Returns tt,
      recordAll (dispatch (disconnectionCallbacks threeObservers)
                   OnDisconnect) threeObservers) /\
   forall c, In c (disconnectionCallbacks threeObservers) ->
     invocations c
       (since threeObservers
          (snd (notifyDisconnection busyPort threeObservers))) = 1) /\
  (forall status,
     notifyStatus busyPort status threeObservers =
       (Returns tt,
        recordAll (dispatch (statusCallbacks threeObservers)
                     (OnStatus status)) threeObservers) /\
     forall c, In c (statusCallbacks threeObservers) ->
       invocations c
         (since threeObservers
            (snd (notifyStatus busyPort status threeObservers))) = 1).
Proof.
  apply (observers_isolated busyPort threeObservers).
  repeat split; simpl; repeat constructor; simpl; intuition discriminate.
Defined.

Example observer_two_throws :
  resolves busyPort [EvCall 1 OnDisconnect] (EvCall 2 OnDisconnect) = false /\
  notifyDisconnection busyPort threeObservers =
    (Returns tt,
     recordAll
       [EvCall 1 OnDisconnect; EvCall 2 OnDisconnect; EvCall 3 OnDisconnect]
       threeObservers).
Proof. split; reflexivity. Qed.

(** ** Upload *)

(** C6. [uploadCode] on a detector that is not connected throws
    [No Arduino connected] at once and leaves the detector as it was: no
    field changes and the history gets no event, so nothing is written to
    the port. *)
Theorem uploadCode_not_connected (dev : Device) (code : Utf16.string16)
  (options : Utf16.UploadOptions) (st : State) :
  isConnected st = false ->
  uploadCode dev code options st =
    (Throws (Error "No Arduino connected"), st) /\
  written (since st (snd (uploadCode dev code options st))) = [].
Proof.
  intros H.
  assert (Hrun : uploadCode dev code options st =
                 (Throws (Error "No Arduino connected"), st)).
  { unfold uploadCode. rewrite (bind_run _ _ st st st) by reflexivity.
    rewrite H. reflexivity. }
  split; [exact Hrun|].
  rewrite Hrun. simpl.
  rewrite (since_app st st []); [reflexivity|].
  symmetry. apply app_nil_r.
Qed.

Lemma uploadCode_not_connected_witness :
  uploadCode silentUno (Utf16.units (str "digitalWrite(13, HIGH);"))
    Utf16.noOptions initial =
    (Throws (Error "No Arduino connected"), initial) /\
  written
    (since initial
       (snd (uploadCode silentUno
               (Utf16.units (str "digitalWrite(13, HIGH);"))
               Utf16.noOptions initial))) = [].
Proof.
  apply (uploadCode_not_connected silentUno
           (Utf16.units (str "digitalWrite(13, HIGH);")) Utf16.noOptions
           initial).
  reflexivity.
Defined.

(** C3. The bytes that [uploadCode] writes are not always the bytes of
    the wrapped source. [chunkString] cuts the wrapped source every 64
    code units and [sendCodeChunked] encodes each chunk on its own: a
    surrogate pair that a cut separates goes out as U+FFFD twice. On the
    connected Uno the upload of [emojiSketch] returns [true]; the wrapped
    source has 175 code units and 177 bytes in UTF-8, 179 bytes are
    written, and where the
    wrapped source has the four bytes F0 9F 98 80 of U+1F600, after 127
    bytes, the port gets EF BF BD EF BF BD. *)
Theorem upload_cuts_surrogate_pair :
  fst (uploadCode silentUno emojiSketch Utf16.noOptions connectedUno) =
    Returns true /\
  concat
    (written
       (since connectedUno
          (snd (uploadCode silentUno emojiSketch Utf16.noOptions
                  connectedUno)))) <>
    Utf16.encode (Utf16.wrapCodeForUpload emojiSketch Utf16.noOptions) /\
  (exists before rest,
     length before = 127 /\
     Utf16.encode (Utf16.wrapCodeForUpload emojiSketch Utf16.noOptions) =
       before ++ map Utf16.byte [0xF0; 0x9F; 0x98; 0x80]%Z ++ rest /\
     concat
       (written
          (since connectedUno
             (snd (uploadCode silentUno emojiSketch Utf16.noOptions
                     connectedUno)))) =
       before ++
       map Utf16.byte [0xEF; 0xBF; 0xBD; 0xEF; 0xBF; 0xBD]%Z ++ rest) /\
  length (Utf16.wrapCodeForUpload emojiSketch Utf16.noOptions) = 175 /\
  length
    (Utf16.encode (Utf16.wrapCodeForUpload emojiSketch Utf16.noOptions)) =
    177 /\
  length
    (concat
       (written
          (since connectedUno
             (snd (uploadCode silentUno emojiSketch Utf16.noOptions
                     connectedUno))))) = 179.
Proof.
  split; [vm_compute; reflexivity|]. split; [|split].
  - intros H. apply (f_equal (@length ascii)) in H. vm_compute in H.
    discriminate H.
  - exists (firstn 127
              (Utf16.encode
                 (Utf16.wrapCodeForUpload emojiSketch Utf16.noOptions))),
      (skipn 131
         (Utf16.encode
            (Utf16.wrapCodeForUpload emojiSketch Utf16.noOptions))).
    split; [vm_compute; reflexivity|].
    split; vm_compute; reflexivity.
  - repeat split; vm_compute; reflexivity.
Qed.

(** ** Baud rate detection *)

Lemma tryBaudRates_probed (dev : Device) (rates : list Z) :
  forall st, exists found st',
    tryBaudRates dev rates st = (Returns found, st') /\
    Probed dev rates st found st'.
Proof.
  induction rates as [|baudRate rest IH]; intros st.
  - exists None, st. split; [reflexivity|constructor].
  - cbn [tryBaudRates].
    destruct (probeBaudRate dev baudRate st) as [[response|e|] st1] eqn:E.
    + exists (Some baudRate), st1. split.
      * rewrite (bind_run _ _ st st1 (Some baudRate)); [reflexivity|].
        apply tryCatch_returns. rewrite (bind_run _ _ _ _ _ E). reflexivity.
      * apply (ProbedHit dev baudRate rest st st1 response E).
    + destruct (IH st1) as (found & st' & Hrun & Hprobed).
      exists found, st'. split.
      * rewrite (bind_run _ _ st st1 None); [exact Hrun|].
        rewrite (tryCatch_throws _ _ st st1 e); [reflexivity|].
        apply bind_throws. exact E.
      * apply (ProbedMiss dev baudRate rest st st1 st' e found E Hprobed).
    + exfalso. apply (settles_probeBaudRate dev baudRate st).
      rewrite E. reflexivity.
Qed.

(** C4, with the test the method makes. [detectBaudRate] always
    returns, never throws: it probes 9600, 115200, 57600, 38400, 19200,
    14400 in this order, each probe closing the port, opening it at the
    rate and sending a line terminator, and returns the first rate whose
    probe does not throw (the response arrived before the 500 ms timer;
    it may be empty), or [null] when every probe throws. *)
Theorem detectBaudRate_first_probe_that_returns (dev : Device) (st : State) :
  commonBaudRates = [9600; 115200; 57600; 38400; 19200; 14400]%Z /\
  exists found st',
    detectBaudRate dev st = (Returns found, st') /\
    Probed dev commonBaudRates st found st'.
Proof.
  split; [reflexivity|]. apply tryBaudRates_probed.
Qed.

(** C4 with a non-empty response required does not hold. On a board
    whose stream ends without a byte at 9600 baud and that answers [ok]
    at 115200, the response at 9600 is empty, so the first rate with a
    non-empty response is 115200, and [detectBaudRate] returns 9600; the
    same on a board that answers a bare line terminator at 9600, which
    [readResponse] trims to the empty string. *)
Lemma detectBaudRate_accepts_empty_response :
  (chunksRead
     (incoming muteAt9600
        [EvClose; EvOpen 9600; EvGetWriter; EvWrite crlf; EvReleaseWriter;
         EvStartTimer 500; EvGetReader]) = [] /\
   fst (probeBaudRate muteAt9600 9600
          (holding (portOf (Some 0x1234%Z) (Some 1%Z)))) = Returns [] /\
   fst (detectBaudRate muteAt9600
          (holding (portOf (Some 0x1234%Z) (Some 1%Z)))) =
     Returns (Some 9600%Z) /\
   fst (detectBaudRate_claimed muteAt9600
          (holding (portOf (Some 0x1234%Z) (Some 1%Z)))) =
     Returns (Some 115200%Z)) /\
  (fst (probeBaudRate emptyLineBoard 9600
          (holding (portOf (Some 0x1234%Z) (Some 1%Z)))) = Returns [] /\
   fst (detectBaudRate emptyLineBoard
          (holding (portOf (Some 0x1234%Z) (Some 1%Z)))) =
     Returns (Some 9600%Z) /\
   fst (detectBaudRate_claimed emptyLineBoard
          (holding (portOf (Some 0x1234%Z) (Some 1%Z)))) =
     Returns (Some 115200%Z)).
Proof. repeat split. Qed.

(** ** Disconnection *)

Lemma history_locksReleased (st : State) :
  history (locksReleased st) = beforeClose st.
Proof.
  unfold locksReleased, beforeClose.
  destruct (reader st), (writer st) eqn:Hw; simpl; rewrite ?Hw; simpl;
    rewrite <- ?app_assoc, ?app_nil_r; reflexivity.
Qed.

Lemma locksReleased_fields (st : State) :
  reader (locksReleased st) = None /\
  writer (locksReleased st) = None /\
  port (locksReleased st) = port st /\
  disconnectionCallbacks (locksReleased st) = disconnectionCallbacks st.
Proof.
  unfold locksReleased.
  destruct (reader st) eqn:Hr, (writer st) eqn:Hw; simpl; rewrite ?Hw; simpl;
    auto.
Qed.

(** [disconnect], step by step. *)
Lemma disconnect_run (dev : Device) (st : State) :
  disconnect dev st =
  match port st with
  | None => notifyDisconnection dev (setIsConnected false (locksReleased st))
  | Some _ =>
      if resolves dev (beforeClose st) EvClose
      then notifyDisconnection dev
             (setIsConnected false
                (setPort None (record EvClose (locksReleased st))))
      else (Throws (Rejected EvClose), record EvClose (locksReleased st))
  end.
Proof.
  rewrite <- history_locksReleased.
  destruct (locksReleased_fields st) as (_ & _ & Hport & _).
  rewrite <- Hport. clear Hport.
  unfold disconnect, locksReleased, bind, get, emit, modify, ret, io.
  destruct (reader st) as [r|] eqn:Hr; cbn -[notifyDisconnection];
    destruct (writer st) as [w|] eqn:Hw; cbn -[notifyDisconnection];
    destruct (port st) as [p|] eqn:Hp; cbn -[notifyDisconnection];
    try reflexivity;
    match goal with
    | |- context [resolves dev ?h EvClose] =>
        destruct (resolves dev h EvClose); reflexivity
    end.
Qed.

Lemma recordAll_fields (events : list Event) :
  forall st,
    port (recordAll events st) = port st /\
    reader (recordAll events st) = reader st /\
    writer (recordAll events st) = writer st /\
    isConnected (recordAll events st) = isConnected st.
Proof.
  induction events as [|ev rest IH]; intros st; simpl; [auto|].
  destruct (IH (record ev st)) as (H1 & H2 & H3 & H4). auto.
Qed.

Lemma beforeClose_no_call (st : State) :
  exists released,
    beforeClose st = history st ++ released /\
    forall c, invocations c released = 0.
Proof.
  unfold beforeClose. eexists. split; [reflexivity|].
  intros c. destruct (reader st), (writer st); reflexivity.
Qed.

Lemma notifyDisconnection_run (dev : Device) (st : State) :
  notifyDisconnection dev st =
  (Returns tt,
   recordAll (dispatch (disconnectionCallbacks st) OnDisconnect) st).
Proof.
  unfold notifyDisconnection. rewrite (bind_run _ _ st st st) by reflexivity.
  apply forEachCallback_run.
Qed.

(** C10, when [port.close()] resolves. When the detector holds no
    port, or [port.close()] resolves, [disconnect] returns, leaves
    [port], [reader] and [writer] null and [isConnected] false, and calls
    every registered disconnection callback exactly once, also on a
    detector that was never connected. When [port.close()] rejects,
    [disconnect] throws that rejection: the port stays and no callback is
    called. *)
Theorem disconnect_clean (dev : Device) (st : State) :
  wellFormed st ->
  (port st = None \/ resolves dev (beforeClose st) EvClose = true ->
   exists st',
     disconnect dev st = (Returns tt, st') /\
     port st' = None /\ reader st' = None /\ writer st' = None /\
     isConnected st' = false /\
     forall c, In c (disconnectionCallbacks st) ->
       invocations c (since st st') = 1) /\
  (port st <> None -> resolves dev (beforeClose st) EvClose = false ->
   exists st',
     disconnect dev st = (Throws (Rejected EvClose), st') /\
     port st' = port st /\
     forall c, invocations c (since st st') = 0).
Proof.
  intros (_ & Hnd & _).
  destruct (locksReleased_fields st) as (Hr & Hw & Hp & Hcb).
  destruct (beforeClose_no_call st) as (released & Hbefore & Hnone).
  pose proof (history_locksReleased st) as Hh.
  rewrite disconnect_run. split.
  - intros Hok.
    assert (Hrun : exists st2 extra,
               (match port st with
                | None => notifyDisconnection dev
                            (setIsConnected false (locksReleased st))
                | Some _ =>
                    if resolves dev (beforeClose st) EvClose
                    then notifyDisconnection dev
                           (setIsConnected false
                              (setPort None
                                 (record EvClose (locksReleased st))))
                    else (Throws (Rejected EvClose),
                          record EvClose (locksReleased st))
                end) = notifyDisconnection dev st2 /\
               port st2 = None /\ reader st2 = None /\ writer st2 = None /\
               isConnected st2 = false /\
               disconnectionCallbacks st2 = disconnectionCallbacks st /\
               history st2 = history st ++ released ++ extra /\
               forall c, invocations c extra = 0).
    { destruct (port st) as [p|] eqn:Hport.
      - destruct Hok as [Hok|Hok]; [discriminate|]. rewrite Hok.
        eexists _, [EvClose]. split; [reflexivity|]. simpl.
        rewrite Hh, Hbefore, <- app_assoc. auto 10.
      - eexists _, []. split; [reflexivity|]. simpl.
        rewrite Hh, Hbefore, app_nil_r. rewrite Hp in *. auto 10. }
    destruct Hrun as (st2 & extra & -> & H1 & H2 & H3 & H4 & H5 & H6 & H7).
    rewrite notifyDisconnection_run. eexists. split; [reflexivity|].
    destruct (recordAll_fields
                (dispatch (disconnectionCallbacks st2) OnDisconnect) st2)
      as (G1 & G2 & G3 & G4).
    rewrite G1, G2, G3, G4. repeat split; auto.
    intros c Hin.
    rewrite (since_app st _
               (released ++ extra ++
                dispatch (disconnectionCallbacks st) OnDisconnect)).
    + rewrite !invocations_app, Hnone, H7. simpl.
      apply invocations_dispatch_once; assumption.
    + rewrite history_recordAll, H6, H5, <- !app_assoc. reflexivity.
  - intros Hport Hbad. destruct (port st) as [p|]; [|congruence].
    rewrite Hbad. eexists. split; [reflexivity|]. split; [exact Hp|].
    intros c. rewrite (since_app st _ (released ++ [EvClose])).
    + rewrite invocations_app, Hnone. reflexivity.
    + simpl. rewrite Hh, Hbefore, <- app_assoc. reflexivity.
Qed.

(** [disconnect] on a detector that never had a port. *)
Lemma disconnect_clean_witness :
  (port threeObservers = None \/
   resolves silentUno (beforeClose threeObservers) EvClose = true ->
   exists st',
     disconnect silentUno threeObservers = (Returns tt, st') /\
     port st' = None /\ reader st' = None /\ writer st' = None /\
     isConnected st' = false /\
     forall c, In c (disconnectionCallbacks threeObservers) ->
       invocations c (since threeObservers st') = 1) /\
  (port threeObservers <> None ->
   resolves silentUno (beforeClose threeObservers) EvClose = false ->
   exists st',
     disconnect silentUno threeObservers = (Throws (Rejected EvClose), st') /\
     port st' = port threeObservers /\
     forall c, invocations c (since threeObservers st') = 0).
Proof.
  apply (disconnect_clean silentUno threeObservers).
  repeat split; simpl; repeat constructor; simpl; intuition discriminate.
Defined.

Example disconnect_never_connected :
  disconnect silentUno threeObservers =
  (Returns tt,
   recordAll
     [EvCall 1 OnDisconnect; EvCall 2 OnDisconnect; EvCall 3 OnDisconnect]
     threeObservers).
Proof. reflexivity. Qed.

(** C10 does not hold after a failed [detectArduino]: the port was
    chosen but [open] was rejected, so [port.close()] rejects too;
    [disconnect] throws, the port stays in [this.port] and the registered
    observer 7 is not called. *)
Lemma disconnect_throws_when_close_rejects :
  disconnectionCallbacks afterFailedOpen = [7] /\
  port afterFailedOpen = Some (portOf (Some 0x2341%Z) (Some 0x0043%Z)) /\
  history afterFailedOpen = [EvRequestPort; EvOpen 9600] /\
  fst (disconnect busyPort afterFailedOpen) = Throws (Rejected EvClose) /\
  port (snd (disconnect busyPort afterFailedOpen)) =
    Some (portOf (Some 0x2341%Z) (Some 0x0043%Z)) /\
  invocations 7 (history (snd (disconnect busyPort afterFailedOpen))) = 0.
Proof. repeat split. Qed.

(** * More of the detector and the monitor *)

(** ** Chunk sizes *)

Lemma chunkLoop_sizes {A} (fuel : nat) :
  forall (s : list A) (c i : nat) (acc : list (list A)),
    0 < c -> length s - i <= fuel ->
    exists chunks,
      chunkLoop fuel s c i acc = Some (acc ++ chunks) /\
      length chunks = (length s - i + c - 1) / c /\
      fullButLast c chunks.
Proof.
  induction fuel as [|fuel IH]; intros s c i acc Hc Hfuel; simpl.
  - destruct (i <? length s) eqn:Hi.
    + apply Nat.ltb_lt in Hi. lia.
    + apply Nat.ltb_ge in Hi. exists []. rewrite app_nil_r.
      repeat split; auto. simpl.
      replace (length s - i + c - 1) with (c - 1) by lia.
      symmetry. apply Nat.div_small. lia.
  - destruct (i <? length s) eqn:Hi.
    + apply Nat.ltb_lt in Hi.
      destruct (IH s c (i + c) (acc ++ [substring s i (i + c)]) Hc)
        as (chunks & Hrun & Hlen & Hfull); [lia|].
      exists (substring s i (i + c) :: chunks).
      rewrite Hrun, <- app_assoc. simpl. split; [reflexivity|].
      assert (Hsub : length (substring s i (i + c)) =
                     Nat.min c (length s - i)).
      { rewrite substring_step by exact Hi.
        rewrite length_firstn, length_skipn. reflexivity. }
      destruct (Nat.le_gt_cases (length s - i) c) as [Hlast|Hmore].
      * (* the last chunk *)
        replace (length s - (i + c) + c - 1) with (c - 1) in Hlen by lia.
        rewrite Nat.div_small in Hlen by lia.
        destruct chunks; [|discriminate Hlen]. split.
        -- simpl. apply (Nat.div_unique _ _ 1 (length s - i - 1)); lia.
        -- simpl. lia.
      * split.
        -- rewrite Hlen.
           replace (length s - i + c - 1)
             with (length s - (i + c) + c - 1 + 1 * c) by lia.
           rewrite Nat.div_add by lia. lia.
        -- assert (Hpos : 0 < length chunks).
           { rewrite Hlen.
             apply Nat.div_str_pos. lia. }
           destruct chunks as [|chunk rest]; [simpl in Hpos; lia|].
           split; [lia|exact Hfull].
    + apply Nat.ltb_ge in Hi. exists []. rewrite app_nil_r.
      repeat split; auto. simpl.
      replace (length s - i + c - 1) with (c - 1) by lia.
      symmetry. apply Nat.div_small. lia.
Qed.

(** X1. [chunkString(str, n)] with [n >= 1] ends and cuts [str] into
    ceil(length / n) chunks: every chunk has exactly [n] units except the
    last, which has between 1 and [n]; the empty string gives no chunk.
    This holds whatever the code units are. *)
Theorem chunkString_sizes {A} (s : list A) (c : nat) :
  0 < c ->
  exists chunks,
    chunkString s c = Some chunks /\
    length chunks = (length s + c - 1) / c /\
    fullButLast c chunks.
Proof.
  intros Hc. unfold chunkString.
  destruct (chunkLoop_sizes (length s) s c 0 [] Hc) as (chunks & H1 & H2 & H3);
    [lia|].
  exists chunks. simpl in H1. rewrite Nat.sub_0_r in H2. auto.
Qed.

Lemma chunkString_sizes_witness :
  exists chunks,
    chunkString (str "void setup(){} void loop(){}") 8 = Some chunks /\
    length chunks = (length (str "void setup(){} void loop(){}") + 8 - 1) / 8 /\
    fullButLast 8 chunks.
Proof.
  apply (chunkString_sizes (str "void setup(){} void loop(){}") 8).
  lia.
Defined.

Lemma chunkLoop_zero_size {A} (fuel : nat) :
  forall (s : list A) (i : nat) (acc : list (list A)),
    i < length s -> chunkLoop fuel s 0 i acc = None.
Proof.
  induction fuel as [|fuel IH]; intros s i acc Hi; simpl;
    apply Nat.ltb_lt in Hi as Hb; rewrite Hb; [reflexivity|].
  rewrite Nat.add_0_r. apply IH. exact Hi.
Qed.

(** X2. With a chunk size of 0 the loop of [chunkString] never ends on a
    string that is not empty: whatever the number of iterations allowed,
    it has not returned; on the empty string it returns no chunk for
    every chunk size. *)
Theorem chunkString_zero_size_never_ends {A} (c : A) (rest : list A) :
  (forall fuel, chunkLoop fuel (c :: rest) 0 0 [] = None) /\
  chunkString (c :: rest) 0 = None /\
  forall size, chunkString (@nil A) size = Some [].
Proof.
  repeat split.
  - intros fuel. apply chunkLoop_zero_size. simpl. lia.
  - apply chunkLoop_zero_size. simpl. lia.
Qed.

(** ** Reading a response *)

Lemma readLoop_spec (chunks : list jsstring) :
  forall response,
    match readLoop response chunks with
    | (Some r, r') =>
        r' = r /\
        exists k,
          k < length chunks /\
          r = response ++ concat (firstn (S k) chunks) /\
          complete r = true /\
          forall j, 0 < j <= k ->
            complete (response ++ concat (firstn j chunks)) = false
    | (None, r') =>
        r' = response ++ concat chunks /\
        forall j, 0 < j <= length chunks ->
          complete (response ++ concat (firstn j chunks)) = false
    end.
Proof.
  induction chunks as [|value rest IH]; intros response; simpl.
  - split; [symmetry; apply app_nil_r|]. intros j Hj. lia.
  - fold (complete (response ++ value)).
    destruct (complete (response ++ value)) eqn:Hc.
    + split; [reflexivity|]. exists 0. simpl. rewrite app_nil_r.
      repeat split; auto; try lia.
    + specialize (IH (response ++ value)).
      destruct (readLoop (response ++ value) rest) as [[r|] r'].
      * destruct IH as (-> & k & Hk & Hr & Hcr & Hbefore).
        split; [reflexivity|]. exists (S k).
        rewrite <- app_assoc in Hr. repeat split; auto; try lia.
        intros j Hj. destruct j as [|j]; [lia|].
        destruct j as [|j].
        -- simpl. rewrite app_nil_r. exact Hc.
        -- specialize (Hbefore (S j)). simpl in *.
           rewrite <- app_assoc in Hbefore. apply Hbefore. lia.
      * destruct IH as (-> & Hbefore).
        split; [rewrite <- app_assoc; reflexivity|].
        intros j Hj. destruct j as [|j]; [lia|].
        destruct j as [|j].
        -- simpl. rewrite app_nil_r. exact Hc.
        -- specialize (Hbefore (S j)). simpl in *.
           rewrite <- app_assoc in Hbefore. apply Hbefore. lia.
Qed.

(** X3. The loop of [readResponse] stops at the first chunk with which
    the text read so far holds a line feed or is longer than 1024: the
    response is the concatenation of the chunks up to that one, whole
    (what follows the line feed in that chunk included), no shorter
    prefix of chunks was complete, and later chunks are not read. When no
    prefix is complete, all chunks are read and the loop goes on. *)
Theorem readLoop_stops_at_first_complete (chunks : list jsstring) :
  match readLoop [] chunks with
  | (Some r, _) =>
      exists k,
        k < length chunks /\
        r = concat (firstn (S k) chunks) /\
        complete r = true /\
        forall j, 0 < j <= k -> complete (concat (firstn j chunks)) = false
  | (None, r) =>
      r = concat chunks /\
      forall j, 0 < j <= length chunks ->
        complete (concat (firstn j chunks)) = false
  end.
Proof.
  pose proof (readLoop_spec chunks []) as H.
  destruct (readLoop [] chunks) as [[r|] r']; simpl in H.
  - destruct H as (_ & k & H). exists k. exact H.
  - exact H.
Qed.

Example readLoop_keeps_the_rest_of_the_chunk :
  readLoop [] [str "re"; str "ady" ++ nl ++ str ">"; str "late"] =
  (Some (str "ready" ++ nl ++ str ">"), str "ready" ++ nl ++ str ">").
Proof. reflexivity. Qed.

(** ** Trimming *)

Lemma trimStart_head (s : jsstring) :
  match trimStart s with
  | [] => True
  | c :: _ => isWhiteSpace c = false
  end.
Proof.
  induction s as [|c s IH]; simpl; [exact I|].
  destruct (isWhiteSpace c) eqn:Hc; [exact IH|exact Hc].
Qed.

Lemma trimStart_fixed (c : ascii) (s : jsstring) :
  isWhiteSpace c = false -> trimStart (c :: s) = c :: s.
Proof. intros H. simpl. rewrite H. reflexivity. Qed.

Lemma trimStart_keeps_end (s : jsstring) (c : ascii) :
  isWhiteSpace c = false ->
  exists s', trimStart (s ++ [c]) = s' ++ [c].
Proof.
  intros Hc. induction s as [|d s IH]; simpl.
  - rewrite Hc. exists []. reflexivity.
  - destruct (isWhiteSpace d); [exact IH|].
    exists (d :: s). reflexivity.
Qed.

Lemma last_rev_cons (s : jsstring) (c d : ascii) :
  last (rev (c :: s)) d = c.
Proof. simpl. apply last_last. Qed.

(** [trim] leaves no white space at either end. *)
Lemma trim_trimmed (s : jsstring) : trimmed (trim s).
Proof.
  unfold trim, trimEnd.
  pose proof (trimStart_head s) as Hhead.
  destruct (trimStart s) as [|c t] eqn:Hs; [exact I|].
  (* [c :: t] starts with [c], not white space *)
  change (rev (c :: t)) with (rev t ++ [c]).
  destruct (trimStart_keeps_end (rev t) c Hhead) as (u & Hu).
  pose proof (trimStart_head (rev t ++ [c])) as Hlast.
  rewrite Hu in Hlast. rewrite Hu, rev_app_distr.
  destruct u as [|e u].
  - simpl. split; exact Hhead.
  - replace (rev [c] ++ rev (e :: u)) with ((c :: rev u) ++ [e])
      by reflexivity.
    unfold trimmed. cbn [app]. split; [exact Hhead|].
    change (c :: rev u ++ [e]) with ((c :: rev u) ++ [e]).
    rewrite last_last. exact Hlast.
Qed.

Lemma trimmed_fixed (s : jsstring) : trimmed s -> trim s = s.
Proof.
  destruct s as [|c s]; [reflexivity|]. intros [Hc Hl].
  unfold trim, trimEnd. rewrite (trimStart_fixed c s Hc).
  destruct (exists_last (l := c :: s)) as (body & e & Heq); [discriminate|].
  rewrite Heq in Hl |- *. rewrite last_last in Hl.
  rewrite rev_app_distr. simpl. rewrite Hl. simpl.
  rewrite rev_involutive. reflexivity.
Qed.

(** ** What the methods keep, return and cost *)

Section Keeps.

Variable R : State -> State -> Prop.
Hypothesis R_refl : forall st, R st st.
Hypothesis R_trans : forall a b c, R a b -> R b c -> R a c.

Lemma keeps_ret {A} (a : A) : keeps R (ret a).
Proof. intros st. apply R_refl. Qed.

Lemma keeps_throw {A} (e : JsError) : keeps R (@throw A e).
Proof. intros st. apply R_refl. Qed.

Lemma keeps_get : keeps R get.
Proof. intros st. apply R_refl. Qed.

Lemma keeps_terminating {A} (r : option A) : keeps R (terminating r).
Proof. intros st. destruct r; apply R_refl. Qed.

Lemma keeps_bind {A B} (m : M A) (k : A -> M B) :
  keeps R m -> (forall a, keeps R (k a)) -> keeps R (bind m k).
Proof.
  intros Hm Hk st. unfold bind. specialize (Hm st).
  destruct (m st) as [[a|e|] st']; simpl in *; try assumption.
  apply (R_trans _ _ _ Hm). apply Hk.
Qed.

Lemma keeps_tryCatch {A} (m : M A) (h : JsError -> M A) :
  keeps R m -> (forall e, keeps R (h e)) -> keeps R (tryCatch m h).
Proof.
  intros Hm Hh st. unfold tryCatch. specialize (Hm st).
  destruct (m st) as [[a|e|] st']; simpl in *; try assumption.
  apply (R_trans _ _ _ Hm). apply Hh.
Qed.

Lemma keeps_tryFinally {A} (m : M A) (cleanup : M unit) :
  keeps R m -> keeps R cleanup -> keeps R (tryFinally m cleanup).
Proof.
  intros Hm Hc st. unfold tryFinally. specialize (Hm st).
  destruct (m st) as [[a|e|] st']; simpl in *; try assumption.
  - apply (R_trans _ _ _ Hm).
    apply keeps_bind; [exact Hc|intros; apply keeps_ret].
  - apply (R_trans _ _ _ Hm).
    apply keeps_bind; [exact Hc|intros; apply keeps_throw].
Qed.

Lemma keeps_beforeTimer {A} (m : M A) :
  keeps R m -> keeps R (beforeTimer m).
Proof.
  intros Hm st. unfold beforeTimer. specialize (Hm st).
  destruct (m st) as [[a|e|] st']; exact Hm.
Qed.

End Keeps.

Lemma sameSession_refl (st : State) : sameSession st st.
Proof. repeat split. Qed.

Lemma sameSession_trans (a b c : State) :
  sameSession a b -> sameSession b c -> sameSession a c.
Proof.
  unfold sameSession. intros (H1 & H2 & H3 & H4 & H5 & H6)
    (G1 & G2 & G3 & G4 & G5 & G6).
  repeat split; congruence.
Qed.

Lemma session_emit (ev : Event) : keeps sameSession (emit ev).
Proof. intros st. repeat split. Qed.

Lemma session_io (dev : Device) (ev : Event) : keeps sameSession (io dev ev).
Proof.
  intros st. unfold io.
  destruct (resolves dev (history st) ev); repeat split.
Qed.

Lemma session_setReader (v : option Handle) :
  keeps sameSession (modify (setReader v)).
Proof. intros st. repeat split. Qed.

Lemma session_setWriter (v : option Handle) :
  keeps sameSession (modify (setWriter v)).
Proof. intros st. repeat split. Qed.

#[local] Hint Resolve session_emit session_io session_setReader
  session_setWriter : js.

(** Splits a method into its steps for [keeps sameSession]. *)
Ltac step_session :=
  repeat first
    [ match goal with |- forall _, _ => intro end
    | solve [auto with js]
    | match goal with
      | |- keeps _ (ret _) => apply (keeps_ret sameSession sameSession_refl)
      | |- keeps _ (throw _) =>
          apply (keeps_throw sameSession sameSession_refl)
      | |- keeps _ get => apply (keeps_get sameSession sameSession_refl)
      | |- keeps _ (terminating _) =>
          apply (keeps_terminating sameSession sameSession_refl)
      | |- keeps _ (bind _ _) =>
          apply (keeps_bind sameSession sameSession_trans)
      | |- keeps _ (tryCatch _ _) =>
          apply (keeps_tryCatch sameSession sameSession_trans)
      | |- keeps _ (tryFinally _ _) =>
          apply (keeps_tryFinally sameSession sameSession_refl
                   sameSession_trans)
      | |- keeps _ (beforeTimer _) => apply (keeps_beforeTimer sameSession)
      | |- keeps _ (let _ := _ in _) => cbv zeta
      | |- keeps _ (match ?x with _ => _ end) => destruct x
      | |- keeps _ (if ?x then _ else _) => destruct x
      end ].

Lemma session_readResponse (dev : Device) :
  keeps sameSession (readResponse dev).
Proof.
  unfold readResponse. step_session.
  intros st. destruct (readLoop [] _) as [[r|] r'];
    [|destruct (streamEnd _)]; apply sameSession_refl.
Qed.

#[local] Hint Resolve session_readResponse : js.

Lemma session_sendCommand (dev : Device) (command : jsstring) (t : Z) :
  keeps sameSession (sendCommand dev command t).
Proof. unfold sendCommand. step_session. Qed.

#[local] Hint Resolve session_sendCommand : js.

Lemma session_probeCommands (dev : Device) cmds :
  keeps sameSession (probeCommands dev cmds).
Proof.
  induction cmds as [|[[command expected] timeout] rest IH]; simpl;
    step_session.
Qed.

Lemma session_probeBaudRate (dev : Device) (baudRate : Z) :
  keeps sameSession (probeBaudRate dev baudRate).
Proof. unfold probeBaudRate, thisPort, openPort. step_session. Qed.

#[local] Hint Resolve session_probeCommands session_probeBaudRate : js.

Lemma session_tryBaudRates (dev : Device) (rates : list Z) :
  keeps sameSession (tryBaudRates dev rates).
Proof. induction rates as [|b rest IH]; simpl; step_session. Qed.

#[local] Hint Resolve session_tryBaudRates : js.

Lemma session_tryMethods (methods : list (M (option jsstring))) :
  Forall (keeps sameSession) methods ->
  keeps sameSession (tryMethods methods).
Proof.
  induction 1 as [|m rest Hm _ IH]; simpl; step_session.
Qed.

Lemma session_identifyModel (dev : Device) :
  keeps sameSession (identifyModel dev).
Proof.
  unfold identifyModel. step_session.
  - apply session_tryMethods.
    apply Forall_cons; [|apply Forall_cons; [|apply Forall_cons;
      [|apply Forall_nil]]].
    + unfold identifyByUSBInfo, thisPort. step_session.
    + unfold identifyByCommandResponse. step_session.
    + unfold identifyByBehavior, detectBaudRate, behavioralGuess, thisPort.
      step_session.
  - unfold fallbackIdentification, thisPort. step_session.
Qed.

Lemma session_writeChunks (dev : Device) (chunks : list Utf16.string16) :
  keeps sameSession (writeChunks dev chunks).
Proof. induction chunks as [|chunk rest IH]; simpl; step_session. Qed.

#[local] Hint Resolve session_identifyModel session_writeChunks : js.

Lemma session_uploadCode (dev : Device) (code : Utf16.string16)
  (options : Utf16.UploadOptions) :
  keeps sameSession (uploadCode dev code options).
Proof.
  unfold uploadCode, sendCodeChunked, thisPort. step_session.
Qed.

Lemma yields_ret {A} (a : A) (P : A -> Prop) : P a -> yields (ret a) P.
Proof. intros H st b st' E. injection E as <- _. exact H. Qed.

Lemma yields_throw {A} (e : JsError) (P : A -> Prop) : yields (throw e) P.
Proof. intros st b st' E. discriminate E. Qed.

Lemma yields_bind {A B} (m : M A) (k : A -> M B) (P : B -> Prop) :
  (forall a, yields (k a) P) -> yields (bind m k) P.
Proof.
  intros Hk st b st' E. apply bind_returns_inv in E.
  destruct E as (a & st1 & _ & E). exact (Hk a st1 b st' E).
Qed.

Lemma yields_tryCatch {A} (m : M A) (h : JsError -> M A) (P : A -> Prop) :
  yields m P -> (forall e, yields (h e) P) -> yields (tryCatch m h) P.
Proof.
  intros Hm Hh st a st' E. unfold tryCatch in E.
  destruct (m st) as [[x|e|] st1] eqn:Em.
  - injection E as <- <-. exact (Hm st x st1 Em).
  - exact (Hh e st1 a st' E).
  - discriminate E.
Qed.

Lemma yields_tryFinally {A} (m : M A) (cleanup : M unit) (P : A -> Prop) :
  yields m P -> yields (tryFinally m cleanup) P.
Proof.
  intros Hm st a st' E. unfold tryFinally in E.
  destruct (m st) as [[x|e|] st1] eqn:Em.
  - apply bind_returns_inv in E. destruct E as (u & st2 & _ & E).
    injection E as <- _. exact (Hm st x st1 Em).
  - apply bind_returns_inv in E. destruct E as (u & st2 & _ & E).
    discriminate E.
  - discriminate E.
Qed.

Lemma yields_beforeTimer {A} (m : M A) (P : A -> Prop) :
  yields m P -> yields (beforeTimer m) P.
Proof.
  intros Hm st a st' E. unfold beforeTimer in E.
  destruct (m st) as [[x|e|] st1] eqn:Em; try discriminate E.
  injection E as <- <-. exact (Hm st x st1 Em).
Qed.

(** Splits a method into its steps for [yields]. *)
Ltac step_yields :=
  repeat first
    [ match goal with |- forall _, _ => intro end
    | match goal with
      | |- yields (ret _) _ => apply yields_ret
      | |- yields (throw _) _ => apply yields_throw
      | |- yields (bind _ _) _ => apply yields_bind
      | |- yields (tryCatch _ _) _ => apply yields_tryCatch
      | |- yields (tryFinally _ _) _ => apply yields_tryFinally
      | |- yields (beforeTimer _) _ => apply yields_beforeTimer
      | |- yields (let _ := _ in _) _ => cbv zeta
      | |- yields (match ?x with _ => _ end) _ => destruct x
      | |- yields (if ?x then _ else _) _ => destruct x
      end ].

Lemma readResponse_trimmed (dev : Device) :
  yields (readResponse dev) trimmed.
Proof. unfold readResponse. step_yields. apply trim_trimmed. Qed.

(** X4. Every response that [sendCommand] resolves with is trimmed: it
    has no white space at its start or its end (it may be empty), and
    trimming it again changes nothing. *)
Theorem sendCommand_response_trimmed (dev : Device) (command : jsstring)
  (timeout : Z) (st : State) :
  match fst (sendCommand dev command timeout st) with
  | Returns response => trimmed response /\ trim response = response
  | _ => True
  end.
Proof.
  destruct (sendCommand dev command timeout st) as [[r|e|] st'] eqn:E;
    simpl; auto.
  assert (H : trimmed r).
  { revert E. generalize st r st'. change (yields (sendCommand dev command
      timeout) trimmed).
    unfold sendCommand. step_yields. apply readResponse_trimmed. }
  split; [exact H|apply trimmed_fixed; exact H].
Qed.

Example sendCommand_trims_the_line :
  fst (sendCommand emptyLineBoard crlf 500
         (snd (openPort emptyLineBoard 115200
                 (holding (portOf (Some 0x1234%Z) (Some 1%Z)))))) =
  Returns (str "ok").
Proof. reflexivity. Qed.

Lemma yields_bind_with {A B} (m : M A) (k : A -> M B) (Q : A -> Prop)
  (P : B -> Prop) :
  yields m Q -> (forall a, Q a -> yields (k a) P) -> yields (bind m k) P.
Proof.
  intros Hm Hk st b st' E. apply bind_returns_inv in E.
  destruct E as (a & st1 & Ea & E).
  exact (Hk a (Hm st a st1 Ea) st1 b st' E).
Qed.

(** ** The labels of [identifyModel] *)

Lemma mapResponseToModel_label (response : jsstring) :
  In (mapResponseToModel response) modelLabels.
Proof.
  unfold mapResponseToModel.
  repeat match goal with
         | |- context [if ?b then _ else _] => destruct b
         end; simpl; tauto.
Qed.

Lemma matchedKey_label (info : PortInfo) : labelled (matchedKey info).
Proof.
  intros label. rewrite matchedKey_cases.
  repeat match goal with
         | |- context [if ?b then _ else _] => destruct b
         end; intros H; try discriminate H; injection H as <-; simpl; tauto.
Qed.

Lemma guessFromInfo_label (info : PortInfo) :
  In (guessFromInfo info) modelLabels.
Proof.
  unfold guessFromInfo.
  repeat match goal with
         | |- context [if ?b then _ else _] => destruct b
         end; simpl; tauto.
Qed.

Lemma identifyByUSBInfo_labelled : yields identifyByUSBInfo labelled.
Proof.
  intros st found st' E.
  destruct (port st) as [p|] eqn:Hp.
  - rewrite (identifyByUSBInfo_run st p Hp) in E. injection E as <- _.
    destruct (_ && _); [apply matchedKey_label|discriminate].
  - unfold identifyByUSBInfo, thisPort, bind, get in E. rewrite Hp in E.
    discriminate E.
Qed.

Lemma probeCommands_labelled (dev : Device) cmds :
  yields (probeCommands dev cmds) labelled.
Proof.
  induction cmds as [|[[command expected] timeout] rest IH]; simpl.
  - apply yields_ret. discriminate.
  - apply (yields_bind_with _ _ labelled).
    + step_yields; try discriminate.
      intros label H. injection H as <-. apply mapResponseToModel_label.
    + intros [m|] Hm; [apply yields_ret; exact Hm|exact IH].
Qed.

Lemma identifyByBehavior_labelled (dev : Device) :
  yields (identifyByBehavior dev) labelled.
Proof.
  unfold identifyByBehavior.
  apply yields_bind. intros _. apply yields_bind. intros _.
  apply (yields_bind_with _ _ (fun guess => In guess modelLabels)).
  - unfold behavioralGuess, thisPort. step_yields. apply guessFromInfo_label.
  - intros guess Hin. apply yields_ret. intros label H.
    injection H as <-. exact Hin.
Qed.

Lemma tryMethods_labelled (methods : list (M (option jsstring))) :
  Forall (fun m => yields m labelled) methods ->
  yields (tryMethods methods) labelled.
Proof.
  induction 1 as [|m rest Hm _ IH]; simpl.
  - apply yields_ret. discriminate.
  - apply (yields_bind_with _ _ labelled).
    + apply yields_tryCatch; [exact Hm|]. intros e. apply yields_ret.
      discriminate.
    + intros [x|] Hx; [|exact IH].
      destruct (truthy x); [apply yields_ret; exact Hx|exact IH].
Qed.

Lemma fallbackIdentification_label :
  yields fallbackIdentification (fun label => In label modelLabels).
Proof.
  unfold fallbackIdentification, thisPort. step_yields; simpl; tauto.
Qed.

(** [identifyModel] on a detector with a port: it returns, and what it
    returns comes from a strategy or from the fallback. *)
Lemma identifyModel_with_port (dev : Device) (st : State) (p : SerialPort) :
  port st = Some p ->
  exists label st',
    identifyModel dev st = (Returns label, st') /\
    In label modelLabels /\
    sameSession st st'.
Proof.
  intros Hp.
  destruct (tryMethods_returns _ (strategies_steady dev) st)
    as (found & st1 & Hrun & Hport).
  assert (Hlab : labelled found).
  { apply (tryMethods_labelled
             [identifyByUSBInfo; identifyByCommandResponse dev;
              identifyByBehavior dev]) with (st := st) (st' := st1);
      [|exact Hrun].
    apply Forall_cons; [apply identifyByUSBInfo_labelled|].
    apply Forall_cons; [apply probeCommands_labelled|].
    apply Forall_cons; [apply identifyByBehavior_labelled|].
    apply Forall_nil. }
  assert (Hrunning : exists label st',
             identifyModel dev st = (Returns label, st') /\
             In label modelLabels).
  { unfold identifyModel.
    rewrite (bind_run _ _ st st st) by reflexivity. rewrite Hp.
    destruct found as [m|].
    - exists m, st1. split; [|apply Hlab; reflexivity].
      apply tryCatch_returns. rewrite (bind_run _ _ _ _ _ Hrun). reflexivity.
    - destruct (fallbackIdentification_run st1 p) as (label & Hfb & _);
        [congruence|].
      exists label, st1. split.
      + apply tryCatch_returns. rewrite (bind_run _ _ _ _ _ Hrun). exact Hfb.
      + exact (fallbackIdentification_label st1 label st1 Hfb). }
  destruct Hrunning as (label & st' & Hid & Hin).
  exists label, st'. repeat split; auto;
    change st' with (snd (Returns label, st')); rewrite <- Hid;
    apply session_identifyModel.
Qed.

(** X5. On a detector with a port, [identifyModel] returns one of the
    eight labels uno, nano, nano_clone, mega, mega2560, leonardo, esp32,
    generic, whatever the board answers: never [uno_r3], never the
    [unknown] of its catch clause; and it leaves the port held, the flags
    and the observer sets as they were. *)
Theorem identifyModel_labels (dev : Device) (st : State) (p : SerialPort) :
  port st = Some p ->
  exists label st',
    identifyModel dev st = (Returns label, st') /\
    In label modelLabels /\
    label <> str "unknown" /\ label <> str "uno_r3" /\
    sameSession st st'.
Proof.
  intros Hp.
  destruct (identifyModel_with_port dev st p Hp)
    as (label & st' & Hrun & Hin & Hsame).
  exists label, st'. repeat split; try apply Hsame; auto;
    intros ->; simpl in Hin; intuition discriminate.
Qed.

Lemma identifyModel_labels_witness :
  exists label st',
    identifyModel silentUno (holding (portOf (Some 0x2341%Z) (Some 0%Z))) =
      (Returns label, st') /\
    In label modelLabels /\
    label <> str "unknown" /\ label <> str "uno_r3" /\
    sameSession (holding (portOf (Some 0x2341%Z) (Some 0%Z))) st'.
Proof.
  apply (identifyModel_labels silentUno
           (holding (portOf (Some 0x2341%Z) (Some 0%Z)))
           (portOf (Some 0x2341%Z) (Some 0%Z))).
  reflexivity.
Defined.

Lemma label_truthy (label : jsstring) :
  In label modelLabels -> truthy label = true.
Proof.
  simpl. intros H.
  repeat (destruct H as [<-|H]; [reflexivity|]). contradiction.
Qed.

(** X6. The first strategy wins without touching the port: whenever
    [identifyByUSBInfo] finds a model, [identifyModel] returns that model
    on every board and leaves the detector, its history included, as it
    was. *)
Theorem identifyModel_descriptor_first (dev : Device) (st st0 : State)
  (key : jsstring) :
  identifyByUSBInfo st = (Returns (Some key), st0) ->
  identifyModel dev st = (Returns key, st) /\
  since st (snd (identifyModel dev st)) = [].
Proof.
  intros Hinfo.
  assert (Hkey : In key modelLabels).
  { apply (identifyByUSBInfo_labelled st (Some key) st0 Hinfo). reflexivity. }
  destruct (port st) as [p|] eqn:Hp.
  2:{ unfold identifyByUSBInfo, thisPort, bind, get in Hinfo.
      rewrite Hp in Hinfo. discriminate Hinfo. }
  assert (Hst : st0 = st).
  { rewrite (identifyByUSBInfo_run st p Hp) in Hinfo. congruence. }
  subst st0.
  assert (Hrun : identifyModel dev st = (Returns key, st)).
  { unfold identifyModel.
    rewrite (bind_run _ _ st st st) by reflexivity. rewrite Hp.
    apply tryCatch_returns.
    rewrite (bind_run _ _ st st (Some key)); [reflexivity|].
    cbn [tryMethods].
    rewrite (bind_run _ _ st st (Some key)).
    - rewrite (label_truthy key Hkey). reflexivity.
    - apply tryCatch_returns. exact Hinfo. }
  rewrite Hrun. split; [reflexivity|].
  apply since_app. simpl. symmetry. apply app_nil_r.
Qed.

Lemma identifyModel_descriptor_first_witness :
  identifyModel busyPort (holding (portOf (Some 0x10C4%Z) (Some 0xEA60%Z))) =
    (Returns (str "esp32"),
     holding (portOf (Some 0x10C4%Z) (Some 0xEA60%Z))) /\
  since (holding (portOf (Some 0x10C4%Z) (Some 0xEA60%Z)))
    (snd (identifyModel busyPort
            (holding (portOf (Some 0x10C4%Z) (Some 0xEA60%Z))))) = [].
Proof.
  apply (identifyModel_descriptor_first busyPort
           (holding (portOf (Some 0x10C4%Z) (Some 0xEA60%Z)))
           (holding (portOf (Some 0x10C4%Z) (Some 0xEA60%Z)))
           (str "esp32")).
  reflexivity.
Defined.

(** ** Responses and models *)

Lemma startsWith_map (f : ascii -> ascii) (t : jsstring) :
  forall s, startsWith s t = true -> startsWith (map f s) (map f t) = true.
Proof.
  induction t as [|c t IH]; intros [|d s] H; simpl in *;
    try reflexivity; try discriminate.
  apply andb_true_iff in H. destruct H as [Hc Ht].
  apply Ascii.eqb_eq in Hc. subst d.
  rewrite Ascii.eqb_refl. simpl. apply IH. exact Ht.
Qed.

Lemma includes_map (f : ascii -> ascii) (t : jsstring) :
  forall s, includes s t = true -> includes (map f s) (map f t) = true.
Proof.
  induction s as [|d s IH]; intros H.
  - simpl in H. rewrite orb_false_r in H.
    apply (startsWith_map f) in H. simpl in *. rewrite H. reflexivity.
  - simpl in H. apply orb_true_iff in H. destruct H as [H|H].
    + apply includes_here. apply (startsWith_map f) in H. exact H.
    + change (map f (d :: s)) with ([f d] ++ map f s).
      apply includes_app_r. apply IH. exact H.
Qed.

(** X7. [mapResponseToModel] ignores letter case and gives [esp32]
    priority: a response that holds ESP32 in any mix of upper and lower
    case maps to [esp32], whatever other board names it holds before or
    after it. *)
Theorem mapResponseToModel_esp32 (response spelling : jsstring) :
  toLowerCase spelling = str "esp32" ->
  includes response spelling = true ->
  mapResponseToModel response = str "esp32".
Proof.
  intros Hs Hin.
  unfold mapResponseToModel.
  apply (includes_map lowerUnit) in Hin.
  fold (toLowerCase response) in Hin. fold (toLowerCase spelling) in Hin.
  rewrite Hs in Hin. rewrite Hin. reflexivity.
Qed.

Lemma mapResponseToModel_esp32_witness :
  mapResponseToModel (str "Arduino UNO bridge for Esp32-WROOM") =
    str "esp32".
Proof.
  apply (mapResponseToModel_esp32
           (str "Arduino UNO bridge for Esp32-WROOM") (str "Esp32"));
    reflexivity.
Defined.

(** X8. The command probe stops at the first answer that holds what it
    expects: when the answer to [AT+GMR] holds ESP32, the strategy
    returns [esp32] in the state that this one command left, so [ATI] and
    the bare line terminator are not sent. *)
Theorem identifyByCommandResponse_esp32 (dev : Device) (st st' : State)
  (response : jsstring) :
  sendCommand dev (str "AT+GMR" ++ crlf) 1000 st = (Returns response, st') ->
  includes response (str "ESP32") = true ->
  identifyByCommandResponse dev st = (Returns (Some (str "esp32")), st').
Proof.
  intros Hsend Hin.
  assert (Htruthy : truthy response = true)
    by (destruct response; [discriminate Hin|reflexivity]).
  assert (Hmodel : mapResponseToModel response = str "esp32").
  { unfold mapResponseToModel.
    pose proof (includes_map lowerUnit _ _ Hin) as Hlow.
    fold (toLowerCase response) in Hlow.
    change (map lowerUnit (str "ESP32")) with (str "esp32") in Hlow.
    rewrite Hlow. reflexivity. }
  unfold identifyByCommandResponse, commands. cbn [probeCommands].
  rewrite (bind_run _ _ st st' (Some (str "esp32"))); [reflexivity|].
  apply tryCatch_returns.
  rewrite (bind_run _ _ st st' response Hsend).
  rewrite Htruthy, Hin, Hmodel. reflexivity.
Qed.

Lemma identifyByCommandResponse_esp32_witness :
  identifyByCommandResponse esp32Adapter
    (holding (portOf (Some 0x0403%Z) (Some 0x6001%Z))) =
  (Returns (Some (str "esp32")),
   snd (sendCommand esp32Adapter (str "AT+GMR" ++ crlf) 1000
          (holding (portOf (Some 0x0403%Z) (Some 0x6001%Z))))).
Proof.
  apply (identifyByCommandResponse_esp32 esp32Adapter
           (holding (portOf (Some 0x0403%Z) (Some 0x6001%Z))) _
           (str "AT version:1.7.4 (ESP32)"));
    reflexivity.
Defined.

(** ** Methods that call no observer *)

Lemma quiet_refl (st : State) : quiet st st.
Proof. exists []. split; [symmetry; apply app_nil_r|reflexivity]. Qed.

Lemma quiet_trans (a b c : State) : quiet a b -> quiet b c -> quiet a c.
Proof.
  intros (e1 & H1 & Q1) (e2 & H2 & Q2). exists (e1 ++ e2). split.
  - rewrite H2, H1, app_assoc. reflexivity.
  - intros x. rewrite invocations_app, Q1, Q2. reflexivity.
Qed.

Lemma quiet_record (ev : Event) (st : State) :
  (forall c, invocations c [ev] = 0) -> quiet st (record ev st).
Proof. intros H. exists [ev]. split; [reflexivity|exact H]. Qed.

Lemma quiet_emit (ev : Event) :
  (forall c, invocations c [ev] = 0) -> keeps quiet (emit ev).
Proof. intros H st. apply quiet_record. exact H. Qed.

Lemma quiet_io (dev : Device) (ev : Event) :
  (forall c, invocations c [ev] = 0) -> keeps quiet (io dev ev).
Proof.
  intros H st. unfold io.
  destruct (resolves dev (history st) ev); apply quiet_record; exact H.
Qed.

Lemma quiet_setReader (v : option Handle) :
  keeps quiet (modify (setReader v)).
Proof.
  intros st. exists []. split; [simpl; symmetry; apply app_nil_r|reflexivity].
Qed.

Lemma quiet_setWriter (v : option Handle) :
  keeps quiet (modify (setWriter v)).
Proof.
  intros st. exists []. split; [simpl; symmetry; apply app_nil_r|reflexivity].
Qed.

#[local] Hint Resolve quiet_setReader quiet_setWriter : js.
#[local] Hint Extern 1 (keeps quiet (emit _)) =>
  apply quiet_emit; intro; reflexivity : js.
#[local] Hint Extern 1 (keeps quiet (io _ _)) =>
  apply quiet_io; intro; reflexivity : js.

(** Splits a method into its steps for [keeps quiet]. *)
Ltac step_quiet :=
  repeat first
    [ match goal with |- forall _, _ => intro end
    | solve [auto with js]
    | match goal with
      | |- keeps _ (ret _) => apply (keeps_ret quiet quiet_refl)
      | |- keeps _ (throw _) => apply (keeps_throw quiet quiet_refl)
      | |- keeps _ get => apply (keeps_get quiet quiet_refl)
      | |- keeps _ (terminating _) =>
          apply (keeps_terminating quiet quiet_refl)
      | |- keeps _ (bind _ _) => apply (keeps_bind quiet quiet_trans)
      | |- keeps _ (tryCatch _ _) =>
          apply (keeps_tryCatch quiet quiet_trans)
      | |- keeps _ (tryFinally _ _) =>
          apply (keeps_tryFinally quiet quiet_refl quiet_trans)
      | |- keeps _ (beforeTimer _) => apply (keeps_beforeTimer quiet)
      | |- keeps _ (let _ := _ in _) => cbv zeta
      | |- keeps _ (match ?x with _ => _ end) => destruct x
      | |- keeps _ (if ?x then _ else _) => destruct x
      end ].

Lemma quiet_readResponse (dev : Device) : keeps quiet (readResponse dev).
Proof.
  unfold readResponse. step_quiet.
  intros st. destruct (readLoop [] _) as [[r|] r'];
    [|destruct (streamEnd _)]; apply quiet_refl.
Qed.

#[local] Hint Resolve quiet_readResponse : js.

Lemma quiet_sendCommand (dev : Device) (command : jsstring) (t : Z) :
  keeps quiet (sendCommand dev command t).
Proof. unfold sendCommand. step_quiet. Qed.

#[local] Hint Resolve quiet_sendCommand : js.

Lemma quiet_probeCommands (dev : Device) cmds :
  keeps quiet (probeCommands dev cmds).
Proof.
  induction cmds as [|[[command expected] timeout] rest IH]; simpl;
    step_quiet.
Qed.

Lemma quiet_probeBaudRate (dev : Device) (baudRate : Z) :
  keeps quiet (probeBaudRate dev baudRate).
Proof. unfold probeBaudRate, thisPort, openPort. step_quiet. Qed.

#[local] Hint Resolve quiet_probeCommands quiet_probeBaudRate : js.

Lemma quiet_tryBaudRates (dev : Device) (rates : list Z) :
  keeps quiet (tryBaudRates dev rates).
Proof. induction rates as [|b rest IH]; simpl; step_quiet. Qed.

#[local] Hint Resolve quiet_tryBaudRates : js.

Lemma quiet_tryMethods (methods : list (M (option jsstring))) :
  Forall (keeps quiet) methods -> keeps quiet (tryMethods methods).
Proof.
  induction 1 as [|m rest Hm _ IH]; simpl; step_quiet.
Qed.

Lemma quiet_identifyModel (dev : Device) : keeps quiet (identifyModel dev).
Proof.
  unfold identifyModel. step_quiet.
  - apply quiet_tryMethods.
    apply Forall_cons; [|apply Forall_cons; [|apply Forall_cons;
      [|apply Forall_nil]]].
    + unfold identifyByUSBInfo, thisPort. step_quiet.
    + unfold identifyByCommandResponse. step_quiet.
    + unfold identifyByBehavior, detectBaudRate, behavioralGuess, thisPort.
      step_quiet.
  - unfold fallbackIdentification, thisPort. step_quiet.
Qed.

Lemma quiet_writeChunks (dev : Device) (chunks : list Utf16.string16) :
  keeps quiet (writeChunks dev chunks).
Proof. induction chunks as [|chunk rest IH]; simpl; step_quiet. Qed.

#[local] Hint Resolve quiet_identifyModel quiet_writeChunks : js.

Lemma quiet_uploadCode (dev : Device) (code : Utf16.string16)
  (options : Utf16.UploadOptions) :
  keeps quiet (uploadCode dev code options).
Proof. unfold uploadCode, sendCodeChunked, thisPort. step_quiet. Qed.

(** ** Connecting *)

Lemma notifyConnection_run (dev : Device) (label : jsstring) (st : State) :
  notifyConnection dev label st =
  (Returns tt,
   recordAll
     (dispatch (connectionCallbacks st) (OnConnect label (port st))) st).
Proof.
  unfold notifyConnection. rewrite (bind_run _ _ st st st) by reflexivity.
  apply forEachCallback_run.
Qed.

Lemma detectArduino_granted (dev : Device) (st : State) (p : SerialPort) :
  serialSupported dev = true ->
  grantedPort dev (history st) = Some p ->
  resolves dev (history st ++ [EvRequestPort]) (EvOpen 9600) = true ->
  detectArduino dev st =
  (let (r, st3) :=
     identifyModel dev
       (record (EvOpen 9600) (setPort (Some p) (record EvRequestPort st))) in
   match r with
   | Returns label =>
       (Returns label,
        recordAll
          (dispatch (connectionCallbacks st3) (OnConnect label (port st3)))
          (setIsConnected true st3))
   | Throws e => (Throws e, setIsConnected false st3)
   | Pending => (Pending, st3)
   end).
Proof.
  intros Hs Hg Ho.
  unfold detectArduino, isSupported. rewrite Hs. cbn [negb].
  unfold tryCatch, bind, get, emit, modify, openPort, io, throw, ret.
  cbn -[identifyModel notifyConnection]. rewrite Hg.
  cbn -[identifyModel notifyConnection]. rewrite Ho.
  destruct (identifyModel dev _) as [[label|e|] st3]; try reflexivity.
  rewrite notifyConnection_run. reflexivity.
Qed.

Lemma recordAll_observers (events : list Event) :
  forall st,
    connectionCallbacks (recordAll events st) = connectionCallbacks st /\
    disconnectionCallbacks (recordAll events st) =
      disconnectionCallbacks st /\
    statusCallbacks (recordAll events st) = statusCallbacks st /\
    isScanning (recordAll events st) = isScanning st.
Proof.
  induction events as [|ev rest IH]; intros st; simpl; [auto|].
  destruct (IH (record ev st)) as (H1 & H2 & H3 & H4). auto.
Qed.

(** X9. [detectArduino] succeeds exactly when the browser has the serial
    API, the user grants a port and [open] at 9600 baud resolves; nothing
    after that can make it fail. Without the API it throws before
    anything happens (the detector is untouched); when no port is granted
    or [open] rejects it throws with [isConnected] false, and after a
    rejected [open] the port that was chosen stays in [this.port]. On
    success it returns one of the model labels, holds the granted port,
    is connected, and has called every connection observer exactly once,
    with that label and that port, after the identification. *)
Theorem detectArduino_outcome (dev : Device) (st : State) :
  (serialSupported dev = false ->
   detectArduino dev st =
     (Throws (Error
        "Web Serial API not supported in this browser. Use Chrome, Edge, or Opera."),
      st)) /\
  (serialSupported dev = true ->
   match grantedPort dev (history st) with
   | None =>
       detectArduino dev st =
         (Throws (Rejected EvRequestPort),
          setIsConnected false (record EvRequestPort st))
   | Some p =>
       if resolves dev (history st ++ [EvRequestPort]) (EvOpen 9600) then
         exists label st' before,
           detectArduino dev st = (Returns label, st') /\
           In label modelLabels /\
           port st' = Some p /\ isConnected st' = true /\
           since st st' =
             before ++
             dispatch (connectionCallbacks st) (OnConnect label (Some p)) /\
           forall c, invocations c before = 0
       else
         detectArduino dev st =
           (Throws (Rejected (EvOpen 9600)),
            setIsConnected false
              (record (EvOpen 9600)
                 (setPort (Some p) (record EvRequestPort st))))
   end).
Proof.
  split.
  - intros Hs. unfold detectArduino, isSupported. rewrite Hs. reflexivity.
  - intros Hs.
    destruct (grantedPort dev (history st)) as [p|] eqn:Hg.
    + destruct (resolves dev (history st ++ [EvRequestPort]) (EvOpen 9600))
        eqn:Ho.
      * rewrite (detectArduino_granted dev st p Hs Hg Ho).
        set (st2 := record (EvOpen 9600)
                      (setPort (Some p) (record EvRequestPort st))).
        destruct (identifyModel_with_port dev st2 p eq_refl)
          as (label & st3 & Hid & Hlabel & Hsame).
        pose proof (quiet_identifyModel dev st2) as Hquiet.
        rewrite Hid in *. simpl in Hquiet.
        destruct Hquiet as (events & Hhist & Hnone).
        destruct Hsame as (Hport & _ & _ & Hcc & _).
        simpl in Hport, Hcc. rewrite Hport, Hcc.
        set (calls := dispatch (connectionCallbacks st)
                        (OnConnect label (Some p))).
        destruct (recordAll_fields calls (setIsConnected true st3))
          as (F1 & _ & _ & F4).
        exists label, (recordAll calls (setIsConnected true st3)),
          ([EvRequestPort; EvOpen 9600] ++ events).
        repeat split; auto.
        -- rewrite F1. exact Hport.
        -- apply since_app. rewrite history_recordAll. simpl.
           rewrite Hhist. simpl. rewrite <- !app_assoc. reflexivity.
      * unfold detectArduino, isSupported. rewrite Hs. cbn [negb].
        unfold tryCatch, bind, get, emit, modify, openPort, io, throw, ret.
        cbn -[identifyModel notifyConnection]. rewrite Hg.
        cbn -[identifyModel notifyConnection]. rewrite Ho. reflexivity.
    + unfold detectArduino, isSupported. rewrite Hs. cbn [negb].
      unfold tryCatch, bind, get, emit, modify, openPort, io, throw, ret.
      cbn -[identifyModel notifyConnection]. rewrite Hg. reflexivity.
Qed.

Example detectArduino_on_a_silent_uno :
  fst (detectArduino silentUno threeObservers) = Returns (str "uno") /\
  since threeObservers (snd (detectArduino silentUno threeObservers)) =
    [EvRequestPort; EvOpen 9600] ++
    dispatch [1; 2; 3]
      (OnConnect (str "uno") (Some (portOf (Some 0x2341%Z) (Some 0x0043%Z)))).
Proof. split; reflexivity. Qed.

(** ** Invariants of the detector *)

Lemma sameObservers_refl (st : State) : sameObservers st st.
Proof. repeat split. Qed.

Lemma sameObservers_trans (a b c : State) :
  sameObservers a b -> sameObservers b c -> sameObservers a c.
Proof.
  unfold sameObservers. intros (H1 & H2 & H3) (G1 & G2 & G3).
  repeat split; congruence.
Qed.

Lemma session_observers {A} (m : M A) :
  keeps sameSession m -> keeps sameObservers m.
Proof.
  intros H st. destruct (H st) as (_ & _ & _ & H4 & H5 & H6).
  repeat split; assumption.
Qed.

Lemma observers_emit (ev : Event) : keeps sameObservers (emit ev).
Proof. intros st. repeat split. Qed.

Lemma observers_io (dev : Device) (ev : Event) :
  keeps sameObservers (io dev ev).
Proof.
  intros st. unfold io.
  destruct (resolves dev (history st) ev); repeat split.
Qed.

Lemma observers_setReader v : keeps sameObservers (modify (setReader v)).
Proof. intros st. repeat split. Qed.

Lemma observers_setWriter v : keeps sameObservers (modify (setWriter v)).
Proof. intros st. repeat split. Qed.

Lemma observers_setPort v : keeps sameObservers (modify (setPort v)).
Proof. intros st. repeat split. Qed.

Lemma observers_setIsConnected v :
  keeps sameObservers (modify (setIsConnected v)).
Proof. intros st. repeat split. Qed.

Lemma observers_identifyModel (dev : Device) :
  keeps sameObservers (identifyModel dev).
Proof. apply session_observers, session_identifyModel. Qed.

Lemma observers_forEachCallback (dev : Device) (args : Payload) set :
  keeps sameObservers (forEachCallback dev set args).
Proof.
  intros st. rewrite forEachCallback_run. simpl.
  destruct (recordAll_observers (dispatch set args) st) as (H1 & H2 & H3 & _).
  repeat split; assumption.
Qed.

#[local] Hint Resolve observers_emit observers_io observers_setReader
  observers_setWriter observers_setPort observers_setIsConnected
  observers_identifyModel observers_forEachCallback : js.

(** Splits a method into its steps for [keeps sameObservers]. *)
Ltac step_observers :=
  repeat first
    [ match goal with |- forall _, _ => intro end
    | solve [auto with js]
    | match goal with
      | |- keeps _ (ret _) =>
          apply (keeps_ret sameObservers sameObservers_refl)
      | |- keeps _ (throw _) =>
          apply (keeps_throw sameObservers sameObservers_refl)
      | |- keeps _ get => apply (keeps_get sameObservers sameObservers_refl)
      | |- keeps _ (bind _ _) =>
          apply (keeps_bind sameObservers sameObservers_trans)
      | |- keeps _ (tryCatch _ _) =>
          apply (keeps_tryCatch sameObservers sameObservers_trans)
      | |- keeps _ (match ?x with _ => _ end) => destruct x
      | |- keeps _ (if ?x then _ else _) => destruct x
      end ].

Lemma observers_detectArduino (dev : Device) :
  keeps sameObservers (detectArduino dev).
Proof.
  unfold detectArduino, openPort, notifyConnection. step_observers.
Qed.

Lemma observers_disconnect (dev : Device) :
  keeps sameObservers (disconnect dev).
Proof. unfold disconnect, notifyDisconnection. step_observers. Qed.

Lemma observers_notifyStatus (dev : Device) (status : Status) :
  keeps sameObservers (notifyStatus dev status).
Proof. unfold notifyStatus. step_observers. Qed.

Lemma setAdd_NoDup (callback : Callback) (set : list Callback) :
  NoDup set -> NoDup (setAdd callback set).
Proof.
  intros H. unfold setAdd.
  destruct (existsb (Nat.eqb callback) set) eqn:E; [exact H|].
  apply NoDup_app; [exact H|repeat constructor; intros []|].
  intros x Hx [Heq|[]]. subst x.
  assert (existsb (Nat.eqb callback) set = true); [|congruence].
  apply existsb_exists. exists callback.
  split; [exact Hx|apply Nat.eqb_refl].
Qed.

Lemma wellFormed_observers (st st' : State) :
  sameObservers st st' -> wellFormed st -> wellFormed st'.
Proof.
  unfold wellFormed. intros (H1 & H2 & H3) (G1 & G2 & G3).
  rewrite H1, H2, H3. auto.
Qed.

Lemma connectedHasPort_session (st st' : State) :
  sameSession st st' -> connectedHasPort st -> connectedHasPort st'.
Proof.
  unfold connectedHasPort. intros (H1 & H2 & _) H. rewrite H1, H2. exact H.
Qed.

Lemma session_checkDeviceHealth (dev : Device) :
  keeps sameSession (checkDeviceHealth dev).
Proof. unfold checkDeviceHealth. step_session. Qed.

Lemma session_getDeviceCapabilities (dev : Device) :
  keeps sameSession (getDeviceCapabilities dev).
Proof. unfold getDeviceCapabilities. step_session. Qed.

Lemma session_notifyStatus (dev : Device) (status : Status) :
  keeps sameSession (notifyStatus dev status).
Proof.
  intros st. unfold notifyStatus.
  rewrite (bind_run _ _ st st st) by reflexivity.
  rewrite forEachCallback_run. simpl.
  destruct (recordAll_fields (dispatch (statusCallbacks st) (OnStatus status))
              st) as (F1 & _ & _ & F4).
  destruct (recordAll_observers
              (dispatch (statusCallbacks st) (OnStatus status)) st)
    as (O1 & O2 & O3 & O4).
  repeat split; assumption.
Qed.

Lemma connectedHasPort_detectArduino (dev : Device) (st : State) :
  connectedHasPort st -> connectedHasPort (snd (detectArduino dev st)).
Proof.
  intros Hinv.
  destruct (serialSupported dev) eqn:Hs.
  2:{ unfold detectArduino, isSupported. rewrite Hs. exact Hinv. }
  destruct (grantedPort dev (history st)) as [p|] eqn:Hg.
  2:{ unfold detectArduino, isSupported. rewrite Hs. cbn [negb].
      unfold tryCatch, bind, get, emit, modify, openPort, io, throw, ret.
      cbn -[identifyModel notifyConnection]. rewrite Hg.
      intros H. discriminate H. }
  destruct (resolves dev (history st ++ [EvRequestPort]) (EvOpen 9600))
    eqn:Ho.
  2:{ unfold detectArduino, isSupported. rewrite Hs. cbn [negb].
      unfold tryCatch, bind, get, emit, modify, openPort, io, throw, ret.
      cbn -[identifyModel notifyConnection]. rewrite Hg.
      cbn -[identifyModel notifyConnection]. rewrite Ho.
      intros H. discriminate H. }
  rewrite (detectArduino_granted dev st p Hs Hg Ho).
  set (st2 := record (EvOpen 9600)
                (setPort (Some p) (record EvRequestPort st))).
  destruct (identifyModel_with_port dev st2 p eq_refl)
    as (label & st3 & Hid & _ & Hsame).
  rewrite Hid. simpl. intros _.
  destruct (recordAll_fields
              (dispatch (connectionCallbacks st3)
                 (OnConnect label (port st3))) (setIsConnected true st3))
    as (F1 & _).
  rewrite F1. simpl. destruct Hsame as (Hport & _).
  rewrite Hport. discriminate.
Qed.

Lemma connectedHasPort_disconnect (dev : Device) (st : State) :
  connectedHasPort st -> connectedHasPort (snd (disconnect dev st)).
Proof.
  intros Hinv. rewrite disconnect_run.
  destruct (locksReleased_fields st) as (_ & _ & Hp & _).
  destruct (port st) as [p|] eqn:Hport.
  - destruct (resolves dev (beforeClose st) EvClose).
    + rewrite notifyDisconnection_run. simpl. intros H.
      destruct (recordAll_fields
                  (dispatch (disconnectionCallbacks (locksReleased st))
                     OnDisconnect)
                  (setIsConnected false
                     (setPort None (record EvClose (locksReleased st)))))
        as (_ & _ & _ & F4).
      simpl in F4. rewrite F4 in H. discriminate H.
    + unfold connectedHasPort. cbn [snd]. intros _.
      change (port (locksReleased st) <> None). rewrite Hp. discriminate.
  - rewrite notifyDisconnection_run. simpl. intros H.
    destruct (recordAll_fields
                (dispatch (disconnectionCallbacks (locksReleased st))
                   OnDisconnect)
                (setIsConnected false (locksReleased st)))
      as (_ & _ & _ & F4).
    simpl in F4. rewrite F4 in H. discriminate H.
Qed.

(** X10. In every state that calls of the detector and of the monitor
    lead to from a new detector (in any order, returning or throwing, on
    any board), a detector that says it is connected holds a port, and
    no observer is registered twice in any of the three observer sets. *)
Theorem reachable_invariants (dev : Device) (st : State) :
  Reachable dev st -> connectedHasPort st /\ wellFormed st.
Proof.
  induction 1 as [|st call Hreach [Hinv Hwf]].
  - split; [intros H; discriminate H|repeat split; constructor].
  - destruct call; cbn [after].
    + split; [apply connectedHasPort_detectArduino; exact Hinv|].
      apply (wellFormed_observers st); [apply observers_detectArduino|auto].
    + split; [apply connectedHasPort_disconnect; exact Hinv|].
      apply (wellFormed_observers st); [apply observers_disconnect|auto].
    + pose proof (session_uploadCode dev code options st) as Hs. split.
      * exact (connectedHasPort_session _ _ Hs Hinv).
      * apply (wellFormed_observers st); [|exact Hwf].
        exact (session_observers _ (session_uploadCode dev code options) st).
    + pose proof (session_identifyModel dev st) as Hs. split.
      * exact (connectedHasPort_session _ _ Hs Hinv).
      * apply (wellFormed_observers st); [|exact Hwf].
        exact (session_observers _ (session_identifyModel dev) st).
    + pose proof (session_sendCommand dev command timeout st) as Hs. split.
      * exact (connectedHasPort_session _ _ Hs Hinv).
      * apply (wellFormed_observers st); [|exact Hwf].
        exact (session_observers _ (session_sendCommand dev command timeout)
                 st).
    + split; [exact Hinv|]. destruct Hwf as (H1 & H2 & H3).
      repeat split; simpl; auto using setAdd_NoDup.
    + split; [exact Hinv|]. destruct Hwf as (H1 & H2 & H3).
      repeat split; simpl; auto using setAdd_NoDup.
    + split; [exact Hinv|]. destruct Hwf as (H1 & H2 & H3).
      repeat split; simpl; auto using setAdd_NoDup.
    + pose proof (session_notifyStatus dev status st) as Hs. split.
      * exact (connectedHasPort_session _ _ Hs Hinv).
      * apply (wellFormed_observers st); [|exact Hwf].
        exact (session_observers _ (session_notifyStatus dev status) st).
    + pose proof (session_checkDeviceHealth dev st) as Hs. split.
      * exact (connectedHasPort_session _ _ Hs Hinv).
      * apply (wellFormed_observers st); [|exact Hwf].
        exact (session_observers _ (session_checkDeviceHealth dev) st).
    + pose proof (session_getDeviceCapabilities dev st) as Hs. split.
      * exact (connectedHasPort_session _ _ Hs Hinv).
      * apply (wellFormed_observers st); [|exact Hwf].
        exact (session_observers _ (session_getDeviceCapabilities dev) st).
Qed.

Lemma reachable_invariants_witness :
  connectedHasPort connectedUno /\ wellFormed connectedUno.
Proof.
  apply (reachable_invariants silentUno connectedUno).
  unfold connectedUno.
  apply ReachableCall. apply ReachableCall. apply ReachableNew.
Defined.

(** ** Health and capabilities *)

(** X11. [checkDeviceHealth] never throws. On a detector that is not
    connected it answers disconnected / unknown without touching the
    port. On a connected one it does what [sendCommand] of [AT] with a
    timeout of 1000 ms does and answers connected / good with the
    response when that resolves, connected / unresponsive with the error
    when it rejects (timeout included); it settles when that
    [sendCommand] settles. *)
Theorem checkDeviceHealth_never_throws (dev : Device) (st : State) :
  (forall e, fst (checkDeviceHealth dev st) <> Throws e) /\
  (isConnected st = false ->
   checkDeviceHealth dev st =
     (Returns {| healthStatus := str "disconnected";
                 health := str "unknown";
                 healthResponse := None; healthError := None |}, st)) /\
  (isConnected st = true ->
   match sendCommand dev (str "AT" ++ crlf) 1000 st with
   | (Returns response, st') =>
       checkDeviceHealth dev st =
         (Returns {| healthStatus := str "connected"; health := str "good";
                     healthResponse := Some response;
                     healthError := None |}, st')
   | (Throws e, st') =>
       checkDeviceHealth dev st =
         (Returns {| healthStatus := str "connected";
                     health := str "unresponsive";
                     healthResponse := None; healthError := Some e |}, st')
   | (Pending, st') => checkDeviceHealth dev st = (Pending, st')
   end).
Proof.
  unfold checkDeviceHealth. rewrite (bind_run _ _ st st st) by reflexivity.
  destruct (isConnected st) eqn:Hc; cbn [negb].
  - unfold tryCatch, bind.
    destruct (sendCommand dev (str "AT" ++ crlf) 1000 st)
      as [[response|e|] st1]; simpl.
    + split; [discriminate|]. split; [discriminate|]. reflexivity.
    + split; [discriminate|]. split; [discriminate|]. reflexivity.
    + split; [discriminate|]. split; [discriminate|]. reflexivity.
  - split; [discriminate|]. split; [reflexivity|discriminate].
Qed.

(** The connected Uno does not answer [AT]: unresponsive, with the
    timeout as the error. *)
Example health_of_a_silent_uno :
  fst (checkDeviceHealth silentUno connectedUno) =
    Returns {| healthStatus := str "connected";
               health := str "unresponsive";
               healthResponse := None;
               healthError := Some (Error "Command timeout") |} /\
  fst (checkDeviceHealth silentUno initial) =
    Returns {| healthStatus := str "disconnected"; health := str "unknown";
               healthResponse := None; healthError := None |}.
Proof. split; reflexivity. Qed.

Lemma capabilitiesOf_labels (label : jsstring) :
  In label modelLabels ->
  exists items,
    capabilitiesOf label = Listed items /\
    (items = [str "basic_arduino"] <->
     In label [str "nano_clone"; str "mega2560"; str "generic"]).
Proof.
  simpl. intros H.
  repeat (destruct H as [<-|H];
          [eexists; split; [reflexivity|];
           split; intros G; simpl in *;
           try discriminate G; intuition discriminate|]).
  contradiction.
Qed.

(** X12. On a detector whose [isConnected] comes with a port,
    [getDeviceCapabilities] never throws and always answers with a list:
    the empty list, without touching the port, when not connected, and
    otherwise the entry of the identified model, or [basic_arduino] for
    the three labels that [identifyModel] can return and the table does
    not list (nano_clone, mega2560, generic); never a member inherited
    from [Object.prototype]. *)
Theorem getDeviceCapabilities_lists (dev : Device) (st : State) :
  connectedHasPort st ->
  (exists items st',
     getDeviceCapabilities dev st = (Returns (Listed items), st') /\
     (isConnected st = false -> items = [] /\ st' = st) /\
     (isConnected st = true ->
      exists label,
        identifyModel dev st = (Returns label, st') /\
        ownProperty label capabilities =
          (if existsb (sameString label)
                [str "nano_clone"; str "mega2560"; str "generic"]
           then None else Some items) /\
        (ownProperty label capabilities = None ->
         items = [str "basic_arduino"]))) /\
  forall label,
    In label modelLabels ->
    exists items,
      capabilitiesOf label = Listed items /\
      (items = [str "basic_arduino"] <->
       In label [str "nano_clone"; str "mega2560"; str "generic"]).
Proof.
  intros Hinv. split; [|exact capabilitiesOf_labels].
  unfold getDeviceCapabilities.
  rewrite (bind_run _ _ st st st) by reflexivity.
  destruct (isConnected st) eqn:Hc; cbn [negb].
  - destruct (port st) as [p|] eqn:Hp; [|exfalso; apply Hinv; auto].
    destruct (identifyModel_with_port dev st p Hp)
      as (label & st' & Hid & Hin & _).
    rewrite (bind_run _ _ st st' label Hid).
    simpl in Hin.
    repeat (destruct Hin as [<-|Hin];
            [eexists _, st'; split; [reflexivity|];
             split; [discriminate|]; intros _;
             eexists; split; [exact Hid|]; split;
             [reflexivity|intros G; try discriminate G; reflexivity]|]).
    contradiction.
  - exists [], st. split; [reflexivity|]. split; [auto|discriminate].
Qed.

Lemma getDeviceCapabilities_lists_witness :
  (exists items st',
     getDeviceCapabilities silentUno connectedUno =
       (Returns (Listed items), st') /\
     (isConnected connectedUno = false -> items = [] /\ st' = connectedUno) /\
     (isConnected connectedUno = true ->
      exists label,
        identifyModel silentUno connectedUno = (Returns label, st') /\
        ownProperty label capabilities =
          (if existsb (sameString label)
                [str "nano_clone"; str "mega2560"; str "generic"]
           then None else Some items) /\
        (ownProperty label capabilities = None ->
         items = [str "basic_arduino"]))) /\
  forall label,
    In label modelLabels ->
    exists items,
      capabilitiesOf label = Listed items /\
      (items = [str "basic_arduino"] <->
       In label [str "nano_clone"; str "mega2560"; str "generic"]).
Proof.
  apply (getDeviceCapabilities_lists silentUno connectedUno).
  intros _. discriminate.
Defined.

(** With [isConnected] set and no port, [getDeviceCapabilities] throws
    the [Port not open] of [identifyModel]. *)
Example capabilities_of_a_connected_uno :
  fst (getDeviceCapabilities silentUno connectedUno) =
    Returns (Listed [str "digital_io"; str "analog_input"; str "pwm";
                     str "serial"]) /\
  fst (getDeviceCapabilities silentUno
         (setIsConnected true (holding (portOf (Some 0x2341%Z)
                                          (Some 0x0042%Z))))) =
    Returns (Listed [str "basic_arduino"]) /\
  fst (getDeviceCapabilities silentUno (setIsConnected true initial)) =
    Throws (Error "Port not open").
Proof. repeat split. Qed.

(** ** Scanning *)

Lemma quickIdentifyPort_fields (p : SerialPort) (deviceInfo : DeviceInfo) :
  quickIdentifyPort p = Some deviceInfo ->
  matchedKey (getInfo p) = Some (model deviceInfo) /\
  id deviceInfo = (usbVendorId (getInfo p), usbProductId (getInfo p)) /\
  vendorId deviceInfo = usbVendorId (getInfo p) /\
  productId deviceInfo = usbProductId (getInfo p) /\
  connected deviceInfo = false.
Proof.
  unfold quickIdentifyPort, matchedKey.
  destruct (firstMatch _ _) as [[key sig]|]; intros H; [|discriminate H].
  injection H as <-. repeat split.
Qed.

(** X13. [quickIdentifyPort] recognises a port exactly when its vendor
    is 0x2341 (with any product id, or none), or it is the CH340 pair
    0x1A86 / 0x7523 or the ESP32 pair 0x10C4 / 0xEA60. The device it
    returns carries the ids of the port, [connected: false], a model
    among the labels, and a vendor that [getArduinoFilters] admits; the
    vendors 0x2A03, 0x1B4F and 0x0403 that the filters admit as well are
    never recognised. *)
Theorem quickIdentifyPort_recognises (p : SerialPort) :
  (match quickIdentifyPort p with
   | Some deviceInfo =>
       In (model deviceInfo) modelLabels /\
       id deviceInfo = (usbVendorId (getInfo p), usbProductId (getInfo p)) /\
       connected deviceInfo = false /\
       exists v, vendorId deviceInfo = Some v /\ In v getArduinoFilters
   | None => True
   end) /\
  (match quickIdentifyPort p with Some _ => true | None => false end) =
    (strictEqNum (usbVendorId (getInfo p)) 0x2341 ||
     (strictEqNum (usbVendorId (getInfo p)) 0x1A86 &&
      strictEqNum (usbProductId (getInfo p)) 0x7523) ||
     (strictEqNum (usbVendorId (getInfo p)) 0x10C4 &&
      strictEqNum (usbProductId (getInfo p)) 0xEA60)) /\
  (In (usbVendorId (getInfo p)) [Some 0x2A03; Some 0x1B4F; Some 0x0403]%Z ->
   quickIdentifyPort p = None).
Proof.
  pose proof (quickIdentifyPort_model p) as Hmodel.
  pose proof (matchedKey_cases (getInfo p)) as Hcases.
  split; [|split].
  - destruct (quickIdentifyPort p) as [deviceInfo|] eqn:E; [|exact I].
    destruct (quickIdentifyPort_fields p deviceInfo E)
      as (Hkey & Hid & Hv & _ & Hc).
    split; [apply (matchedKey_label (getInfo p)); exact Hkey|].
    repeat split; auto. rewrite Hv. rewrite Hcases in Hkey.
    unfold strictEqNum in Hkey.
    destruct (usbVendorId (getInfo p)) as [v|]; [|discriminate Hkey].
    exists v. split; [reflexivity|].
    destruct (Z.eqb_spec v 0x2341) as [->|_]; [simpl; tauto|].
    destruct (Z.eqb_spec v 0x1A86) as [->|_]; [simpl; tauto|].
    destruct (Z.eqb_spec v 0x10C4) as [->|_]; [simpl; tauto|].
    discriminate Hkey.
  - rewrite Hcases in Hmodel. clear Hcases. unfold strictEqNum in *.
    destruct (usbVendorId (getInfo p)) as [v|],
      (usbProductId (getInfo p)) as [q|];
      destruct (quickIdentifyPort p); simpl in Hmodel;
      repeat match goal with
             | H : context [(?a =? ?b)%Z] |- _ =>
                 destruct (Z.eqb_spec a b); try lia; subst
             | |- context [(?a =? ?b)%Z] =>
                 destruct (Z.eqb_spec a b); try lia; subst
             end; try discriminate Hmodel; reflexivity.
  - intros Hin.
    destruct (quickIdentifyPort p); [|reflexivity]. simpl in Hmodel.
    rewrite Hcases in Hmodel. exfalso.
    destruct Hin as [H|[H|[H|[]]]]; rewrite <- H in Hmodel;
      discriminate Hmodel.
Qed.

Lemma sameId_eq (a b : DeviceId) : sameId a b = true <-> a = b.
Proof.
  destruct a as [[x|] [y|]], b as [[x'|] [y'|]]; unfold sameId; simpl;
    rewrite ?andb_true_iff, ?Z.eqb_eq; split; intros H;
    try discriminate; try (destruct H; discriminate);
    try (destruct H; congruence); try (injection H; auto);
    try congruence; auto.
Qed.

Lemma mapGet_mapSet (key k : DeviceId) (value : DeviceInfo) (m : DeviceMap) :
  mapGet k (mapSet key value m) =
  if sameId key k then Some value else mapGet k m.
Proof.
  induction m as [|[k0 v0] m IH]; simpl.
  - reflexivity.
  - destruct (sameId k0 key) eqn:E0; simpl.
    + apply sameId_eq in E0. subst k0.
      destruct (sameId key k); reflexivity.
    + destruct (sameId k0 k) eqn:E1; [|exact IH].
      apply sameId_eq in E1. subst k0.
      destruct (sameId key k) eqn:E2; [|reflexivity].
      apply sameId_eq in E2. subst key.
      assert (sameId k k = true) by (apply sameId_eq; reflexivity).
      congruence.
Qed.

Lemma mapSet_keys (key : DeviceId) (value : DeviceInfo) (m : DeviceMap) :
  NoDup (map fst m) ->
  NoDup (map fst (mapSet key value m)) /\
  length (mapSet key value m) <= S (length m) /\
  (forall k, In k (map fst (mapSet key value m)) ->
     k = key \/ In k (map fst m)).
Proof.
  induction m as [|[k0 v0] m IH]; simpl; intros Hnd.
  - repeat split; [repeat constructor; intros []|lia|].
    intros k [<-|[]]. left. reflexivity.
  - inversion Hnd as [|? ? Hnotin Hrest]; subst.
    destruct (sameId k0 key) eqn:E0; simpl.
    + repeat split; [exact Hnd|lia|]. intros k H. right. exact H.
    + destruct (IH Hrest) as (IH1 & IH2 & IH3).
      repeat split; [|lia|].
      * constructor; [|exact IH1]. intros Hin.
        destruct (IH3 _ Hin) as [->|Hin']; [|contradiction].
        assert (sameId key key = true) by (apply sameId_eq; reflexivity).
        congruence.
      * intros k [<-|Hin]; [right; left; reflexivity|].
        destruct (IH3 _ Hin); auto.
Qed.

Lemma setAll_snoc (devices : list DeviceInfo) (d : DeviceInfo)
  (m : DeviceMap) :
  setAll (devices ++ [d]) m = mapSet (id d) d (setAll devices m).
Proof. unfold setAll. rewrite fold_left_app. reflexivity. Qed.

(** The map after [devices.forEach(device => map.set(device.id,
    device))] on a cleared map. *)
Lemma setAll_spec (devices : list DeviceInfo) :
  (forall k,
     mapGet k (setAll devices []) =
     find (fun device => sameId (id device) k) (rev devices)) /\
  NoDup (map fst (setAll devices [])) /\
  length (setAll devices []) <= length devices.
Proof.
  induction devices as [|d devices IH] using rev_ind.
  - repeat split; [constructor|simpl; lia].
  - destruct IH as (Hget & Hnd & Hlen).
    rewrite setAll_snoc.
    destruct (mapSet_keys (id d) d (setAll devices []) Hnd)
      as (K1 & K2 & _).
    repeat split; [|exact K1|rewrite length_app; simpl; lia].
    intros k. rewrite mapGet_mapSet, rev_app_distr. simpl.
    destruct (sameId (id d) k); [reflexivity|apply Hget].
Qed.

Lemma identifyPorts_spec (ports : list SerialPort) :
  forall devices,
    identifyPorts ports devices = devices ++ flat_map recognised ports.
Proof.
  induction ports as [|p ports IH]; intros devices; simpl.
  - symmetry. apply app_nil_r.
  - unfold recognised at 1.
    destruct (quickIdentifyPort p) as [deviceInfo|]; rewrite IH.
    + rewrite <- app_assoc. reflexivity.
    + reflexivity.
Qed.

(** X14. [scanForDevices] without the serial API throws and leaves the
    detector untouched. With it, [isScanning] is false again when the
    scan is over, whether [getPorts] resolved or rejected, and nothing is
    done on any port. When [getPorts] rejects, its error is thrown and
    the devices of the last scan stay in the map. When it resolves, the
    scan returns the recognised ports in the order of [getPorts], one
    device per port, while the map [detectedDevices] is rebuilt with one
    entry per id: of several ports with the same vendor and product id
    the last one is kept, so the map can hold fewer devices than the
    scan returned. *)
Theorem scanForDevices_outcome (nav : Navigator) (d : Detector) :
  (serialSupported (device nav) = false ->
   scanForDevices nav d =
     (Throws (Error "Web Serial API not supported"), d)) /\
  (serialSupported (device nav) = true ->
   match getPorts nav (history (core d)) with
   | inr e =>
       scanForDevices nav d =
         (Throws e, onCore (setIsScanning false) d)
   | inl ports =>
       let devices := flat_map recognised ports in
       exists d',
         scanForDevices nav d = (Returns devices, d') /\
         core d' = setIsScanning false (core d) /\
         (forall k,
            mapGet k (detectedDevices d') =
            find (fun device => sameId (id device) k) (rev devices)) /\
         NoDup (map fst (detectedDevices d')) /\
         length (detectedDevices d') <= length devices
   end).
Proof.
  split; intros Hs; unfold scanForDevices, isSupported; rewrite Hs;
    cbn [negb]; [reflexivity|].
  unfold bindD, finallyD. cbn [onCore core history setIsScanning].
  destruct (getPorts nav (history (core d))) as [ports|e].
  - rewrite (identifyPorts_spec ports []). cbn [app].
    destruct (setAll_spec (flat_map recognised ports)) as (H1 & H2 & H3).
    eexists. split; [reflexivity|]. cbn. repeat split; auto.
  - reflexivity.
Qed.

Example scan_of_the_bench :
  let result := scanForDevices (browserWith benchPorts) newDetector in
  option_map (map model)
    (match fst result with Returns devices => Some devices | _ => None end) =
    Some [str "uno"; str "uno"; str "nano_clone"] /\
  map (fun entry => model (snd entry)) (detectedDevices (snd result)) =
    [str "uno"; str "nano_clone"] /\
  map model (reportDevices (getStatus silentUno (snd result))) =
    [str "uno"; str "nano_clone"].
Proof. repeat split. Qed.

(** ** The locks of the streams *)

Lemma sendCommand_prefix (dev : Device) (command : jsstring) (t : Z)
  (st : State) (p : SerialPort) :
  port st = Some p ->
  exists k,
    history (snd (sendCommand dev command t st)) =
      history st ++ firstn k (exchange command t) /\
    match fst (sendCommand dev command t st) with
    | Returns _ => k = 6
    | Throws (Error message) => message = "Command timeout"%string /\ k = 5
    | Throws StreamError => k = 6
    | Throws (Rejected ev) =>
        ev = EvWrite (Utf16.encode (Utf16.units command)) /\ k = 2
    | Throws (TypeError reading) =>
        (reading = "getWriter"%string /\ k = 1) \/
        (reading = "getReader"%string /\ k = 5)
    | Pending => True
    end.
Proof.
  intros Hp.
  unfold sendCommand, readResponse, beforeTimer, tryFinally, bind, get, io,
    emit, modify, ret, throw.
  rewrite Hp.
  repeat (cbn; rewrite ?Hp;
          match goal with
          | |- context [if resolves ?d ?h ?e then _ else _] =>
              destruct (resolves d h e)
          | |- context [readLoop ?a ?b] =>
              destruct (readLoop a b) as [[r|] r']
          | |- context [streamEnd ?x] => destruct (streamEnd x)
          end).
  all: cbn.
  all: first
         [ exists 6; split; [cbn; rewrite <- ?app_assoc; reflexivity|];
           solve [auto]
         | exists 5; split; [cbn; rewrite <- ?app_assoc; reflexivity|];
           solve [auto]
         | exists 2; split; [cbn; rewrite <- ?app_assoc; reflexivity|];
           solve [auto]
         | exists 1; split; [cbn; rewrite <- ?app_assoc; reflexivity|];
           solve [auto] ].
Qed.

(** X15. The calls of one [sendCommand] on a detector with a port are a
    prefix of: get the writer, write the command, release the writer,
    start the timer, get the reader, release the reader. It resolves, or
    rejects with a stream error, only after all six. It rejects with
    [Command timeout] after the first five, so the reader lock taken for
    the response is not released; a rejected write ends it after two, so
    the writer lock is not released. The [TypeError] of a writer that
    cannot be had (port not open, stream locked) ends it after one call,
    that of a reader that cannot be had after five. Nothing is said of a
    call that does not settle. *)
Theorem sendCommand_locks (dev : Device) (command : jsstring) (t : Z)
  (st : State) (p : SerialPort) :
  port st = Some p ->
  exists k,
    since st (snd (sendCommand dev command t st)) =
      firstn k (exchange command t) /\
    match fst (sendCommand dev command t st) with
    | Returns _ => k = 6
    | Throws (Error message) => message = "Command timeout"%string /\ k = 5
    | Throws StreamError => k = 6
    | Throws (Rejected ev) =>
        ev = EvWrite (Utf16.encode (Utf16.units command)) /\ k = 2
    | Throws (TypeError reading) =>
        (reading = "getWriter"%string /\ k = 1) \/
        (reading = "getReader"%string /\ k = 5)
    | Pending => True
    end.
Proof.
  intros Hp.
  destruct (sendCommand_prefix dev command t st p Hp) as (k & Hh & Hk).
  exists k. split; [apply since_app; exact Hh|exact Hk].
Qed.

Lemma sendCommand_locks_witness :
  exists k,
    since connectedUno (snd (sendCommand silentUno crlf 500 connectedUno)) =
      firstn k (exchange crlf 500) /\
    match fst (sendCommand silentUno crlf 500 connectedUno) with
    | Returns _ => k = 6
    | Throws (Error message) => message = "Command timeout"%string /\ k = 5
    | Throws StreamError => k = 6
    | Throws (Rejected ev) => ev = EvWrite crlf /\ k = 2
    | Throws (TypeError reading) =>
        (reading = "getWriter"%string /\ k = 1) \/
        (reading = "getReader"%string /\ k = 5)
    | Pending => True
    end.
Proof.
  apply (sendCommand_locks silentUno crlf 500 connectedUno
           (portOf (Some 0x2341%Z) (Some 0x0043%Z))).
  reflexivity.
Defined.

(** A command that times out on the connected Uno leaves the reader it
    took in [this.reader], its lock not released; in a browser that gives
    no second reader, the next command is written and then fails at
    [getReader]. *)
Example timeout_keeps_the_reader_lock :
  sendCommand strictUno crlf 500 connectedUno =
    (Throws (Error "Command timeout"),
     setReader (Some 8)
       (setWriter (Some 4)
          (recordAll
             [EvGetWriter; EvWrite crlf; EvReleaseWriter; EvStartTimer 500;
              EvGetReader]
             connectedUno))) /\
  fst (sendCommand strictUno crlf 500
         (snd (sendCommand strictUno crlf 500 connectedUno))) =
    Throws (TypeError "getReader") /\
  since (snd (sendCommand strictUno crlf 500 connectedUno))
    (snd (sendCommand strictUno crlf 500
            (snd (sendCommand strictUno crlf 500 connectedUno)))) =
    [EvGetWriter; EvWrite crlf; EvReleaseWriter; EvStartTimer 500;
     EvGetReader].
Proof. repeat split. Qed.

Lemma writeChunks_events (dev : Device) (chunks : list Utf16.string16) :
  forall st,
    match writeChunks dev chunks st with
    | (Returns _, st') => history st' = history st ++ paced chunks
    | (Throws e, st') =>
        exists k,
          k < length chunks /\
          e = Rejected (EvWrite (Utf16.encode (nth k chunks []))) /\
          history st' =
            history st ++ paced (firstn k chunks) ++
            [EvWrite (Utf16.encode (nth k chunks []))]
    | (Pending, _) => False
    end.
Proof.
  induction chunks as [|chunk rest IH]; intros st.
  - simpl. symmetry. apply app_nil_r.
  - set (ev := EvWrite (Utf16.encode chunk)).
    destruct (resolves dev (history st) ev) eqn:E.
    + assert (Hrun : writeChunks dev (chunk :: rest) st =
                     writeChunks dev rest
                       (record (EvDelay 10) (record ev st))).
      { cbn [writeChunks]. fold ev.
        rewrite (bind_run _ _ st (record ev st) tt)
          by (unfold io; rewrite E; reflexivity).
        rewrite (bind_run _ _ (record ev st)
                   (record (EvDelay 10) (record ev st)) tt)
          by reflexivity.
        reflexivity. }
      rewrite Hrun.
      specialize (IH (record (EvDelay 10) (record ev st))).
      destruct (writeChunks dev rest _) as [[u|e|] st']; [| |exact IH].
      * rewrite IH. cbn [record history paced flat_map app]. fold ev.
        fold (paced rest). rewrite <- !app_assoc. reflexivity.
      * destruct IH as (k & Hk & He & Hh). exists (S k).
        split; [simpl; lia|]. split; [exact He|].
        rewrite Hh. cbn [record history paced flat_map app firstn nth].
        fold ev. fold (paced (firstn k rest)).
        rewrite <- !app_assoc. reflexivity.
    + assert (Hrun : writeChunks dev (chunk :: rest) st =
                     (Throws (Rejected ev), record ev st)).
      { cbn [writeChunks]. fold ev. apply bind_throws.
        unfold io. rewrite E. reflexivity. }
      rewrite Hrun. exists 0. split; [simpl; lia|].
      split; reflexivity.
Qed.

Lemma writeChunks_resolves (dev : Device) (chunks : list Utf16.string16) :
  (forall events data, resolves dev events (EvWrite data) = true) ->
  forall st, fst (writeChunks dev chunks st) = Returns tt.
Proof.
  intros Hw. induction chunks as [|chunk rest IH]; intros st; [reflexivity|].
  cbn [writeChunks].
  rewrite (bind_run _ _ st (record (EvWrite (Utf16.encode chunk)) st) tt)
    by (unfold io; rewrite Hw; reflexivity).
  rewrite (bind_run _ _ (record (EvWrite (Utf16.encode chunk)) st)
             (record (EvDelay 10)
                (record (EvWrite (Utf16.encode chunk)) st)) tt)
    by reflexivity.
  apply IH.
Qed.

(** What [uploadCode] does once it has the writer. *)
Lemma uploadCode_with_writer (dev : Device) (code : Utf16.string16)
  (options : Utf16.UploadOptions) (st : State) (p : SerialPort)
  (chunks : list Utf16.string16) :
  chunkString (Utf16.wrapCodeForUpload code options) 64 = Some chunks ->
  isConnected st = true ->
  port st = Some p ->
  resolves dev (history st) EvGetWriter = true ->
  uploadCode dev code options st =
    match writeChunks dev chunks
            (setWriter (Some (length (history st ++ [EvGetWriter])))
               (record EvGetWriter st)) with
    | (Returns _, st') => (Returns true, record EvReleaseWriter st')
    | (Throws e, st') => (Throws e, record EvReleaseWriter st')
    | (Pending, st') => (Pending, st')
    end.
Proof.
  intros Hchunks Hc Hp Hw.
  unfold uploadCode. rewrite (bind_run _ _ st st st) by reflexivity.
  rewrite Hc. cbn [negb].
  unfold sendCodeChunked. rewrite Hchunks.
  unfold terminating, thisPort, tryCatch, tryFinally, bind, get, io, modify,
    emit, ret, throw.
  rewrite Hp, Hw. cbn [record history].
  destruct (writeChunks dev chunks _) as [[u|e|] st3]; reflexivity.
Qed.

(** X16. [uploadCode] on a connected detector whose writer can be taken
    paces the chunks of the wrapped source, which make up the wrapped
    source when put end to end: each chunk is encoded and written and
    followed by a delay of 10 ms, the last one too, then the writer lock
    is released and [true] is returned; this is what happens whenever
    every write resolves. When a write is rejected, no later chunk is
    written and no further delay is made, the writer lock is released all
    the same, and the rejection of that write is what [uploadCode]
    throws. Nothing is said of a write that does not settle. *)
Theorem uploadCode_paced (dev : Device) (code : Utf16.string16)
  (options : Utf16.UploadOptions) (st : State) (p : SerialPort) :
  isConnected st = true ->
  port st = Some p ->
  resolves dev (history st) EvGetWriter = true ->
  exists chunks,
    chunkString (Utf16.wrapCodeForUpload code options) 64 = Some chunks /\
    concat chunks = Utf16.wrapCodeForUpload code options /\
    ((forall events data, resolves dev events (EvWrite data) = true) ->
     fst (uploadCode dev code options st) = Returns true) /\
    match uploadCode dev code options st with
    | (Returns done, st') =>
        done = true /\
        since st st' = EvGetWriter :: paced chunks ++ [EvReleaseWriter]
    | (Throws e, st') =>
        exists k,
          k < length chunks /\
          e = Rejected (EvWrite (Utf16.encode (nth k chunks []))) /\
          since st st' =
            EvGetWriter :: paced (firstn k chunks) ++
            [EvWrite (Utf16.encode (nth k chunks [])); EvReleaseWriter]
    | (Pending, _) => True
    end.
Proof.
  intros Hc Hp Hw.
  destruct (chunkString_spec (Utf16.wrapCodeForUpload code options) 64)
    as (chunks & Hchunks & Hcat & _); [lia|].
  exists chunks. split; [exact Hchunks|]. split; [exact Hcat|].
  rewrite (uploadCode_with_writer dev code options st p chunks Hchunks Hc Hp Hw).
  set (st2 := setWriter _ (record EvGetWriter st)).
  split.
  - intros Hall. pose proof (writeChunks_resolves dev chunks Hall st2) as Hr.
    destruct (writeChunks dev chunks st2) as [[u|e|] st3];
      [reflexivity|discriminate Hr|discriminate Hr].
  - pose proof (writeChunks_events dev chunks st2) as Hev.
    destruct (writeChunks dev chunks st2) as [[u|e|] st3]; [| |exact I].
    + split; [reflexivity|]. apply since_app. simpl. rewrite Hev.
      simpl. rewrite <- !app_assoc. reflexivity.
    + destruct Hev as (k & Hk & He & Hh). exists k.
      split; [exact Hk|]. split; [exact He|].
      apply since_app. simpl. rewrite Hh. simpl.
      rewrite <- !app_assoc. reflexivity.
Qed.

Lemma uploadCode_paced_witness :
  exists chunks,
    chunkString (Utf16.wrapCodeForUpload plainSketch Utf16.noOptions) 64 =
      Some chunks /\
    concat chunks = Utf16.wrapCodeForUpload plainSketch Utf16.noOptions /\
    ((forall events data, resolves silentUno events (EvWrite data) = true) ->
     fst (uploadCode silentUno plainSketch Utf16.noOptions connectedUno) =
       Returns true) /\
    match uploadCode silentUno plainSketch Utf16.noOptions connectedUno with
    | (Returns done, st') =>
        done = true /\
        since connectedUno st' =
          EvGetWriter :: paced chunks ++ [EvReleaseWriter]
    | (Throws e, st') =>
        exists k,
          k < length chunks /\
          e = Rejected (EvWrite (Utf16.encode (nth k chunks []))) /\
          since connectedUno st' =
            EvGetWriter :: paced (firstn k chunks) ++
            [EvWrite (Utf16.encode (nth k chunks [])); EvReleaseWriter]
    | (Pending, _) => True
    end.
Proof.
  apply (uploadCode_paced silentUno plainSketch Utf16.noOptions
           connectedUno (portOf (Some 0x2341%Z) (Some 0x0043%Z)));
    reflexivity.
Defined.

(** ** The bytes of an upload *)

(** [TextEncoder] on characters of one, two, three and four bytes, and
    on a surrogate without its partner. *)
Example encode_by_example :
  Utf16.encode [0x41; 0xB5; 0x4E2D; 0xD83D; 0xDE00]%Z =
    map Utf16.byte
      [0x41; 0xC2; 0xB5; 0xE4; 0xB8; 0xAD; 0xF0; 0x9F; 0x98; 0x80]%Z /\
  Utf16.encode [0xD83D]%Z = map Utf16.byte [0xEF; 0xBF; 0xBD]%Z /\
  Utf16.encode [0xDE00; 0x41]%Z = map Utf16.byte [0xEF; 0xBF; 0xBD; 0x41]%Z /\
  Utf16.encode (Utf16.units crlf) = crlf.
Proof. repeat split. Qed.

Lemma cutsPair_tail (u : Z) (a t : Utf16.string16) :
  Utf16.cutsPair (u :: a) t = false -> Utf16.cutsPair a t = false.
Proof.
  unfold Utf16.cutsPair. cbn [rev].
  destruct (rev a) as [|x l]; [reflexivity|]. cbn [app]. auto.
Qed.

(** Encoding goes through a cut that separates no pair. *)
Lemma encode_app_upto (n : nat) :
  forall a t : Utf16.string16,
    length a <= n ->
    Utf16.cutsPair a t = false ->
    Utf16.encode (a ++ t) = Utf16.encode a ++ Utf16.encode t.
Proof.
  induction n as [|n IH]; intros a t Hn Hcut.
  - destruct a; [reflexivity|simpl in Hn; lia].
  - destruct a as [|u a]; [reflexivity|].
    pose proof (cutsPair_tail u a t Hcut) as Hcut1.
    cbn [app Utf16.encode].
    destruct (Utf16.isHighSurrogate u) eqn:Hh.
    + destruct a as [|v a].
      * cbn [app]. unfold Utf16.cutsPair in Hcut. cbn [rev app] in Hcut.
        rewrite Hh in Hcut. destruct t as [|w t].
        -- symmetry. apply app_nil_r.
        -- cbn [andb] in Hcut. rewrite Hcut. reflexivity.
      * cbn [app]. destruct (Utf16.isLowSurrogate v).
        -- rewrite IH; [apply app_assoc|simpl in Hn; lia|].
           apply (cutsPair_tail v a t Hcut1).
        -- change (v :: a ++ t) with ((v :: a) ++ t).
           rewrite (IH (v :: a) t); [apply app_assoc|simpl in *; lia|].
           exact Hcut1.
    + destruct (Utf16.isLowSurrogate u);
        (rewrite IH; [apply app_assoc|simpl in Hn; lia|exact Hcut1]).
Qed.

Lemma encode_app (a t : Utf16.string16) :
  Utf16.cutsPair a t = false ->
  Utf16.encode (a ++ t) = Utf16.encode a ++ Utf16.encode t.
Proof. apply (encode_app_upto (length a)). lia. Qed.

Lemma encode_concat (chunks : list Utf16.string16) :
  Utf16.pairsKept chunks = true ->
  Utf16.encode (concat chunks) = concat (map Utf16.encode chunks).
Proof.
  induction chunks as [|chunk rest IH]; intros H; [reflexivity|].
  cbn [concat map Utf16.pairsKept] in *.
  apply andb_true_iff in H. destruct H as [Hc Hr].
  apply negb_true_iff in Hc.
  rewrite encode_app by exact Hc. rewrite IH by exact Hr. reflexivity.
Qed.

Lemma plain_app (s t : Utf16.string16) :
  Utf16.plain (s ++ t) = Utf16.plain s && Utf16.plain t.
Proof. apply forallb_app. Qed.

Lemma plain_units (s : jsstring) : Utf16.plain (Utf16.units s) = true.
Proof.
  induction s as [|c s IH]; [reflexivity|].
  cbn [Utf16.units map Utf16.plain forallb].
  fold (Utf16.units s). fold (Utf16.plain (Utf16.units s)). rewrite IH.
  destruct c as [[] [] [] [] [] [] [] []]; reflexivity.
Qed.

Lemma plain_cutsPair (a t : Utf16.string16) :
  Utf16.plain a = true -> Utf16.cutsPair a t = false.
Proof.
  intros H. unfold Utf16.cutsPair.
  destruct (rev a) as [|u l] eqn:E; [reflexivity|].
  destruct t as [|v t]; [reflexivity|].
  assert (Hin : In u a).
  { apply in_rev. rewrite E. left. reflexivity. }
  unfold Utf16.plain in H. rewrite forallb_forall in H.
  specialize (H u Hin). apply negb_true_iff, orb_false_iff in H.
  destruct H as [Hh _]. rewrite Hh. reflexivity.
Qed.

Lemma plain_pairsKept (chunks : list Utf16.string16) :
  Utf16.plain (concat chunks) = true -> Utf16.pairsKept chunks = true.
Proof.
  induction chunks as [|chunk rest IH]; intros H; [reflexivity|].
  cbn [concat Utf16.pairsKept] in *. rewrite plain_app in H.
  apply andb_true_iff in H. destruct H as [Hc Hr].
  rewrite (plain_cutsPair chunk _ Hc), (IH Hr). reflexivity.
Qed.

Lemma plain_wrapCodeForUpload (code : Utf16.string16)
  (options : Utf16.UploadOptions) :
  Utf16.plain code = true ->
  Utf16.plain (Utf16.librariesOrEmpty options) = true ->
  Utf16.plain (Utf16.wrapCodeForUpload code options) = true.
Proof.
  intros Hc Hl. unfold Utf16.wrapCodeForUpload.
  destruct (_ && _); [exact Hc|].
  unfold Utf16.envelopeHead, Utf16.envelopeTail.
  rewrite !plain_app, !plain_units, Hc, Hl. reflexivity.
Qed.

Lemma written_paced (chunks : list Utf16.string16) :
  written (paced chunks) = map Utf16.encode chunks.
Proof.
  induction chunks as [|chunk rest IH]; [reflexivity|].
  cbn [paced flat_map app written]. fold (paced rest). rewrite IH.
  reflexivity.
Qed.

(** An upload that returned went through the whole transmission. *)
Lemma uploadCode_returned (dev : Device) (code : Utf16.string16)
  (options : Utf16.UploadOptions) (st st' : State) (done : bool) :
  uploadCode dev code options st = (Returns done, st') ->
  exists chunks,
    chunkString (Utf16.wrapCodeForUpload code options) 64 = Some chunks /\
    concat chunks = Utf16.wrapCodeForUpload code options /\
    since st st' = EvGetWriter :: paced chunks ++ [EvReleaseWriter].
Proof.
  intros Hrun.
  destruct (chunkString_spec (Utf16.wrapCodeForUpload code options) 64)
    as (chunks & Hchunks & Hcat & _); [lia|].
  exists chunks. split; [exact Hchunks|]. split; [exact Hcat|].
  destruct (isConnected st) eqn:Hc.
  2:{ unfold uploadCode in Hrun.
      rewrite (bind_run _ _ st st st) in Hrun by reflexivity.
      rewrite Hc in Hrun. discriminate Hrun. }
  destruct (port st) as [p|] eqn:Hp.
  2:{ unfold uploadCode, sendCodeChunked in Hrun.
      rewrite (bind_run _ _ st st st) in Hrun by reflexivity.
      rewrite Hc, Hchunks in Hrun.
      unfold terminating, thisPort, tryCatch, bind, get, ret, throw in Hrun.
      cbn in Hrun. rewrite Hp in Hrun. discriminate Hrun. }
  destruct (resolves dev (history st) EvGetWriter) eqn:Hw.
  2:{ unfold uploadCode, sendCodeChunked in Hrun.
      rewrite (bind_run _ _ st st st) in Hrun by reflexivity.
      rewrite Hc, Hchunks in Hrun.
      unfold terminating, thisPort, tryCatch, bind, get, io, ret, throw
        in Hrun.
      cbn in Hrun. rewrite Hp, Hw in Hrun. discriminate Hrun. }
  rewrite (uploadCode_with_writer dev code options st p chunks Hchunks Hc Hp Hw)
    in Hrun.
  set (st2 := setWriter _ (record EvGetWriter st)) in Hrun.
  pose proof (writeChunks_events dev chunks st2) as Hev.
  destruct (writeChunks dev chunks st2) as [[u|e|] st3];
    [|discriminate Hrun|discriminate Hrun].
  injection Hrun as _ <-.
  apply since_app. simpl. rewrite Hev. simpl.
  rewrite <- !app_assoc. reflexivity.
Qed.

(** X24. An upload that returns has written the bytes of the wrapped
    source whenever no cut between two chunks separates a surrogate pair:
    the bytes of all writes, put end to end in the order of the writes,
    are then the UTF-8 of [wrapCodeForUpload(code, options)], nothing
    added, left out or moved. That is so for every source and libraries
    without surrogate code units. *)
Theorem upload_bytes_exact (dev : Device) (code : Utf16.string16)
  (options : Utf16.UploadOptions) (st st' : State) (done : bool) :
  uploadCode dev code options st = (Returns done, st') ->
  exists chunks,
    chunkString (Utf16.wrapCodeForUpload code options) 64 = Some chunks /\
    (Utf16.pairsKept chunks = true ->
     concat (written (since st st')) =
       Utf16.encode (Utf16.wrapCodeForUpload code options)) /\
    (Utf16.plain code = true ->
     Utf16.plain (Utf16.librariesOrEmpty options) = true ->
     Utf16.pairsKept chunks = true).
Proof.
  intros Hrun.
  destruct (uploadCode_returned dev code options st st' done Hrun)
    as (chunks & Hchunks & Hcat & Hsince).
  exists chunks. split; [exact Hchunks|]. split.
  - intros Hkept.
    rewrite Hsince. cbn [written]. rewrite written_app, written_paced.
    cbn [written]. rewrite app_nil_r.
    rewrite <- encode_concat by exact Hkept. rewrite Hcat. reflexivity.
  - intros Hc Hl. apply plain_pairsKept. rewrite Hcat.
    apply plain_wrapCodeForUpload; assumption.
Qed.

Lemma upload_bytes_exact_witness :
  exists chunks,
    chunkString (Utf16.wrapCodeForUpload smileySketch Utf16.noOptions) 64 =
      Some chunks /\
    (Utf16.pairsKept chunks = true ->
     concat
       (written
          (since connectedUno
             (snd (uploadCode silentUno smileySketch Utf16.noOptions
                     connectedUno)))) =
       Utf16.encode (Utf16.wrapCodeForUpload smileySketch Utf16.noOptions)) /\
    (Utf16.plain smileySketch = true ->
     Utf16.plain (Utf16.librariesOrEmpty Utf16.noOptions) = true ->
     Utf16.pairsKept chunks = true).
Proof.
  apply (upload_bytes_exact silentUno smileySketch Utf16.noOptions
           connectedUno
           (snd (uploadCode silentUno smileySketch Utf16.noOptions
                   connectedUno))
           true).
  vm_compute. reflexivity.
Defined.

(** U+1F600 inside a chunk goes out as its four bytes; a source without
    surrogates goes out as its UTF-8 as well. *)
Example uploads_that_are_exact :
  concat
    (written
       (since connectedUno
          (snd (uploadCode silentUno smileySketch Utf16.noOptions
                  connectedUno)))) =
    Utf16.encode (Utf16.wrapCodeForUpload smileySketch Utf16.noOptions) /\
  concat
    (written
       (since connectedUno
          (snd (uploadCode silentUno plainSketch Utf16.noOptions
                  connectedUno)))) =
    Utf16.encode (Utf16.wrapCodeForUpload plainSketch Utf16.noOptions).
Proof. split; vm_compute; reflexivity. Qed.

(** ** Time budgets *)

Lemma waited_app (e1 e2 : list Event) :
  waited (e1 ++ e2) = (waited e1 + waited e2)%Z.
Proof.
  induction e1 as [|ev e1 IH]; simpl; [reflexivity|].
  destruct ev; auto. rewrite IH. lia.
Qed.

Lemma costs_still {A} (m : M A) (n : Z) :
  (forall st, history (snd (m st)) = history st) -> (0 <= n)%Z -> costs m n.
Proof.
  intros H Hn st. exists []. rewrite H, app_nil_r. simpl. split; [auto|lia].
Qed.

Lemma costs_ret {A} (a : A) (n : Z) : (0 <= n)%Z -> costs (ret a) n.
Proof. apply costs_still. reflexivity. Qed.

Lemma costs_throw {A} (e : JsError) (n : Z) :
  (0 <= n)%Z -> costs (@throw A e) n.
Proof. apply costs_still. reflexivity. Qed.

Lemma costs_get : costs get 0.
Proof. apply costs_still; [reflexivity|lia]. Qed.

Lemma costs_setReader v : costs (modify (setReader v)) 0.
Proof. apply costs_still; [reflexivity|lia]. Qed.

Lemma costs_setWriter v : costs (modify (setWriter v)) 0.
Proof. apply costs_still; [reflexivity|lia]. Qed.

Lemma costs_setPort v : costs (modify (setPort v)) 0.
Proof. apply costs_still; [reflexivity|lia]. Qed.

Lemma costs_setIsConnected v : costs (modify (setIsConnected v)) 0.
Proof. apply costs_still; [reflexivity|lia]. Qed.

Lemma costs_emit (ev : Event) : waited [ev] = 0%Z -> costs (emit ev) 0.
Proof.
  intros H st. exists [ev]. split; [reflexivity|]. rewrite H. lia.
Qed.

Lemma costs_io (dev : Device) (ev : Event) :
  waited [ev] = 0%Z -> costs (io dev ev) 0.
Proof.
  intros H st. exists [ev]. unfold io.
  destruct (resolves dev (history st) ev);
    (split; [reflexivity|rewrite H; lia]).
Qed.

Lemma costs_weaken {A} (m : M A) (a b : Z) :
  costs m a -> (a <= b)%Z -> costs m b.
Proof.
  intros H Hab st. destruct (H st) as (events & Hh & Hw).
  exists events. split; [exact Hh|lia].
Qed.

Lemma costs_bind {A B} (m : M A) (k : A -> M B) (a b n : Z) :
  costs m a -> (forall x, costs (k x) b) -> (0 <= b)%Z -> (a + b <= n)%Z ->
  costs (bind m k) n.
Proof.
  intros Hm Hk Hb Hn st. unfold bind.
  destruct (Hm st) as (e1 & H1 & W1).
  destruct (m st) as [[x|e|] st1]; simpl in *.
  - destruct (Hk x st1) as (e2 & H2 & W2).
    exists (e1 ++ e2). rewrite H2, H1, app_assoc, waited_app.
    split; [reflexivity|lia].
  - exists e1. split; [exact H1|lia].
  - exists e1. split; [exact H1|lia].
Qed.

Lemma costs_tryCatch {A} (m : M A) (h : JsError -> M A) (a b n : Z) :
  costs m a -> (forall e, costs (h e) b) -> (0 <= b)%Z -> (a + b <= n)%Z ->
  costs (tryCatch m h) n.
Proof.
  intros Hm Hh Hb Hn st. unfold tryCatch.
  destruct (Hm st) as (e1 & H1 & W1).
  destruct (m st) as [[x|e|] st1]; simpl in *.
  - exists e1. split; [exact H1|lia].
  - destruct (Hh e st1) as (e2 & H2 & W2).
    exists (e1 ++ e2). rewrite H2, H1, app_assoc, waited_app.
    split; [reflexivity|lia].
  - exists e1. split; [exact H1|lia].
Qed.

Lemma waited_exchange_prefix (command : jsstring) (t : Z) (k : nat) :
  (0 <= t)%Z -> (0 <= waited (firstn k (exchange command t)) <= t)%Z.
Proof.
  intros Ht. unfold exchange.
  do 7 (destruct k as [|k]; [simpl; lia|]). simpl. lia.
Qed.

Lemma costs_sendCommand (dev : Device) (command : jsstring) (t : Z) :
  (0 <= t)%Z -> costs (sendCommand dev command t) t.
Proof.
  intros Ht st. destruct (port st) as [p|] eqn:Hp.
  - destruct (sendCommand_prefix dev command t st p Hp) as (k & Hh & _).
    exists (firstn k (exchange command t)).
    split; [exact Hh|apply waited_exchange_prefix; exact Ht].
  - exists []. unfold sendCommand, bind, get. rewrite Hp. simpl.
    rewrite app_nil_r. split; [reflexivity|lia].
Qed.

(** A step without a timer, then the rest. *)
Lemma costs_then {A B} (m : M A) (k : A -> M B) (n : Z) :
  costs m 0 -> (forall x, costs (k x) n) -> (0 <= n)%Z ->
  costs (bind m k) n.
Proof. intros Hm Hk Hn. apply (costs_bind m k 0 n n); auto. lia. Qed.

#[local] Hint Resolve costs_get costs_setReader costs_setWriter costs_setPort
  costs_setIsConnected : js.
#[local] Hint Extern 1 (costs (emit _) 0) =>
  apply costs_emit; reflexivity : js.
#[local] Hint Extern 1 (costs (io _ _) 0) =>
  apply costs_io; reflexivity : js.

(** Splits a method whose steps start no timer. *)
Ltac step_costs :=
  repeat first
    [ match goal with |- forall _, _ => intro end
    | solve [auto with js]
    | match goal with
      | |- costs (ret _) _ => apply costs_ret; lia
      | |- costs (throw _) _ => apply costs_throw; lia
      | |- costs (bind _ _) _ => apply costs_then; [| |lia]
      | |- costs (let _ := _ in _) _ => cbv zeta
      | |- costs (match ?x with _ => _ end) _ => destruct x
      | |- costs (if ?x then _ else _) _ => destruct x
      end ].

Lemma costs_thisPort (reading : string) : costs (thisPort reading) 0.
Proof. unfold thisPort. step_costs. Qed.

Lemma costs_openPort (dev : Device) (baudRate : Z) :
  costs (openPort dev baudRate) 0.
Proof. unfold openPort. step_costs. Qed.

#[local] Hint Resolve costs_thisPort costs_openPort : js.

Lemma costs_probeBaudRate (dev : Device) (baudRate : Z) :
  costs (probeBaudRate dev baudRate) 500.
Proof.
  unfold probeBaudRate. step_costs. apply costs_sendCommand. lia.
Qed.

Lemma costs_tryBaudRates (dev : Device) (rates : list Z) :
  costs (tryBaudRates dev rates) (500 * Z.of_nat (length rates)).
Proof.
  induction rates as [|baudRate rest IH].
  - simpl. apply costs_ret. lia.
  - cbn [tryBaudRates].
    apply (costs_bind _ _ 500 (500 * Z.of_nat (length rest)));
      [| |lia|simpl length; lia].
    + apply (costs_tryCatch _ _ 500 0); [| |lia|lia].
      * apply (costs_bind _ _ 500 0); [apply costs_probeBaudRate| |lia|lia].
        intros _. apply costs_ret. lia.
      * intros _. apply costs_ret. lia.
    + intros [b|]; [apply costs_ret; lia|exact IH].
Qed.

Lemma costs_probeCommands (dev : Device) :
  costs (probeCommands dev commands) 2500.
Proof.
  unfold commands. cbn [probeCommands].
  apply (costs_bind _ _ 1000 1500); [| |lia|lia].
  { apply (costs_tryCatch _ _ 1000 0); [| |lia|lia].
    - apply (costs_bind _ _ 1000 0); [apply costs_sendCommand; lia| |lia|lia].
      step_costs.
    - step_costs. }
  intros [m|]; [apply costs_ret; lia|].
  apply (costs_bind _ _ 1000 500); [| |lia|lia].
  { apply (costs_tryCatch _ _ 1000 0); [| |lia|lia].
    - apply (costs_bind _ _ 1000 0); [apply costs_sendCommand; lia| |lia|lia].
      step_costs.
    - step_costs. }
  intros [m|]; [apply costs_ret; lia|].
  apply (costs_bind _ _ 500 0); [| |lia|lia].
  { apply (costs_tryCatch _ _ 500 0); [| |lia|lia].
    - apply (costs_bind _ _ 500 0); [apply costs_sendCommand; lia| |lia|lia].
      step_costs.
    - step_costs. }
  intros [m|]; apply costs_ret; lia.
Qed.

Lemma costs_identifyByBehavior (dev : Device) :
  costs (identifyByBehavior dev) 3500.
Proof.
  unfold identifyByBehavior.
  apply (costs_bind _ _ 500 3000); [apply costs_sendCommand; lia| |lia|lia].
  intros _.
  apply (costs_bind _ _ 3000 0); [| |lia|lia].
  - apply (costs_tryBaudRates dev commonBaudRates).
  - intros _. unfold behavioralGuess. step_costs.
Qed.

Lemma costs_identifyModel (dev : Device) : costs (identifyModel dev) 6000.
Proof.
  unfold identifyModel. apply costs_then; [auto with js| |lia].
  intros st. destruct (port st); [|apply costs_throw; lia].
  apply (costs_tryCatch _ _ 6000 0); [| |lia|lia].
  2:{ intros _. apply costs_ret. lia. }
  apply (costs_bind _ _ 6000 0); [| |lia|lia].
  2:{ intros [m|]; [apply costs_ret; lia|].
      unfold fallbackIdentification. step_costs. }
  cbn [tryMethods].
  apply (costs_bind _ _ 0 6000); [| |lia|lia].
  { apply (costs_tryCatch _ _ 0 0); [| |lia|lia].
    - unfold identifyByUSBInfo. step_costs.
    - step_costs. }
  intros found1.
  assert (Hrest :
    costs
      (found <- tryCatch (identifyByCommandResponse dev)
                  (fun _ => ret None) ;;
       match found with
       | Some m =>
           if truthy m then ret (Some m)
           else
             found0 <- tryCatch (identifyByBehavior dev)
                         (fun _ => ret None) ;;
             match found0 with
             | Some m0 => if truthy m0 then ret (Some m0) else ret None
             | None => ret None
             end
       | None =>
           found0 <- tryCatch (identifyByBehavior dev)
                       (fun _ => ret None) ;;
           match found0 with
           | Some m0 => if truthy m0 then ret (Some m0) else ret None
           | None => ret None
           end
       end) 6000).
  { assert (Hlast :
      costs
        (found0 <- tryCatch (identifyByBehavior dev) (fun _ => ret None) ;;
         match found0 with
         | Some m0 => if truthy m0 then ret (Some m0) else ret None
         | None => ret None
         end) 3500).
    { apply (costs_bind _ _ 3500 0); [| |lia|lia].
      - apply (costs_tryCatch _ _ 3500 0); [| |lia|lia].
        + apply costs_identifyByBehavior.
        + step_costs.
      - step_costs. }
    apply (costs_bind _ _ 2500 3500); [| |lia|lia].
    - apply (costs_tryCatch _ _ 2500 0); [| |lia|lia].
      + apply costs_probeCommands.
      + step_costs.
    - intros [m|]; [destruct (truthy m); [apply costs_ret; lia|]|];
        exact Hlast. }
  destruct found1 as [m|]; [destruct (truthy m); [apply costs_ret; lia|]|];
    exact Hrest.
Qed.

Lemma costs_forEachCallback (dev : Device) (args : Payload) set :
  costs (forEachCallback dev set args) 0.
Proof.
  induction set as [|c set IH]; simpl; [apply costs_ret; lia|].
  apply costs_then; [|intros _; exact IH|lia].
  apply (costs_tryCatch _ _ 0 0); [auto with js| |lia|lia].
  intros _. apply costs_ret. lia.
Qed.

#[local] Hint Resolve costs_forEachCallback : js.

Lemma costs_detectArduino (dev : Device) : costs (detectArduino dev) 6000.
Proof.
  unfold detectArduino.
  destruct (negb (isSupported dev)); [apply costs_throw; lia|].
  apply (costs_tryCatch _ _ 6000 0); [| |lia|lia].
  2:{ step_costs. }
  apply costs_then; [auto with js| |lia]. intros st.
  apply costs_then; [auto with js| |lia]. intros _.
  destruct (grantedPort dev (history st)); [|apply costs_throw; lia].
  apply costs_then; [auto with js| |lia]. intros _.
  apply costs_then; [auto with js| |lia]. intros _.
  apply (costs_bind _ _ 6000 0); [apply costs_identifyModel| |lia|lia].
  intros label. unfold notifyConnection. step_costs.
Qed.

Lemma costs_getDeviceCapabilities (dev : Device) :
  costs (getDeviceCapabilities dev) 6000.
Proof.
  unfold getDeviceCapabilities. apply costs_then; [auto with js| |lia].
  intros st. destruct (negb (isConnected st)); [apply costs_ret; lia|].
  apply (costs_bind _ _ 6000 0); [apply costs_identifyModel| |lia|lia].
  step_costs.
Qed.

Lemma costs_checkDeviceHealth (dev : Device) :
  costs (checkDeviceHealth dev) 1000.
Proof.
  unfold checkDeviceHealth. step_costs.
  apply (costs_tryCatch _ _ 1000 0); [| |lia|lia]; [|step_costs].
  apply (costs_bind _ _ 1000 0); [apply costs_sendCommand; lia| |lia|lia].
  step_costs.
Qed.

Lemma costs_since {A} (m : M A) (n : Z) (st : State) :
  costs m n -> (0 <= waited (since st (snd (m st))) <= n)%Z.
Proof.
  intros H. destruct (H st) as (events & Hh & Hw).
  rewrite (since_app _ _ events Hh). exact Hw.
Qed.

(** X17. The timers that one [identifyModel] starts add up to 6000 ms
    at most (1000 + 1000 + 500 for the command probes, 500 for the
    behavioural probe, 6 x 500 for the baud rates), and so do those of one
    [detectArduino] and of one [getDeviceCapabilities]; those of
    [detectBaudRate] add up to 3000 ms at most and those of
    [checkDeviceHealth] to 1000 ms. The time that the calls on the port
    themselves take to settle is not counted. *)
Theorem identification_time_budget (dev : Device) (st : State) :
  (0 <= waited (since st (snd (identifyModel dev st))) <= 6000)%Z /\
  (0 <= waited (since st (snd (detectBaudRate dev st))) <= 3000)%Z /\
  (0 <= waited (since st (snd (detectArduino dev st))) <= 6000)%Z /\
  (0 <= waited (since st (snd (getDeviceCapabilities dev st))) <= 6000)%Z /\
  (0 <= waited (since st (snd (checkDeviceHealth dev st))) <= 1000)%Z.
Proof.
  split; [|split; [|split; [|split]]].
  - apply costs_since, costs_identifyModel.
  - apply (costs_since _ 3000%Z), (costs_tryBaudRates dev commonBaudRates).
  - apply costs_since, costs_detectArduino.
  - apply costs_since, costs_getDeviceCapabilities.
  - apply costs_since, costs_checkDeviceHealth.
Qed.

Example silent_uno_waits_3000_ms :
  waited (since (holding (portOf (Some 0x2341%Z) (Some 0%Z)))
            (snd (identifyModel silentUno
                    (holding (portOf (Some 0x2341%Z) (Some 0%Z)))))) =
  3000%Z.
Proof. reflexivity. Qed.

(** ** The rate the port is left at *)

Lemma lastBaudRate_app (e1 e2 : list Event) :
  lastBaudRate (e1 ++ e2) =
  match lastBaudRate e2 with
  | Some b => Some b
  | None => lastBaudRate e1
  end.
Proof.
  unfold lastBaudRate. rewrite fold_left_app.
  generalize (fold_left
                (fun rate ev =>
                   match ev with EvOpen b => Some b | _ => rate end)
                e1 None).
  induction e2 as [|ev e2 IH] using rev_ind; intros r; [reflexivity|].
  rewrite !fold_left_app. simpl. destruct ev; auto.
Qed.

Lemma probeBaudRate_returns (dev : Device) (baudRate : Z) (st st' : State)
  (response : jsstring) :
  probeBaudRate dev baudRate st = (Returns response, st') ->
  history st' =
    history st ++ [EvClose; EvOpen baudRate] ++ exchange crlf 500.
Proof.
  unfold probeBaudRate. intros H.
  apply bind_returns_inv in H. destruct H as (p & st1 & H1 & H).
  apply bind_returns_inv in H. destruct H as (u & st2 & H2 & H).
  apply bind_returns_inv in H. destruct H as (u' & st3 & H3 & H).
  unfold thisPort, bind, get in H1.
  destruct (port st) as [q|] eqn:Hp; [|discriminate H1].
  injection H1 as -> <-.
  unfold io in H2.
  destruct (resolves dev (history st) EvClose); [|discriminate H2].
  injection H2 as _ <-.
  unfold openPort, bind, get in H3. cbn [port record] in H3.
  rewrite Hp in H3. unfold io in H3.
  destruct (resolves dev _ (EvOpen baudRate)); [|discriminate H3].
  injection H3 as _ <-.
  destruct (sendCommand_prefix dev crlf 500
              (record (EvOpen baudRate) (record EvClose st)) p Hp)
    as (k & Hh & Hk).
  rewrite H in Hh, Hk. simpl in Hh, Hk. subst k.
  rewrite Hh. simpl. rewrite <- !app_assoc. reflexivity.
Qed.

Lemma tryBaudRates_found (dev : Device) (rates : list Z) :
  forall st st' b,
    tryBaudRates dev rates st = (Returns (Some b), st') ->
    In b rates /\ lastBaudRate (history st') = Some b.
Proof.
  induction rates as [|baudRate rest IH]; intros st st' b H.
  - discriminate H.
  - cbn [tryBaudRates] in H.
    apply bind_returns_inv in H. destruct H as (found & st1 & H1 & H).
    destruct found as [b'|].
    + injection H as Hb Hst. subst b' st1.
      unfold tryCatch in H1.
      destruct (bind (probeBaudRate dev baudRate) _ st)
        as [[r|e|] st2] eqn:E; try discriminate H1.
      injection H1 as Hr Hst. subst r st2.
      apply bind_returns_inv in E. destruct E as (response & st3 & E & Hret).
      injection Hret as Hb Hst. subst baudRate st3.
      split; [left; reflexivity|].
      rewrite (probeBaudRate_returns dev b st st' response E).
      rewrite lastBaudRate_app. reflexivity.
    + destruct (IH st1 st' b H) as (Hin & Hlast).
      split; [right; exact Hin|exact Hlast].
Qed.

(** X18. When [detectBaudRate] returns a rate, it is one of the six
    candidates 9600, 115200, 57600, 38400, 19200 and 14400, and the port
    was last opened at that very rate: the probe
    that found it closed the port, opened it at this rate and exchanged
    one line terminator, and nothing was done on the port after that. *)
Theorem detectBaudRate_leaves_port_at_found_rate (dev : Device)
  (st st' : State) (baudRate : Z) :
  detectBaudRate dev st = (Returns (Some baudRate), st') ->
  In baudRate [9600; 115200; 57600; 38400; 19200; 14400]%Z /\
  lastBaudRate (history st') = Some baudRate /\
  exists before,
    history st' =
      before ++ [EvClose; EvOpen baudRate] ++ exchange crlf 500.
Proof.
  intros H. destruct (tryBaudRates_found dev _ _ _ _ H) as (Hin & Hlast).
  split; [exact Hin|]. split; [exact Hlast|].
  clear Hin Hlast. unfold detectBaudRate in H.
  revert st H. generalize commonBaudRates.
  induction l as [|b rest IH]; intros st H; [discriminate H|].
  cbn [tryBaudRates] in H.
  apply bind_returns_inv in H. destruct H as (found & st1 & H1 & H).
  destruct found as [b'|].
  - injection H as Hb Hst. subst b' st1. unfold tryCatch in H1.
    destruct (bind (probeBaudRate dev b) _ st) as [[r|e|] st2] eqn:E;
      try discriminate H1.
    injection H1 as Hr Hst. subst r st2.
    apply bind_returns_inv in E. destruct E as (response & st3 & E & Hret).
    injection Hret as Hb Hst. subst b st3.
    exists (history st).
    apply (probeBaudRate_returns dev baudRate st st' response E).
  - exact (IH st1 H).
Qed.

Lemma detectBaudRate_leaves_port_at_found_rate_witness :
  In 9600%Z [9600; 115200; 57600; 38400; 19200; 14400]%Z /\
  lastBaudRate
    (history
       (snd (detectBaudRate emptyLineBoard
               (holding (portOf (Some 0x1234%Z) (Some 1%Z)))))) =
    Some 9600%Z /\
  exists before,
    history
      (snd (detectBaudRate emptyLineBoard
              (holding (portOf (Some 0x1234%Z) (Some 1%Z))))) =
      before ++ [EvClose; EvOpen 9600] ++ exchange crlf 500.
Proof.
  apply (detectBaudRate_leaves_port_at_found_rate emptyLineBoard
           (holding (portOf (Some 0x1234%Z) (Some 1%Z)))
           (snd (detectBaudRate emptyLineBoard
                   (holding (portOf (Some 0x1234%Z) (Some 1%Z)))))
           9600%Z).
  vm_compute. reflexivity.
Defined.

(** ** Disconnecting again, resetting *)

Lemma disconnect_returned (dev : Device) (st st' : State) :
  disconnect dev st = (Returns tt, st') ->
  port st' = None /\ reader st' = None /\ writer st' = None /\
  isConnected st' = false /\
  disconnectionCallbacks st' = disconnectionCallbacks st.
Proof.
  rewrite disconnect_run.
  destruct (locksReleased_fields st) as (Hr & Hw & Hp & Hcb).
  assert (Hnotify : forall st2,
            port st2 = None -> reader st2 = None -> writer st2 = None ->
            isConnected st2 = false ->
            disconnectionCallbacks st2 = disconnectionCallbacks st ->
            notifyDisconnection dev st2 = (Returns tt, st') ->
            port st' = None /\ reader st' = None /\ writer st' = None /\
            isConnected st' = false /\
            disconnectionCallbacks st' = disconnectionCallbacks st).
  { intros st2 H1 H2 H3 H4 H5 Hrun.
    rewrite notifyDisconnection_run in Hrun. injection Hrun as <-.
    destruct (recordAll_fields
                (dispatch (disconnectionCallbacks st2) OnDisconnect) st2)
      as (F1 & F2 & F3 & F4).
    destruct (recordAll_observers
                (dispatch (disconnectionCallbacks st2) OnDisconnect) st2)
      as (_ & O2 & _).
    rewrite F1, F2, F3, F4, O2. auto. }
  destruct (port st) as [p|] eqn:Hport.
  - destruct (resolves dev (beforeClose st) EvClose); [|discriminate].
    apply Hnotify; auto.
  - apply Hnotify; auto.
Qed.

Lemma portCalls_dispatch (set : list Callback) (args : Payload) :
  portCalls (dispatch set args) = [].
Proof. induction set as [|c set IH]; [reflexivity|exact IH]. Qed.

Lemma toldOfDisconnection_dispatch (set : list Callback) :
  toldOfDisconnection (dispatch set OnDisconnect) = set.
Proof.
  induction set as [|c set IH]; [reflexivity|].
  simpl. rewrite IH. reflexivity.
Qed.

(** X19. After a [disconnect] that returned, another [disconnect], on
    whatever board, returns as well. The detector makes no call on the
    port, its streams or a timer in it, and it tells every disconnection
    observer once more, in the order of registration. What an observer
    does when it is told (the listener of the monitor hands the event on
    to the status observers) is not the detector's call. *)
Theorem disconnect_again (dev dev' : Device) (st st' : State) :
  disconnect dev st = (Returns tt, st') ->
  exists st'',
    disconnect dev' st' = (Returns tt, st'') /\
    portCalls (since st' st'') = [] /\
    toldOfDisconnection (since st' st'') = disconnectionCallbacks st.
Proof.
  intros H.
  destruct (disconnect_returned dev st st' H) as (Hp & Hr & Hw & Hc & Hcb).
  rewrite disconnect_run, Hp.
  assert (Hl : locksReleased st' = st').
  { unfold locksReleased. rewrite Hr, Hw. reflexivity. }
  rewrite Hl, notifyDisconnection_run. eexists. split; [reflexivity|].
  rewrite (since_app st' _ (dispatch (disconnectionCallbacks st) OnDisconnect)).
  - split; [apply portCalls_dispatch|apply toldOfDisconnection_dispatch].
  - rewrite history_recordAll. simpl. rewrite Hcb. reflexivity.
Qed.

Lemma disconnect_again_witness :
  exists st'',
    disconnect busyPort
      (snd (disconnect silentUno
              (snd (detectArduino silentUno threeObservers)))) =
      (Returns tt, st'') /\
    portCalls
      (since (snd (disconnect silentUno
                     (snd (detectArduino silentUno threeObservers))))
         st'') = [] /\
    toldOfDisconnection
      (since (snd (disconnect silentUno
                     (snd (detectArduino silentUno threeObservers))))
         st'') =
      disconnectionCallbacks (snd (detectArduino silentUno threeObservers)).
Proof.
  apply (disconnect_again silentUno busyPort
           (snd (detectArduino silentUno threeObservers))).
  vm_compute. reflexivity.
Defined.

Lemma settles_disconnect (dev : Device) (st : State) :
  fst (disconnect dev st) <> Pending.
Proof.
  rewrite disconnect_run.
  destruct (port st); [destruct (resolves dev _ EvClose)|];
    rewrite ?notifyDisconnection_run; discriminate.
Qed.

(** X20. [reset] clears the devices of the last scan and both observer
    sets of the detector only when its [disconnect] returned; it does
    nothing more on the port than that [disconnect] did, and the status
    observers of the monitor stay. When [disconnect] throws
    ([port.close()] rejected), [reset] throws the same error and nothing
    is cleared: the observers stay registered and the scanned devices
    stay in the map. *)
Theorem reset_outcome (dev : Device) (d : Detector) :
  match disconnect dev (core d) with
  | (Returns _, st') =>
      exists d',
        reset dev d = (Returns tt, d') /\
        detectedDevices d' = [] /\
        connectionCallbacks (core d') = [] /\
        disconnectionCallbacks (core d') = [] /\
        statusCallbacks (core d') = statusCallbacks (core d) /\
        history (core d') = history st' /\
        port (core d') = None /\ isConnected (core d') = false
  | (Throws e, st') =>
      reset dev d =
        (Throws e, {| core := st'; detectedDevices := detectedDevices d |}) /\
      connectionCallbacks st' = connectionCallbacks (core d) /\
      disconnectionCallbacks st' = disconnectionCallbacks (core d)
  | (Pending, _) => False
  end.
Proof.
  pose proof (settles_disconnect dev (core d)) as Hs.
  pose proof (observers_disconnect dev (core d)) as Ho.
  unfold reset, bindD, liftD.
  destruct (disconnect dev (core d)) as [[[]|e|] st'] eqn:E; simpl in *.
  - destruct (disconnect_returned dev (core d) st' E)
      as (Hp & _ & _ & Hc & _).
    destruct Ho as (_ & _ & O3).
    eexists. split; [reflexivity|]. cbn. auto 10.
  - destruct Ho as (O1 & O2 & _). auto.
  - congruence.
Qed.

(** ** Registering observers *)

Lemma setAdd_member (callback : Callback) (set : list Callback) :
  existsb (Nat.eqb callback) (setAdd callback set) = true.
Proof.
  unfold setAdd. destruct (existsb (Nat.eqb callback) set) eqn:E; [exact E|].
  rewrite existsb_app. simpl. rewrite Nat.eqb_refl. simpl.
  apply orb_true_r.
Qed.

Lemma setAdd_again (callback : Callback) (set : list Callback) :
  setAdd callback (setAdd callback set) = setAdd callback set.
Proof.
  unfold setAdd at 1. rewrite setAdd_member. reflexivity.
Qed.

Lemma setAdd_In (callback : Callback) (set : list Callback) :
  In callback (setAdd callback set).
Proof.
  pose proof (setAdd_member callback set) as H.
  apply existsb_exists in H. destruct H as (x & Hin & Heq).
  apply Nat.eqb_eq in Heq. subst x. exact Hin.
Qed.

(** X21. The observer sets are sets: registering a function that is
    already registered changes nothing, for each of [onConnection],
    [onDisconnection] and [onStatusChange]; and on a detector whose sets
    hold no function twice, a function registered twice is still called
    exactly once per dispatch, whatever the observers do. *)
Theorem register_twice (dev : Device) (callback : Callback) (st : State) :
  wellFormed st ->
  (snd (onConnection callback (snd (onConnection callback st))) =
     snd (onConnection callback st) /\
   forall label,
     invocations callback
       (since (snd (onConnection callback st))
          (snd (notifyConnection dev label
                  (snd (onConnection callback st))))) = 1) /\
  (snd (onDisconnection callback (snd (onDisconnection callback st))) =
     snd (onDisconnection callback st) /\
   invocations callback
     (since (snd (onDisconnection callback st))
        (snd (notifyDisconnection dev
                (snd (onDisconnection callback st))))) = 1) /\
  (snd (onStatusChange callback (snd (onStatusChange callback st))) =
     snd (onStatusChange callback st) /\
   forall status,
     invocations callback
       (since (snd (onStatusChange callback st))
          (snd (notifyStatus dev status
                  (snd (onStatusChange callback st))))) = 1).
Proof.
  intros (H1 & H2 & H3).
  split; [|split]; (split; [simpl; unfold setConnectionCallbacks,
    setDisconnectionCallbacks, setStatusCallbacks; simpl;
    rewrite setAdd_again; reflexivity|]); intros.
  - set (st1 := snd (onConnection callback st)).
    unfold notifyConnection.
    rewrite (bind_run _ _ st1 st1 st1) by reflexivity.
    apply dispatched_once; unfold st1; simpl;
      [apply setAdd_NoDup; exact H1|apply setAdd_In].
  - set (st1 := snd (onDisconnection callback st)).
    unfold notifyDisconnection.
    rewrite (bind_run _ _ st1 st1 st1) by reflexivity.
    apply dispatched_once; unfold st1; simpl;
      [apply setAdd_NoDup; exact H2|apply setAdd_In].
  - set (st1 := snd (onStatusChange callback st)).
    unfold notifyStatus.
    rewrite (bind_run _ _ st1 st1 st1) by reflexivity.
    apply dispatched_once; unfold st1; simpl;
      [apply setAdd_NoDup; exact H3|apply setAdd_In].
Qed.

Lemma register_twice_witness :
  (snd (onConnection 2 (snd (onConnection 2 threeObservers))) =
     snd (onConnection 2 threeObservers) /\
   forall label,
     invocations 2
       (since (snd (onConnection 2 threeObservers))
          (snd (notifyConnection busyPort label
                  (snd (onConnection 2 threeObservers))))) = 1) /\
  (snd (onDisconnection 2 (snd (onDisconnection 2 threeObservers))) =
     snd (onDisconnection 2 threeObservers) /\
   invocations 2
     (since (snd (onDisconnection 2 threeObservers))
        (snd (notifyDisconnection busyPort
                (snd (onDisconnection 2 threeObservers))))) = 1) /\
  (snd (onStatusChange 2 (snd (onStatusChange 2 threeObservers))) =
     snd (onStatusChange 2 threeObservers) /\
   forall status,
     invocations 2
       (since (snd (onStatusChange 2 threeObservers))
          (snd (notifyStatus busyPort status
                  (snd (onStatusChange 2 threeObservers))))) = 1).
Proof.
  apply (register_twice busyPort 2 threeObservers).
  repeat split; simpl; repeat constructor; simpl; intuition discriminate.
Defined.

(** ** More on the envelope *)





Example wrap_of_a_source_with_setup_only :
  wrapCodeForUpload (str "void setup() { pinMode(13, OUTPUT); }") noOptions =
  str "// Uploaded by VitaCoder Pro" ++ nl ++
  nl ++
  nl ++
  str "void setup() {" ++ nl ++
  str "    Serial.begin(9600);" ++ nl ++
  str "    void setup() { pinMode(13, OUTPUT); }" ++ nl ++
  str "}" ++ nl ++
  nl ++
  str "void loop() {" ++ nl ++
  str "    // Your code runs here" ++ nl ++
  str "}".
Proof. reflexivity. Qed.

(** ** The envelope of any source *)

Lemma eqb_units (c d : ascii) :
  (Z.of_N (N_of_ascii c) =? Z.of_N (N_of_ascii d))%Z = Ascii.eqb c d.
Proof.
  destruct (Ascii.eqb_spec c d) as [->|Hne].
  - apply Z.eqb_refl.
  - apply Z.eqb_neq. intros H. apply N2Z.inj in H.
    apply (f_equal ascii_of_N) in H. rewrite !ascii_N_embedding in H.
    contradiction.
Qed.

Lemma startsWith_units (t : jsstring) :
  forall s, Utf16.startsWith (Utf16.units s) (Utf16.units t) = startsWith s t.
Proof.
  induction t as [|c t IH]; intros [|d s]; try reflexivity.
  cbn [Utf16.units map Utf16.startsWith startsWith].
  rewrite eqb_units. fold (Utf16.units s). fold (Utf16.units t).
  rewrite IH. reflexivity.
Qed.

Lemma includes_units (t s : jsstring) :
  Utf16.includes (Utf16.units s) (Utf16.units t) = includes s t.
Proof.
  induction s as [|d s IH].
  - cbn [Utf16.units map Utf16.includes includes].
    change (@nil Z) with (Utf16.units []). rewrite startsWith_units.
    reflexivity.
  - cbn [Utf16.units map Utf16.includes includes].
    change (Z.of_N (N_of_ascii d) :: map _ s) with (Utf16.units (d :: s)).
    rewrite startsWith_units. fold (Utf16.units s). rewrite IH. reflexivity.
Qed.

(** On a source over the code units below 256, the envelope of any
    source is the envelope above: what is proved of [wrapCodeForUpload]
    there holds of what [uploadCode] sends. *)
Lemma wrapCodeForUpload_units (code : jsstring) (options : UploadOptions) :
  Utf16.wrapCodeForUpload (Utf16.units code) (anyOptions options) =
  Utf16.units (wrapCodeForUpload code options).
Proof.
  unfold Utf16.wrapCodeForUpload, wrapCodeForUpload, setupMarker, loopMarker.
  rewrite !includes_units.
  destruct (includes code (str "void setup()") &&
            includes code (str "void loop()")); [reflexivity|].
  assert (Hl : Utf16.librariesOrEmpty (anyOptions options) =
               Utf16.units (librariesOrEmpty options)).
  { unfold Utf16.librariesOrEmpty, librariesOrEmpty, anyOptions.
    cbn [Utf16.libraries]. destruct (libraries options) as [[|c l]|];
      reflexivity. }
  unfold Utf16.envelopeHead, Utf16.envelopeTail, envelopeHead, envelopeTail.
  rewrite Hl. unfold Utf16.units. rewrite !map_app. rewrite <- !app_assoc.
  reflexivity.
Qed.

(** ** Recommendations *)

(** X23. The recommendations for the current status of a detector, as
    [getDeviceReport] computes them: when a connected detector holds a
    port (which calls from a new detector keep true), the list is the
    browser advice when Web Serial is missing, followed by exactly one
    connection advice, "Connection stable" when the detector is connected
    and "Connect an Arduino device" when it is not. *)
Theorem recommendations_of_current_status (dev : Device) (d : Detector) :
  connectedHasPort (core d) ->
  getConnectionRecommendations (currentStatus dev d) =
  (if isSupported dev then [] else [browserAdvice]) ++
  [connectionAdvice (isConnected (core d))].
Proof.
  intros Hinv.
  unfold getConnectionRecommendations, currentStatus, getStatus.
  cbn [statusSupported statusConnected statusHasPort reportConnected
       reportScanning reportSupported reportPort].
  destruct (isSupported dev); cbn [negb app];
    (destruct (isConnected (core d)) eqn:Hc;
     [destruct (port (core d)) eqn:Hp;
      [reflexivity|exfalso; apply (Hinv Hc); exact Hp]
     |reflexivity]).
Qed.

Lemma recommendations_of_current_status_witness :
  getConnectionRecommendations
    (currentStatus silentUno {| core := connectedUno; detectedDevices := [] |}) =
  [connectionAdvice true].
Proof.
  apply (recommendations_of_current_status silentUno
           {| core := connectedUno; detectedDevices := [] |}).
  intros _. vm_compute. discriminate.
Defined.
